(** * Thermal image normaliser (src/ir-normalization/normalizer.py)

    A shallow embedding of the normaliser script: the filename-driven
    scaling policy, the linear normalisation of a pixel grid (numpy array
    arithmetic on IEEE binary64), the per-file worker and the batch driver,
    followed by the properties stated about them.

    The libraries are taken as they behave today: Python 3.11 or later
    (the text of [UnboundLocalError]), numpy 2 (a Python integer that
    meets an array keeps the array's type and must fit it; numpy 1 widened
    the array instead).  The element type of the array the image decoder
    returns depends on the version of Pillow and is part of the
    decoder's answer. *)

From Stdlib Require Import ZArith List String Ascii Bool Lia SpecFloat DecimalString.
Import ListNotations.

Local Open Scope string_scope.
Local Open Scope list_scope.
Local Open Scope Z_scope.

(** ** Python values and effects *)

(** Exceptions the script can meet.  [External] stands for whatever the
    image codecs and the operating system raise ([IOError], [OSError],
    decoder errors); its payload is the text of the exception. *)
Inductive exn : Type :=
| UnboundLocalError (var : string)
| ValueError (msg : string)
| OverflowError (msg : string)
| External (msg : string).

Definition result (A : Type) : Type := (A + exn)%type.

Definition Ok {A : Type} (a : A) : result A := inl a.
Definition Raise {A : Type} (e : exn) : result A := inr e.

(** [str(e)], as [print(e)] shows it; the text of [UnboundLocalError] is
    that of Python 3.11 and later (before, it read "local variable ...
    referenced before assignment"). *)
Definition exn_str (e : exn) : string :=
  match e with
  | UnboundLocalError v =>
      ("cannot access local variable '" ++ v
       ++ "' where it is not associated with a value")%string
  | ValueError m => m
  | OverflowError m => m
  | External m => m
  end.

(** Sequencing of computations that may raise. *)
Definition and_then {A B : Type} (r : result A) (k : A -> result B) : result B :=
  match r with
  | inl a => k a
  | inr e => Raise e
  end.

Notation "'let?' x ':=' r 'in' k" := (and_then r (fun x => k))
  (at level 10, x name, r at level 100, k at level 200).

(** Code that prints and may raise: the console is the only state it can
    touch. *)
Definition Py (A : Type) : Type := list string -> result A * list string.

Definition ret {A : Type} (a : A) : Py A := fun out => (Ok a, out).
Definition raise {A : Type} (e : exn) : Py A := fun out => (Raise e, out).
Definition print (line : string) : Py unit := fun out => (Ok tt, out ++ [line]).
Definition bind {A B : Type} (m : Py A) (k : A -> Py B) : Py B :=
  fun out =>
    match m out with
    | (inl a, out') => k a out'
    | (inr e, out') => (Raise e, out')
    end.

Notation "x <- m ;; k" := (bind m (fun x => k))
  (at level 61, m at next level, right associativity).
Notation "m ;;; k" := (bind m (fun _ => k))
  (at level 61, right associativity).

(** ** Strings, as Python's [str] methods treat them *)

(** [s.find(sub)]: index of the first occurrence, or [-1]. *)
Fixpoint find_from (sub s : string) (i : Z) : Z :=
  if prefix sub s then i
  else match s with
       | EmptyString => -1
       | String _ s' => find_from sub s' (i + 1)
       end.

Definition str_find (s sub : string) : Z := find_from sub s 0.

(** [s.replace(old, new)] for a non-empty [old]: occurrences are replaced
    from the left and do not overlap.  [skip] counts the characters of an
    occurrence just replaced that are still to be dropped. *)
Fixpoint replace_skip (old new : string) (skip : nat) (s : string) : string :=
  match s with
  | EmptyString => EmptyString
  | String c s' =>
      match skip with
      | S k => replace_skip old new k s'
      | O =>
          if prefix old s
          then (new ++ replace_skip old new (Nat.pred (String.length old)) s')%string
          else String c (replace_skip old new O s')
      end
  end.

Definition str_replace (s old new : string) : string :=
  replace_skip old new O s.

(** [s.split(sep)] for a one-character separator. *)
Fixpoint str_split (sep : ascii) (s : string) : list string :=
  match s with
  | EmptyString => [EmptyString]
  | String c s' =>
      if Ascii.eqb c sep then EmptyString :: str_split sep s'
      else match str_split sep s' with
           | h :: t => String c h :: t
           | [] => [String c EmptyString]
           end
  end.

(** [os.path.basename] (posixpath): what follows the last slash. *)
Fixpoint basename (p : string) : string :=
  match p with
  | EmptyString => EmptyString
  | String c p' =>
      if existsb (Ascii.eqb "/"%char) (list_ascii_of_string p') then basename p'
      else if Ascii.eqb c "/"%char then p' else p
  end.

(** [os.path.join(a, b)] (posixpath). *)
Definition path_join (a b : string) : string :=
  if prefix "/" b then b
  else if (String.length a =? 0)%nat then b
  else if String.eqb (substring (Nat.pred (String.length a)) 1 a) "/"
       then (a ++ b)%string
       else (a ++ "/" ++ b)%string.

(** Decimal text of an integer, as [%d] and [{}] print it. *)
Definition str_of_Z (z : Z) : string :=
  DecimalString.NilZero.string_of_int (Z.to_int z).

Definition str_of_bool (b : bool) : string := if b then "True" else "False".

(** ** Scaling policy *)

Definition is_camera_token (token : string) : bool :=
  String.eqb token "P" || String.eqb token "C" || String.eqb token "S".

(** [parse_filename]: the loop leaves [camera_pos] unassigned when no token
    matches; the [else] branch of the [for] prints the warning, and the
    [return] then reads the unassigned local. *)
Definition parse_filename (filename : string) : Py string :=
  let tokens := str_split "_"%char (basename filename) in
  let camera_pos := List.find is_camera_token tokens in
  match camera_pos with
  | Some _ => ret tt
  | None => print ("Warning: Bad filename format " ++ filename)%string
  end ;;;
  match camera_pos with
  | Some token => ret token
  | None => raise (UnboundLocalError "camera_pos")
  end.

Definition get_scaling_values (filename : string) (num_rows : Z) : Py (Z * Z) :=
  camera_pos <- parse_filename filename ;;
  let bottom := 51000 in
  let top := 57500 in
  if String.eqb camera_pos "P" then
    if num_rows =? 512 then ret (53500, 56500)
    else if num_rows =? 480 then ret (50500, 58500)
    else print ("Unknown camera size for file " ++ filename)%string ;;;
         ret (bottom, top)
  else if String.eqb camera_pos "C" then ret (50500, 58500)
  else ret (bottom, top).

(** ** IEEE binary64: numpy's [float64] *)

Module F64.

Definition prec : Z := 53.
Definition emax : Z := 1024.

(** Conversion of an integer, rounding to nearest even. *)
Definition of_Z (z : Z) : spec_float := binary_normalize prec emax z 0 false.

Definition div : spec_float -> spec_float -> spec_float := SFdiv prec emax.
Definition mul : spec_float -> spec_float -> spec_float := SFmul prec emax.
Definition ltb : spec_float -> spec_float -> bool := SFltb.

Definition zero : spec_float := S754_zero false.
Definition one : spec_float := of_Z 1.

Definition signed (s : bool) (m : positive) : Z := if s then Zneg m else Zpos m.

(** The largest integer not above a finite value. *)
Definition floorZ (x : spec_float) : option Z :=
  match x with
  | S754_zero _ => Some 0
  | S754_finite s m e =>
      Some (if 0 <=? e then signed s m * 2 ^ e else signed s m / 2 ^ (- e))
  | _ => None
  end.

(** The integer part, dropping the fraction (C's conversion). *)
Definition truncZ (x : spec_float) : option Z :=
  match x with
  | S754_zero _ => Some 0
  | S754_finite s m e =>
      Some (if 0 <=? e then signed s m * 2 ^ e else Z.quot (signed s m) (2 ^ (- e)))
  | _ => None
  end.

(** [floor] as a float: zeros, infinities and NaN are returned as they
    are. *)
Definition floor (x : spec_float) : spec_float :=
  match x with
  | S754_finite _ _ _ =>
      match floorZ x with
      | Some z => of_Z z
      | None => x
      end
  | _ => x
  end.

End F64.

(** ** numpy arrays *)

(** A two-dimensional integer array, row by row, and its element type.
    [np.array(Image.open f)] of a 16-bit greyscale image has dtype
    [uint16] when Pillow reads the file in mode [I;16] (as it does today)
    and [int32] when it reads it in mode [I] (as it did before); the
    samples are the 16-bit values of the file either way. *)
Definition ndarray : Type := list (list Z).
Definition farray : Type := list (list spec_float).

Inductive dtype : Type := u16 | i32.

Definition dtype_name (dt : dtype) : string :=
  match dt with
  | u16 => "uint16"
  | i32 => "int32"
  end.

Definition int32 (z : Z) : Z := (z + 2 ^ 31) mod 2 ^ 32 - 2 ^ 31.

(** The values of an element type, and arithmetic in it: results wrap
    around. *)
Definition fits (dt : dtype) (z : Z) : bool :=
  match dt with
  | u16 => (0 <=? z) && (z <? 2 ^ 16)
  | i32 => (- 2 ^ 31 <=? z) && (z <? 2 ^ 31)
  end.

Definition wrap (dt : dtype) (z : Z) : Z :=
  match dt with
  | u16 => z mod 2 ^ 16
  | i32 => int32 z
  end.

(** The scalars that meet an array in [lin_normalize_image]: a Python
    integer (a bound given by the caller, or the difference of two), or a
    numpy scalar of the array's element type (what [np.min] and [np.max]
    return). *)
Inductive scalar : Type :=
| PyInt (z : Z)
| NpInt (z : Z).

(** A Python integer in an operation on values of type [dt] is converted
    to [dt] and must fit. *)
Definition py_int (dt : dtype) (z : Z) : result Z :=
  if fits dt z then Ok z
  else Raise (OverflowError ("Python integer " ++ str_of_Z z ++ " out of bounds for "
                             ++ dtype_name dt)%string).

Definition to_dtype (dt : dtype) (s : scalar) : result Z :=
  match s with
  | PyInt z => py_int dt z
  | NpInt z => Ok z
  end.

Definition sample16 (v : Z) : Prop := 0 <= v < 2 ^ 16.
Definition grid16 (a : ndarray) : Prop := Forall (Forall sample16) a.

Definition shape {A : Type} (a : list (list A)) : list nat := List.map (@List.length A) a.

Definition amap {A B : Type} (f : A -> B) (a : list (list A)) : list (list B) :=
  List.map (List.map f) a.

(** [np.min] and [np.max] of the whole array; an empty array raises. *)
Definition reduce (f : Z -> Z -> Z) (name : string) (a : ndarray) : result Z :=
  match List.concat a with
  | [] => Raise (ValueError ("zero-size array to reduction operation " ++ name
                             ++ " which has no identity")%string)
  | x :: xs => Ok (List.fold_left f xs x)
  end.

Definition np_min : ndarray -> result Z := reduce Z.min "minimum".
Definition np_max : ndarray -> result Z := reduce Z.max "maximum".

(** [a - b] for an array of type [dt] and a scalar: computed in [dt]. *)
Definition subtract (dt : dtype) (a : ndarray) (b : scalar) : result ndarray :=
  let? z := to_dtype dt b in
  Ok (amap (fun v => wrap dt (v - z)) a).

(** [t - b] for two scalars: Python's own subtraction when both are
    Python integers, a subtraction in [dt] as soon as one is a numpy
    scalar. *)
Definition scalar_subtract (dt : dtype) (t b : scalar) : result scalar :=
  match t, b with
  | PyInt x, PyInt y => Ok (PyInt (x - y))
  | _, _ =>
      let? x := to_dtype dt t in
      let? y := to_dtype dt b in
      Ok (NpInt (wrap dt (x - y)))
  end.

(** The conversion of a scalar to [float64]; Python refuses to convert an
    integer that is too large. *)
Definition to_float (s : scalar) : result spec_float :=
  match s with
  | PyInt z =>
      match F64.of_Z z with
      | S754_infinity _ => Raise (OverflowError "int too large to convert to float")
      | x => Ok x
      end
  | NpInt z => Ok (F64.of_Z z)
  end.

(** [a / d]: true division of an integer array by a scalar, both sides
    converted to [float64]. *)
Definition true_divide (a : ndarray) (d : scalar) : result farray :=
  let? y := to_float d in
  Ok (amap (fun n => F64.div (F64.of_Z n) y) a).

(** [a * k] for a [float64] array and an integer scalar. *)
Definition multiply (a : farray) (k : Z) : farray :=
  amap (fun x => F64.mul x (F64.of_Z k)) a.

(** [a[a < c] = c] and [a[a > c] = c]: assignment through a boolean mask.
    A NaN compares false both ways and stays. *)
Definition assign_where_lt (a : farray) (c : spec_float) : farray :=
  amap (fun x => if F64.ltb x c then c else x) a.
Definition assign_where_gt (a : farray) (c : spec_float) : farray :=
  amap (fun x => if F64.ltb c x then c else x) a.

Definition np_floor (a : farray) : farray := amap F64.floor a.

(** [x.astype(np.uint8)] and [x.astype(np.uint16)].  The conversion of a
    [float64] that has no value in the target integer type (NaN, an
    infinity, a value out of range) is left by numpy to the C compiler;
    what the platform returns is the parameter [cast_undefined]. *)
Definition astype_uint (cast_undefined : Z -> spec_float -> Z) (bits : Z)
           (a : farray) : ndarray :=
  amap (fun x =>
          match F64.truncZ x with
          | Some z => if (0 <=? z) && (z <? 2 ^ bits) then z
                      else cast_undefined bits x
          | None => cast_undefined bits x
          end) a.

(** ** Linear normalisation *)

(** [image_array] has element type [dt].  A bound given by the caller is
    a Python integer, an omitted one is taken from the array and is then a
    numpy scalar of type [dt].  In [(image_array - bottom) / (top - bottom)]
    the left operand is evaluated first. *)
Definition lin_normalize_image (cast_undefined : Z -> spec_float -> Z)
           (dt : dtype) (image_array : ndarray) (bit_8 : bool) (bottom top : option Z)
  : result ndarray :=
  let? bottom :=
    match bottom with
    | Some b => Ok (PyInt b)
    | None => let? m := np_min image_array in Ok (NpInt m)
    end in
  let? top :=
    match top with
    | Some t => Ok (PyInt t)
    | None => let? m := np_max image_array in Ok (NpInt m)
    end in
  let? shifted := subtract dt image_array bottom in
  let? width := scalar_subtract dt top bottom in
  let? scaled_image := true_divide shifted width in
  let scaled_image := assign_where_lt scaled_image (F64.of_Z 0) in
  let scaled_image := assign_where_gt scaled_image (F64.of_Z 1) in
  Ok (if bit_8
      then astype_uint cast_undefined 8 (np_floor (multiply scaled_image 255))
      else astype_uint cast_undefined 16 (np_floor (multiply scaled_image 65535))).

(** ** The outside world *)

(** The file system and the clock are a state [world]; the image codecs,
    the directory listing, the clock and the platform's float conversion
    are the script's collaborators. *)
Record environment : Type := mkEnv {
  world : Type;
  timestamp : Type;
  (** the C conversion behind [astype] *)
  cast_undefined : Z -> spec_float -> Z;
  (** [np.array(Image.open(in_file))]: the element type and the samples *)
  image_open : string -> world -> result (dtype * ndarray);
  (** [Image.fromarray(normalized).save(output_file)] *)
  image_save : string -> ndarray -> world -> result unit * world;
  (** the [png.Writer] branch: a 16-bit greyscale file written by pypng *)
  png_write : string -> ndarray -> world -> result unit * world;
  (** [os.listdir] *)
  listdir : string -> world -> result (list string);
  (** [time.time()] *)
  time_time : world -> timestamp;
  (** the progress line, from the index, the number of inputs, the current
      time and the time of the last report *)
  progress_line : Z -> Z -> timestamp -> timestamp -> string
}.

Record state (E : environment) : Type := mkState {
  console : list string;
  prev_time : timestamp E;
  fs : world E
}.

Arguments mkState {E} _ _ _.
Arguments console {E} _.
Arguments prev_time {E} _.
Arguments fs {E} _.

Definition set_console {E : environment} (st : state E) (out : list string) : state E :=
  mkState out (prev_time st) (fs st).
Definition set_fs {E : environment} (st : state E) (w : world E) : state E :=
  mkState (console st) (prev_time st) w.
Definition echo {E : environment} (line : string) (st : state E) : state E :=
  set_console st (console st ++ [line]).

(** ** Per-file worker *)

(** The body of the [try] block of [process_file]. *)
Definition process_file_body (E : environment) (bit_8 : bool)
           (in_file output_file : string) (st : state E) : result unit * state E :=
  match image_open E in_file (fs st) with
  | inr e => (Raise e, st)
  | inl (dt, cur_data) =>
      match get_scaling_values in_file (Z.of_nat (List.length cur_data)) (console st) with
      | (inr e, out) => (Raise e, set_console st out)
      | (inl (bottom, top), out) =>
          let st := set_console st out in
          match lin_normalize_image (cast_undefined E) dt cur_data bit_8
                                    (Some bottom) (Some top) with
          | inr e => (Raise e, st)
          | inl normalized =>
              let '(r, w) := (if bit_8 then image_save E else png_write E)
                               output_file normalized (fs st) in
              (r, set_fs st w)
          end
      end
  end.

(** The progress report, every thousandth index: it sits before the
    [try] block. *)
Definition report_progress (E : environment) (len_inputs index : Z)
           (st : state E) : state E :=
  if index mod 1000 =? 0 then
    let cur_time := time_time E (fs st) in
    mkState (console st ++ [progress_line E index len_inputs cur_time (prev_time st)])
            cur_time (fs st)
  else st.

Definition process_file (E : environment) (len_inputs : Z) (bit_8 : bool)
           (in_file output_file : string) (index : Z) (st : state E)
  : bool * state E :=
  let st := report_progress E len_inputs index st in
  match process_file_body E bit_8 in_file output_file st with
  | (inl _, st) => (true, st)
  | (inr e, st) =>
      (false, echo ("Unable to load " ++ in_file)%string (echo (exn_str e) st))
  end.

(** ** Batch driver *)

(** The two name lists [curate_files] builds from the directory listing. *)
Definition curate_names (all_files : list string)
           (input_directory output_directory : string) (bit_8 : bool)
  : list string * list string :=
  let input_files :=
    List.filter (fun x => negb (str_find x "16BIT.PNG" =? -1)) all_files in
  let output_files :=
    if bit_8
    then List.map (fun x => str_replace x "16BIT" "8BIT-N") input_files
    else List.map (fun x => str_replace x "16BIT." "16BIT-N.") input_files in
  (List.map (path_join input_directory) input_files,
   List.map (path_join output_directory) output_files).

Definition curate_files (E : environment)
           (input_directory output_directory : string) (bit_8 : bool)
           (w : world E) : result (list string * list string) :=
  match listdir E input_directory w with
  | inr e => Raise e
  | inl all_files => Ok (curate_names all_files input_directory output_directory bit_8)
  end.

(** [cpu_count() - 1 or 1]. *)
Definition num_workers (cpu_count : Z) : Z :=
  if cpu_count - 1 =? 0 then 1 else cpu_count - 1.

(** [Pool(processes)]: the size of the pool created; a size below one is
    refused. *)
Definition Pool (processes : Z) : result Z :=
  if processes <? 1 then Raise (ValueError "Number of processes must be at least 1")
  else Ok processes.

(** [pool.starmap] over the task list, results in task order.  The
    workers are taken one task after the other. *)
Fixpoint starmap (E : environment) (len_inputs : Z) (bit_8 : bool)
         (tasks : list (string * string * Z)) (st : state E)
  : list bool * state E :=
  match tasks with
  | [] => ([], st)
  | (in_file, output_file, index) :: rest =>
      let '(r, st) := process_file E len_inputs bit_8 in_file output_file index st in
      let '(rs, st) := starmap E len_inputs bit_8 rest st in
      (r :: rs, st)
  end.

(** [enumerate(input_files)] paired with [output_files[index]]; the two
    lists have the same length. *)
Fixpoint make_tasks (input_files output_files : list string) (index : Z)
  : list (string * string * Z) :=
  match input_files, output_files with
  | in_file :: ins, output_file :: outs =>
      (in_file, output_file, index) :: make_tasks ins outs (index + 1)
  | _, _ => []
  end.

Definition count_true (results : list bool) : Z :=
  Z.of_nat (List.length (List.filter (fun x => x) results)).

(** [main], after the command line has been parsed into the two
    directories and the flag; [cpu_count] is what
    [multiprocessing.cpu_count()] returns. *)
Definition main (E : environment) (input_directory output_directory : string)
           (bit_8 : bool) (cpu_count : Z) (st : state E) : result unit * state E :=
  let st := echo ("Input directory: " ++ input_directory)%string st in
  let st := echo ("Output directory: " ++ output_directory)%string st in
  let st := echo ("bit_8: " ++ str_of_bool bit_8)%string st in
  match curate_files E input_directory output_directory bit_8 (fs st) with
  | inr e => (Raise e, st)
  | inl (input_files, output_files) =>
      let len_inputs := Z.of_nat (List.length input_files) in
      let st := echo ("Found " ++ str_of_Z len_inputs ++ " files for processing")%string st in
      let st := mkState (console st) (time_time E (fs st)) (fs st) in
      match Pool (num_workers cpu_count) with
      | inr e => (Raise e, st)
      | inl _ =>
          let '(results, st) :=
            starmap E len_inputs bit_8 (make_tasks input_files output_files 0) st in
          let st := echo "Done!" st in
          let st := echo ("Completed converting " ++ str_of_Z (count_true results)
                          ++ " files")%string st in
          (Ok tt, st)
      end
  end.

(** ** Words of the specification *)

(** [sub] occurs somewhere in [s]. *)
Definition contains (sub s : string) : Prop :=
  exists pre post : string, s = (pre ++ sub ++ post)%string.

(** The camera position of a file name: the first token of the basename
    that is [P], [C] or [S]. *)
Definition camera_of (filename : string) : option string :=
  List.find is_camera_token (str_split "_"%char (basename filename)).

(** The name of the output file, by the renaming rule. *)
Definition output_name (bit_8 : bool) (x : string) : string :=
  if bit_8 then str_replace x "16BIT" "8BIT-N"
  else str_replace x "16BIT." "16BIT-N.".

(** The entries of a listing whose name passes the test of
    [curate_files]. *)
Definition selected (all_files : list string) : list string :=
  List.filter (fun x => negb (str_find x "16BIT.PNG" =? -1)) all_files.

(** The largest sample value of the output, [2^d - 1], and the depth
    [d]. *)
Definition full_scale (bit_8 : bool) : Z := if bit_8 then 255 else 65535.
Definition bit_depth (bit_8 : bool) : Z := if bit_8 then 8 else 16.

(** Clipping to [0, 1]: what the two masked assignments do to one
    element. *)
Definition clip01 (s : spec_float) : spec_float :=
  let s := if F64.ltb s (F64.of_Z 0) then F64.of_Z 0 else s in
  if F64.ltb (F64.of_Z 1) s then F64.of_Z 1 else s.

(** The level the specification gives a sample: the floor of the clipped
    quotient times [2^d - 1], when that is a number. *)
Definition spec_level (bit_8 : bool) (bottom top v : Z) : option Z :=
  F64.floorZ
    (F64.mul (clip01 (F64.div (F64.of_Z (v - bottom)) (F64.of_Z (top - bottom))))
             (F64.of_Z (2 ^ bit_depth bit_8 - 1))).

(** What [multiply], [np_floor] and [astype_uint] make of one element. *)
Definition quantize (cast_undefined : Z -> spec_float -> Z) (bit_8 : bool)
           (s : spec_float) : Z :=
  let x := F64.floor (F64.mul s (F64.of_Z (full_scale bit_8))) in
  match F64.truncZ x with
  | Some z => if (0 <=? z) && (z <? 2 ^ bit_depth bit_8) then z
              else cast_undefined (bit_depth bit_8) x
  | None => cast_undefined (bit_depth bit_8) x
  end.

(** What the array operations of [lin_normalize_image] do to the sample
    whose difference to [bottom] is [n], for a width [d]. *)
Definition sample_out (cast_undefined : Z -> spec_float -> Z) (bit_8 : bool)
           (n d : Z) : Z :=
  quantize cast_undefined bit_8 (clip01 (F64.div (F64.of_Z n) (F64.of_Z d))).

(** The same for the sample [v] of an array of type [dt], both bounds
    given: the difference to [bottom] is taken in [dt]. *)
Definition rescale (cast_undefined : Z -> spec_float -> Z) (dt : dtype) (bit_8 : bool)
           (bottom top v : Z) : Z :=
  sample_out cast_undefined bit_8 (wrap dt (v - bottom)) (top - bottom).

(** The state in which [main] starts the pool. *)
Definition pool_start (E : environment) (input_directory output_directory : string)
           (bit_8 : bool) (all_files : list string) (st : state E) : state E :=
  mkState (console st
           ++ [("Input directory: " ++ input_directory)%string;
               ("Output directory: " ++ output_directory)%string;
               ("bit_8: " ++ str_of_bool bit_8)%string;
               ("Found " ++ str_of_Z (Z.of_nat (List.length (selected all_files)))
                         ++ " files for processing")%string])
          (time_time E (fs st)) (fs st).

(** The tasks [main] hands to the pool. *)
Definition batch_tasks (input_directory output_directory : string) (bit_8 : bool)
           (all_files : list string) : list (string * string * Z) :=
  make_tasks (fst (curate_names all_files input_directory output_directory bit_8))
             (snd (curate_names all_files input_directory output_directory bit_8)) 0.

(** The results of the workers on a list of tasks, each worker starting
    in the state the one before it left. *)
Inductive worked (E : environment) (len_inputs : Z) (bit_8 : bool)
  : list (string * string * Z) -> state E -> list bool -> state E -> Prop :=
| worked_none (st : state E) : worked E len_inputs bit_8 [] st [] st
| worked_task (in_file output_file : string) (index : Z)
              (rest : list (string * string * Z)) (st st1 st2 : state E)
              (r : bool) (rs : list bool) :
    process_file E len_inputs bit_8 in_file output_file index st = (r, st1) ->
    worked E len_inputs bit_8 rest st1 rs st2 ->
    worked E len_inputs bit_8 ((in_file, output_file, index) :: rest) st (r :: rs) st2.

(** The number of [True] results. *)
Definition succeeded (results : list bool) : Z :=
  Z.of_nat (List.count_occ Bool.bool_dec results true).

(** The entry [x] of the listing can be converted: its image opens, its
    name has a camera token and the writer accepts its output name,
    whatever the file system holds. *)
Definition convertible (E : environment) (input_directory output_directory : string)
           (bit_8 : bool) (x : string) : Prop :=
  forall w : world E,
    (exists dt image, image_open E (path_join input_directory x) w = Ok (dt, image)) /\
    (exists c, camera_of (path_join input_directory x) = Some c) /\
    (forall normalized,
        fst ((if bit_8 then image_save E else png_write E)
               (path_join output_directory (output_name bit_8 x)) normalized w)
        = Ok tt).

(** The image of the entry [x] does not open. *)
Definition unreadable (E : environment) (input_directory : string) (x : string) : Prop :=
  forall w : world E, exists e, image_open E (path_join input_directory x) w = Raise e.

(** ** Definitions for the proofs *)

(** Dropping the first [k] characters. *)
Fixpoint str_drop (k : nat) (s : string) : string :=
  match k, s with
  | O, _ => s
  | S _, EmptyString => EmptyString
  | S k', String _ s' => str_drop k' s'
  end.

(** [rne a b]: the integer nearest to [a / b], the even one at a tie. *)
Definition rne (a b : Z) : Z :=
  match 2 * (a mod b) ?= b with
  | Lt => a / b
  | Eq => if Z.even (a / b) then a / b else a / b + 1
  | Gt => a / b + 1
  end.

(** The record [mrs] is what a right shift leaves of the fraction
    [a / b]: its integer part, whether the rest reaches one half, and
    whether anything lies beyond these two. *)
Definition located (mrs : shr_record) (a b : Z) : Prop :=
  shr_m mrs = a / b /\
  shr_r mrs = (b <=? 2 * (a mod b)) /\
  shr_s mrs = negb ((a mod b =? 0) || (2 * (a mod b) =? b)).

(** A finite float of 53 significant bits from a rounded mantissa in
    [[2^52, 2^53]]: a mantissa of [2^53] moves to the next exponent. *)
Definition normal (sx : bool) (m e : Z) : spec_float :=
  if m =? 2 ^ 53 then S754_finite sx (Z.to_pos (2 ^ 52)) (e + 1)
  else S754_finite sx (Z.to_pos m) e.

Definition norm53 (m : Z) : Prop := 2 ^ 52 <= m < 2 ^ 53.

Definition nf (sx : bool) (m e : Z) : spec_float := S754_finite sx (Z.to_pos m) e.

(** Positive normal floats are ordered as their exponent and mantissa
    are; [rank] numbers them in that order. *)
Definition rank (x : spec_float) : Z :=
  match x with
  | S754_finite _ m e => e * 2 ^ 52 + Zpos m
  | _ => 0
  end.

Definition normalized (lo hi : Z) (x : spec_float) : Prop :=
  exists m e, x = nf false m e /\ norm53 m /\ lo <= e <= hi.

(** The integer part of a positive finite float. *)
Definition fl (m e : Z) : Z := if 0 <=? e then m * 2 ^ e else m / 2 ^ (- e).

(** ** A small world to run the script in *)

(** Five images and a text file; the image [d_P_16BIT.PNG] cannot be
    decoded, the others have two rows and come as [uint16] arrays. *)
Definition demo_listing : list string :=
  ["a_P_16BIT.PNG"; "b_C_16BIT.PNG"; "notes.txt"; "c_S_16BIT.PNG";
   "d_P_16BIT.PNG"; "e_P_16BIT.PNG"].

Definition demo_grid : ndarray := [[53500; 56500]; [55000; 50000]].

(** A platform whose conversion of NaN gives 0, a directory that always
    lists the same names, and a clock that stands still. *)
Definition demo : environment :=
  mkEnv unit unit
        (fun bits x => 0)
        (fun in_file w =>
           if String.eqb in_file "in/d_P_16BIT.PNG"
           then Raise (External "cannot identify image file")
           else Ok (u16, demo_grid))
        (fun output_file a w => (Ok tt, w))
        (fun output_file a w => (Ok tt, w))
        (fun dir w => Ok demo_listing)
        (fun w => tt)
        (fun index len_inputs now before =>
           (str_of_Z index ++ " of " ++ str_of_Z len_inputs)%string).

Definition demo_state : state demo := @mkState demo [] tt tt.

Definition demo_main (bit_8 : bool) (cpu_count : Z) : result unit * state demo :=
  main demo "in" "out" bit_8 cpu_count demo_state.

(** ** Words for further properties *)

(** [sep.join(l)]. *)
Fixpoint str_join (sep : ascii) (l : list string) : string :=
  match l with
  | [] => EmptyString
  | [x] => x
  | x :: rest => (x ++ String sep (str_join sep rest))%string
  end.

(** The character [c] does not occur in [s]. *)
Definition free_of (c : ascii) (s : string) : Prop :=
  forall d, In d (list_ascii_of_string s) -> d <> c.

(** How often [c] occurs in [s]. *)
Fixpoint count_char (c : ascii) (s : string) : nat :=
  match s with
  | EmptyString => O
  | String d s' => if Ascii.eqb d c then S (count_char c s') else count_char c s'
  end.

(** What can follow a position of a replaced string: the rest of an
    inserted [new], then a replaced string. *)
Definition replaced_tail (old new' r : string) (b : ascii) : Prop :=
  exists p t s, new' = (p ++ t)%string /\ r = (t ++ str_replace s old (String b new'))%string.

(** The file systems the batch can leave: those obtained from [w0] by
    calls of the writer of the chosen depth on names of [outputs]. *)
Inductive written (E : environment) (bit_8 : bool) (outputs : list string)
          (w0 : world E) : world E -> Prop :=
| written_nothing : written E bit_8 outputs w0 w0
| written_file (w : world E) (output_file : string) (normalized : ndarray) :
    written E bit_8 outputs w0 w ->
    In output_file outputs ->
    written E bit_8 outputs w0
            (snd ((if bit_8 then image_save E else png_write E)
                    output_file normalized w)).

(** A world that keeps the names handed to the writers, over a given
    directory listing; every image decodes to [demo_grid], as a [uint16]
    array. *)
Definition recorder (listing : list string) : environment :=
  mkEnv (list string) unit
        (fun bits x => 0)
        (fun in_file w => Ok (u16, demo_grid))
        (fun output_file a w => (Ok tt, w ++ [output_file]))
        (fun output_file a w => (Ok tt, w ++ [output_file]))
        (fun dir w => Ok listing)
        (fun w => tt)
        (fun index len_inputs now before =>
           (str_of_Z index ++ " of " ++ str_of_Z len_inputs)%string).

(** A world whose input directory cannot be listed. *)
Definition missing_directory : environment :=
  mkEnv unit unit
        (fun bits x => 0)
        (fun in_file w => Ok (u16, demo_grid))
        (fun output_file a w => (Ok tt, w))
        (fun output_file a w => (Ok tt, w))
        (fun dir w => Raise (External "No such file or directory"))
        (fun w => tt)
        (fun index len_inputs now before =>
           (str_of_Z index ++ " of " ++ str_of_Z len_inputs)%string).
(** ** Strings *)

Lemma prefix_app (a s : string) :
  prefix a s = true <-> exists post, s = (a ++ post)%string.
Proof.
  revert s; induction a as [|c a IH]; intros s; simpl.
  - split; [intros _; now exists s | intros _; now destruct s].
  - destruct s as [|d s]; simpl.
    + split; [discriminate | intros [post H]; discriminate].
    + destruct (ascii_dec c d) as [->|Hcd].
      * rewrite IH. split; intros [post H]; exists post; congruence.
      * split; [discriminate | intros [post H]; congruence].
Qed.

Lemma find_from_contains (sub s : string) (i : Z) :
  0 <= i -> (find_from sub s i <> -1 <-> contains sub s).
Proof.
  revert i; induction s as [|c s IH]; intros i Hi.
  - cbn [find_from]. destruct (prefix sub "") eqn:Hp.
    + split; [intros _ | lia].
      apply prefix_app in Hp. destruct Hp as [post Hp]. now exists "", post.
    + split; [congruence|].
      intros [pre [post H]]. destruct pre; simpl in H.
      * assert (prefix sub "" = true) by (apply prefix_app; now exists post).
        congruence.
      * discriminate.
  - cbn [find_from]. destruct (prefix sub (String c s)) eqn:Hp.
    + split; [intros _ | lia].
      apply prefix_app in Hp. destruct Hp as [post Hp]. now exists "", post.
    + rewrite (IH (i + 1)) by lia.
      split; intros [pre [post H]].
      * exists (String c pre), post. simpl. now rewrite H.
      * destruct pre as [|d pre]; simpl in H.
        -- assert (prefix sub (String c s) = true) by (apply prefix_app; now exists post).
           congruence.
        -- exists pre, post. congruence.
Qed.

Lemma str_find_contains (s sub : string) :
  negb (str_find s sub =? -1) = true <-> contains sub s.
Proof.
  unfold str_find. rewrite <- (find_from_contains sub s 0) by lia.
  rewrite negb_true_iff, Z.eqb_neq. reflexivity.
Qed.

Lemma replace_skip_drop (old new : string) (k : nat) (s : string) :
  replace_skip old new k s = replace_skip old new O (str_drop k s).
Proof.
  revert s; induction k as [|k IH]; intros s; [reflexivity|].
  destruct s as [|c s]; simpl; [reflexivity | apply IH].
Qed.

(** The three equations of [str.replace]. *)
Lemma str_replace_empty (old new : string) : str_replace "" old new = "".
Proof. reflexivity. Qed.

Lemma str_replace_hit (s old new : string) :
  old <> "" -> prefix old s = true ->
  str_replace s old new
  = (new ++ str_replace (str_drop (String.length old) s) old new)%string.
Proof.
  intros Hold Hp. unfold str_replace.
  destruct s as [|c s].
  - destruct old; [congruence | discriminate].
  - cbn [replace_skip]. rewrite Hp. rewrite replace_skip_drop.
    destruct old as [|d old]; [congruence | reflexivity].
Qed.

Lemma str_replace_miss (c : ascii) (s old new : string) :
  prefix old (String c s) = false ->
  str_replace (String c s) old new = String c (str_replace s old new).
Proof. intros Hp. unfold str_replace. cbn [replace_skip]. now rewrite Hp. Qed.

(** ** Rounding to nearest, ties to even *)

Lemma rne_between (a b : Z) : a / b <= rne a b <= a / b + 1.
Proof.
  unfold rne. destruct (2 * (a mod b) ?= b); [destruct (Z.even (a / b))| |]; lia.
Qed.

Lemma rne_exact (k b : Z) : 0 < b -> rne (k * b) b = k.
Proof.
  intros Hb. unfold rne. rewrite Z.mod_mul, Z.div_mul by lia.
  destruct (Z.compare_spec (2 * 0) b); try reflexivity; lia.
Qed.

Lemma rne_mono (a a' b : Z) : 0 < b -> a <= a' -> rne a b <= rne a' b.
Proof.
  intros Hb Ha.
  pose proof (Z.div_le_mono a a' b Hb Ha) as Hq.
  pose proof (rne_between a b) as H1. pose proof (rne_between a' b) as H2.
  destruct (Z.eq_dec (a / b) (a' / b)) as [Heq|Hne]; [|lia].
  assert (Hr : a mod b <= a' mod b).
  { pose proof (Z.div_mod a b ltac:(lia)). pose proof (Z.div_mod a' b ltac:(lia)).
    rewrite <- Heq in *. nia. }
  unfold rne. rewrite <- Heq.
  destruct (Z.compare_spec (2 * (a mod b)) b);
    destruct (Z.compare_spec (2 * (a' mod b)) b);
    destruct (Z.even (a / b)); lia.
Qed.

Lemma rne_scale (c a b : Z) : 0 < c -> 0 < b -> rne (c * a) (c * b) = rne a b.
Proof.
  intros Hc Hb. unfold rne.
  rewrite Z.mul_mod_distr_l, Z.div_mul_cancel_l by lia.
  destruct (Z.compare_spec (2 * (c * (a mod b))) (c * b));
    destruct (Z.compare_spec (2 * (a mod b)) b); try reflexivity; nia.
Qed.

Lemma rne_ge (lo a b : Z) : 0 < b -> lo * b <= a -> lo <= rne a b.
Proof.
  intros Hb H. pose proof (rne_between a b).
  assert (lo <= a / b) by (apply Z.div_le_lower_bound; lia). lia.
Qed.

Lemma rne_le (hi a b : Z) : 0 < b -> a <= hi * b -> rne a b <= hi.
Proof.
  intros Hb H.
  rewrite <- (rne_exact hi b Hb). now apply rne_mono.
Qed.

(** ** Binary digits *)

Lemma digits2_pos_bounds (p : positive) :
  2 ^ (Zpos (digits2_pos p) - 1) <= Zpos p < 2 ^ Zpos (digits2_pos p).
Proof.
  induction p as [p IH|p IH|]; cbn [digits2_pos].
  - rewrite Pos2Z.inj_succ, (Pos2Z.inj_xI p).
    replace (Z.succ (Zpos (digits2_pos p)) - 1) with (Z.succ (Zpos (digits2_pos p) - 1)) by lia.
    rewrite !Z.pow_succ_r by lia. lia.
  - rewrite Pos2Z.inj_succ, (Pos2Z.inj_xO p).
    replace (Z.succ (Zpos (digits2_pos p)) - 1) with (Z.succ (Zpos (digits2_pos p) - 1)) by lia.
    rewrite !Z.pow_succ_r by lia. lia.
  - cbn. lia.
Qed.

Lemma Zdigits2_unique (z k : Z) :
  0 < k -> 2 ^ (k - 1) <= z < 2 ^ k -> Zdigits2 z = k.
Proof.
  intros Hk [Hlo Hhi].
  assert (0 < z) by (pose proof (Z.pow_pos_nonneg 2 (k - 1)); lia).
  destruct z as [|p|p]; try lia. cbn [Zdigits2].
  pose proof (digits2_pos_bounds p) as [Hl Hh].
  set (d := Zpos (digits2_pos p)) in *.
  destruct (Z.lt_trichotomy d k) as [Hlt|[Heq|Hgt]]; [|exact Heq|].
  - assert (2 ^ d <= 2 ^ (k - 1)) by (apply Z.pow_le_mono_r; lia). lia.
  - assert (2 ^ k <= 2 ^ (d - 1)) by (apply Z.pow_le_mono_r; lia). lia.
Qed.

(** ** Right shifts keep track of the discarded part *)

Lemma located_round (mrs : shr_record) (a b : Z) :
  0 < b -> located mrs a b ->
  round_nearest_even (shr_m mrs) (loc_of_shr_record mrs) = rne a b.
Proof.
  intros Hb [Hm [Hr Hs]]. destruct mrs as [m r s].
  cbn [shr_m shr_r shr_s] in *. subst m.
  pose proof (Z.mod_pos_bound a b Hb) as Hmod.
  unfold rne.
  destruct r, s; cbn [round_nearest_even loc_of_shr_record];
    symmetry in Hr, Hs;
    rewrite ?negb_true_iff, ?negb_false_iff, ?orb_true_iff, ?orb_false_iff,
      ?Z.leb_le, ?Z.leb_gt, ?Z.eqb_eq, ?Z.eqb_neq in Hr, Hs;
    destruct (Z.compare_spec (2 * (a mod b)) b); try reflexivity; lia.
Qed.

Lemma div_mod_double (a b q t : Z) :
  0 < b -> a / b = 2 * q + t -> 0 <= t < 2 ->
  a / (2 * b) = q /\ a mod (2 * b) = b * t + a mod b.
Proof.
  intros Hb Hq Ht.
  pose proof (Z.div_mod a b ltac:(lia)) as Ha.
  pose proof (Z.mod_pos_bound a b Hb) as Hr.
  rewrite Hq in Ha.
  assert (H : a = 2 * b * q + (b * t + a mod b)) by lia.
  split.
  - symmetry. apply (Z.div_unique_pos a (2 * b) q (b * t + a mod b)); [nia | exact H].
  - symmetry. apply (Z.mod_unique_pos a (2 * b) q (b * t + a mod b)); [nia | exact H].
Qed.

Ltac bool_arith :=
  repeat match goal with
         | |- context [Z.leb ?x ?y] => destruct (Z.leb_spec x y)
         | |- context [Z.eqb ?x ?y] => destruct (Z.eqb_spec x y)
         | H : context [Z.leb ?x ?y] |- _ => destruct (Z.leb_spec x y)
         | H : context [Z.eqb ?x ?y] |- _ => destruct (Z.eqb_spec x y)
         end;
  cbn [orb andb negb] in *; try reflexivity; try discriminate; try lia; try nia.

Lemma located_shr_1 (mrs : shr_record) (a b : Z) :
  0 <= a -> 0 < b -> located mrs a b -> located (shr_1 mrs) a (2 * b).
Proof.
  intros Ha Hb [Hm [Hr Hs]]. destruct mrs as [m r s].
  cbn [shr_m shr_r shr_s] in *.
  pose proof (Z.mod_pos_bound a b Hb) as Hmod.
  pose proof (Z.div_pos a b Ha Hb) as Hq.
  assert (Hrs : orb r s = negb (a mod b =? 0)).
  { subst r s. bool_arith. }
  unfold located, shr_1. rewrite Hrs.
  destruct m as [|[p|p|]|p]; cbn [shr_m shr_r shr_s]; try lia.
  - destruct (div_mod_double a b 0 0 Hb) as [-> ->]; [lia | lia |].
    repeat split; bool_arith.
  - destruct (div_mod_double a b (Zpos p) 1 Hb) as [-> ->]; [lia | lia |].
    repeat split; bool_arith.
  - destruct (div_mod_double a b (Zpos p) 0 Hb) as [-> ->]; [lia | lia |].
    repeat split; bool_arith.
  - destruct (div_mod_double a b 0 1 Hb) as [-> ->]; [lia | lia |].
    repeat split; bool_arith.
Qed.

Lemma located_iter (p : positive) (mrs : shr_record) (a b : Z) :
  0 <= a -> 0 < b -> located mrs a b ->
  located (iter_pos shr_1 p mrs) a (2 ^ Zpos p * b).
Proof.
  intros Ha. revert mrs b.
  induction p as [p IH|p IH|]; intros mrs b Hb H; cbn [iter_pos].
  - assert (Hp : 0 < 2 ^ Zpos p) by (apply Z.pow_pos_nonneg; lia).
    replace (2 ^ Zpos p~1 * b) with (2 ^ Zpos p * (2 ^ Zpos p * (2 * b))).
    + apply IH; [nia|]. apply IH; [lia|]. now apply located_shr_1.
    + rewrite (Pos2Z.inj_xI p).
      replace (2 * Zpos p + 1) with (Zpos p + Zpos p + 1) by lia.
      rewrite !Z.pow_add_r by lia. ring.
  - assert (Hp : 0 < 2 ^ Zpos p) by (apply Z.pow_pos_nonneg; lia).
    replace (2 ^ Zpos p~0 * b) with (2 ^ Zpos p * (2 ^ Zpos p * b)).
    + apply IH; [nia|]. now apply IH.
    + rewrite (Pos2Z.inj_xO p).
      replace (2 * Zpos p) with (Zpos p + Zpos p) by lia.
      rewrite !Z.pow_add_r by lia. ring.
  - change (2 ^ 1) with 2. now apply located_shr_1.
Qed.

Lemma located_shr (mrs : shr_record) (a b e sh : Z) :
  0 <= a -> 0 < b -> 0 <= sh -> located mrs a b ->
  exists mrs', shr mrs e sh = (mrs', e + sh) /\ located mrs' a (2 ^ sh * b).
Proof.
  intros Ha Hb Hsh H. destruct sh as [|p|p]; try lia.
  - exists mrs. split; [cbn [shr]; f_equal; lia|].
    rewrite Z.pow_0_r, Z.mul_1_l. exact H.
  - exists (iter_pos shr_1 p mrs). split; [reflexivity|]. now apply located_iter.
Qed.

Lemma shr_m_of_loc (m : Z) (l : location) : shr_m (shr_record_of_loc m l) = m.
Proof. destruct l as [|[]]; reflexivity. Qed.

Lemma located_exact (m : Z) : located (shr_record_of_loc m loc_Exact) m 1.
Proof.
  unfold located. cbn [shr_record_of_loc shr_m shr_r shr_s].
  rewrite Z.div_1_r, Z.mod_1_r. repeat split.
Qed.

Lemma located_new_location (a b : Z) :
  0 < b -> located (shr_record_of_loc (a / b) (new_location b (a mod b))) a b.
Proof.
  intros Hb. pose proof (Z.mod_pos_bound a b Hb) as Hmod.
  unfold located. rewrite shr_m_of_loc. split; [reflexivity|].
  unfold new_location, new_location_even, new_location_odd.
  destruct (Z.even b) eqn:Hev.
  - destruct (Z.eqb_spec (a mod b) 0) as [H0|H0].
    + cbn [shr_record_of_loc shr_r shr_s]. split; bool_arith.
    + destruct (Z.compare_spec (2 * (a mod b)) b);
        cbn [shr_record_of_loc shr_r shr_s]; split; bool_arith.
  - assert (Hodd : exists c, b = 2 * c + 1).
    { apply Z.odd_spec. now rewrite <- Z.negb_even, Hev. }
    destruct Hodd as [c Hc].
    destruct (Z.eqb_spec (a mod b) 0) as [H0|H0].
    + cbn [shr_record_of_loc shr_r shr_s]. split; bool_arith.
    + destruct (Z.compare_spec (2 * (a mod b) + 1) b);
        cbn [shr_record_of_loc shr_r shr_s]; split; bool_arith.
Qed.

(** ** Rounding a located value to binary64 *)

Lemma fexp_normal (k : Z) : -1021 <= k -> fexp F64.prec F64.emax k = k - 53.
Proof. intros Hk. unfold fexp, emin, F64.prec, F64.emax. lia. Qed.

Lemma Zdigits2_bounds (z k : Z) :
  0 <= z -> 0 < k -> Zdigits2 z = k -> 2 ^ (k - 1) <= z < 2 ^ k.
Proof.
  intros Hz Hk Hd. destruct z as [|p|p]; cbn [Zdigits2] in Hd; try lia.
  subst k. apply digits2_pos_bounds.
Qed.

Lemma binary_round_aux_normal (sx : bool) (mx ex : Z) (lx : location)
      (a b sh : Z) :
  0 <= a -> 0 < b -> located (shr_record_of_loc mx lx) a b ->
  0 <= sh -> Zdigits2 mx = 53 + sh ->
  -1074 <= ex + sh < 971 ->
  binary_round_aux F64.prec F64.emax sx mx ex lx
  = normal sx (rne a (2 ^ sh * b)) (ex + sh)
  /\ 2 ^ 52 <= rne a (2 ^ sh * b) <= 2 ^ 53.
Proof.
  intros Ha Hb Hloc Hsh Hdig He.
  assert (Hmx : mx = a / b) by (destruct Hloc as [H _]; now rewrite shr_m_of_loc in H).
  assert (Hpow : 0 < 2 ^ sh) by (apply Z.pow_pos_nonneg; lia).
  assert (Hbounds : 2 ^ 52 <= rne a (2 ^ sh * b) <= 2 ^ 53).
  { pose proof (Z.div_pos a b Ha Hb) as Hq.
    destruct (Zdigits2_bounds mx (53 + sh) ltac:(lia) ltac:(lia) Hdig) as [Hlo Hhi].
    replace (53 + sh - 1) with (52 + sh) in Hlo by lia.
    rewrite Z.pow_add_r in Hlo, Hhi by lia.
    pose proof (Z.div_mod a b ltac:(lia)) as Hdm.
    pose proof (Z.mod_pos_bound a b Hb) as Hmod.
    rewrite <- Hmx in Hdm.
    split; [apply rne_ge | apply rne_le]; nia. }
  split; [|exact Hbounds].
  unfold binary_round_aux, shr_fexp.
  rewrite Hdig, fexp_normal by lia.
  replace (53 + sh + ex - 53 - ex) with sh by lia.
  destruct (located_shr (shr_record_of_loc mx lx) a b ex sh Ha Hb Hsh Hloc)
    as [mrs' [-> Hloc']].
  rewrite (located_round mrs' a (2 ^ sh * b)) by (assumption || nia).
  set (m1 := rne a (2 ^ sh * b)) in *.
  unfold normal. destruct (Z.eqb_spec m1 (2 ^ 53)) as [Heq|Hne].
  - rewrite Heq.
    replace (Zdigits2 (2 ^ 53)) with 54 by reflexivity.
    rewrite fexp_normal by lia.
    replace (54 + (ex + sh) - 53 - (ex + sh)) with 1 by lia.
    cbn [shr_record_of_loc shr iter_pos].
    change (shr_m (shr_1 {| shr_m := 2 ^ 53; shr_r := false; shr_s := false |}))
      with (Zpos (Z.to_pos (2 ^ 52))).
    cbv iota beta.
    replace (ex + sh + 1 <=? F64.emax - F64.prec) with true
      by (symmetry; apply Z.leb_le; unfold F64.emax, F64.prec; lia).
    reflexivity.
  - rewrite (Zdigits2_unique m1 53) by lia.
    rewrite fexp_normal by lia.
    replace (53 + (ex + sh) - 53 - (ex + sh)) with 0 by lia.
    cbn [shr_record_of_loc shr shr_m].
    destruct m1 as [|p|p]; try lia.
    replace (ex + sh <=? F64.emax - F64.prec) with true
      by (symmetry; apply Z.leb_le; unfold F64.emax, F64.prec; lia).
    reflexivity.
Qed.

(** ** Conversion, division and product of normal floats *)

Lemma normal_below (sx : bool) (m e : Z) : m < 2 ^ 53 -> normal sx m e = nf sx m e.
Proof.
  intros H. unfold normal, nf. destruct (Z.eqb_spec m (2 ^ 53)); [lia | reflexivity].
Qed.

Lemma iter_xO (p q : positive) : Zpos (Pos.iter xO p q) = Zpos p * 2 ^ Zpos q.
Proof.
  change (Pos.iter xO p q) with (shift_pos q p).
  rewrite shift_pos_correct. change (Z.pow_pos 2 q) with (2 ^ Zpos q). ring.
Qed.

(** An integer below [2^53] converts without rounding. *)
Lemma of_Z_exact (n : Z) :
  0 < n < 2 ^ 53 ->
  exists j, 0 <= j <= 52 /\ norm53 (n * 2 ^ j) /\
            F64.of_Z n = nf false (n * 2 ^ j) (- j) /\
            F64.of_Z (- n) = nf true (n * 2 ^ j) (- j).
Proof.
  intros [Hlo Hhi]. destruct n as [|p|p]; try lia.
  pose proof (digits2_pos_bounds p) as [Hdl Hdh].
  set (d := Zpos (digits2_pos p)) in *.
  assert (Hd : 1 <= d <= 53).
  { split; [unfold d; lia|].
    destruct (Z_le_gt_dec d 53) as [H|H]; [exact H|].
    assert (2 ^ 53 <= 2 ^ (d - 1)) by (apply Z.pow_le_mono_r; lia). lia. }
  exists (53 - d).
  assert (Hpow : 0 < 2 ^ (53 - d)) by (apply Z.pow_pos_nonneg; lia).
  assert (Hn : norm53 (Zpos p * 2 ^ (53 - d))).
  { unfold norm53.
    replace (2 ^ 53) with (2 ^ d * 2 ^ (53 - d))
      by (rewrite <- Z.pow_add_r by lia; f_equal; lia).
    replace (2 ^ 52) with (2 ^ (d - 1) * 2 ^ (53 - d))
      by (rewrite <- Z.pow_add_r by lia; f_equal; lia).
    nia. }
  split; [lia|]. split; [exact Hn|].
  assert (Haux : forall sx, binary_round F64.prec F64.emax sx p 0
                            = nf sx (Zpos p * 2 ^ (53 - d)) (- (53 - d))).
  { intros sx. unfold binary_round.
    replace (Zpos (digits2_pos p) + 0) with d by (unfold d; lia).
    rewrite fexp_normal by lia.
    unfold shl_align.
    destruct (d - 53 - 0) as [|q|q] eqn:Hq; try lia.
    - assert (Hd53 : d = 53) by lia.
      replace (53 - d) with 0 in * by lia.
      rewrite Z.pow_0_r, Z.mul_1_r in *.
      destruct (binary_round_aux_normal sx (Zpos p) 0 loc_Exact (Zpos p) 1 0)
        as [-> _]; try lia.
      + apply located_exact.
      + apply Zdigits2_unique; unfold norm53 in Hn; lia.
      + rewrite Z.pow_0_r. change (1 * 1) with 1.
        replace (Zpos p) with (Zpos p * 1) at 1 by lia.
        rewrite rne_exact by lia. unfold norm53 in Hn.
        now rewrite normal_below by lia.
    - assert (Hq' : Zpos q = 53 - d) by lia.
      destruct (binary_round_aux_normal sx (Zpos (Pos.iter xO p q)) (d - 53)
                  loc_Exact (Zpos (Pos.iter xO p q)) 1 0) as [-> _]; try lia.
      + apply located_exact.
      + apply Zdigits2_unique; [lia|]. rewrite iter_xO, Hq'. exact Hn.
      + rewrite Z.pow_0_r. change (1 * 1) with 1.
        replace (Zpos (Pos.iter xO p q)) with (Zpos (Pos.iter xO p q) * 1) at 1 by lia.
        rewrite rne_exact by lia. rewrite iter_xO, Hq'. unfold norm53 in Hn.
        rewrite normal_below by lia. f_equal. lia. }
  split; [apply (Haux false) | apply (Haux true)].
Qed.

Lemma div_normal (sx : bool) (m1 e1 m2 e2 : Z) :
  norm53 m1 -> norm53 m2 -> -400 <= e1 <= 400 -> -400 <= e2 <= 400 ->
  let c := if m2 <=? m1 then 1 else 0 in
  F64.div (nf sx m1 e1) (nf false m2 e2)
  = normal sx (rne (m1 * 2 ^ 53) (2 ^ c * m2)) (e1 - e2 - 53 + c)
  /\ 2 ^ 52 <= rne (m1 * 2 ^ 53) (2 ^ c * m2) <= 2 ^ 53.
Proof.
  intros H1 H2 He1 He2 c. unfold norm53 in *.
  destruct m1 as [|p1|p1]; try lia. destruct m2 as [|p2|p2]; try lia.
  unfold F64.div, nf, SFdiv, SFdiv_core_binary. cbn [Z.to_pos].
  rewrite xorb_false_r.
  rewrite !(Zdigits2_unique _ 53) by lia.
  replace (53 + e1 - (53 + e2)) with (e1 - e2) by lia.
  rewrite fexp_normal by lia.
  replace (Z.min (e1 - e2 - 53) (e1 - e2)) with (e1 - e2 - 53) by lia.
  replace (e1 - e2 - (e1 - e2 - 53)) with 53 by lia.
  cbv iota beta. rewrite Z.shiftl_mul_pow2 by lia.
  set (a := Zpos p1 * 2 ^ 53).
  assert (Hq : fst (Z.div_eucl a (Zpos p2)) = a / Zpos p2) by reflexivity.
  assert (Hr : snd (Z.div_eucl a (Zpos p2)) = a mod Zpos p2) by reflexivity.
  destruct (Z.div_eucl a (Zpos p2)) as [q r]. cbn [fst snd] in Hq, Hr. subst q r.
  assert (Hc : 0 <= c <= 1) by (unfold c; destruct (Zpos p2 <=? Zpos p1); lia).
  assert (Hdig : Zdigits2 (a / Zpos p2) = 53 + c).
  { apply Zdigits2_unique; [lia|].
    unfold c. destruct (Z.leb_spec (Zpos p2) (Zpos p1)) as [Hle|Hlt].
    - replace (53 + 1 - 1) with 53 by lia.
      split; [apply Z.div_le_lower_bound | apply Z.div_lt_upper_bound]; unfold a; lia.
    - replace (53 + 0 - 1) with 52 by lia.
      split; [apply Z.div_le_lower_bound | apply Z.div_lt_upper_bound]; unfold a; lia. }
  apply binary_round_aux_normal; try lia.
  apply located_new_location; lia.
Qed.

Lemma mul_normal (sx : bool) (m1 e1 m2 e2 : Z) :
  norm53 m1 -> norm53 m2 -> -400 <= e1 <= 400 -> -400 <= e2 <= 400 ->
  let c := if 2 ^ 105 <=? m1 * m2 then 1 else 0 in
  F64.mul (nf sx m1 e1) (nf false m2 e2)
  = normal sx (rne (m1 * m2) (2 ^ (52 + c))) (e1 + e2 + 52 + c)
  /\ 2 ^ 52 <= rne (m1 * m2) (2 ^ (52 + c)) <= 2 ^ 53.
Proof.
  intros H1 H2 He1 He2 c. unfold norm53 in *.
  destruct m1 as [|p1|p1]; try lia. destruct m2 as [|p2|p2]; try lia.
  unfold F64.mul, nf, SFmul. cbn [Z.to_pos].
  rewrite xorb_false_r, Pos2Z.inj_mul.
  assert (Hc : 0 <= c <= 1) by (unfold c; destruct (2 ^ 105 <=? Zpos p1 * Zpos p2); lia).
  assert (Hdig : Zdigits2 (Zpos p1 * Zpos p2) = 53 + (52 + c)).
  { apply Zdigits2_unique; [lia|].
    unfold c. destruct (Z.leb_spec (2 ^ 105) (Zpos p1 * Zpos p2)) as [Hle|Hlt].
    - replace (53 + (52 + 1) - 1) with 105 by lia.
      replace (53 + (52 + 1)) with 106 by lia. nia.
    - replace (53 + (52 + 0) - 1) with 104 by lia.
      replace (53 + (52 + 0)) with 105 by lia. nia. }
  replace (e1 + e2 + 52 + c) with (e1 + e2 + (52 + c)) by lia.
  replace (2 ^ (52 + c)) with (2 ^ (52 + c) * 1) by lia.
  apply binary_round_aux_normal; try lia.
  apply located_exact.
Qed.

(** ** Order of normal floats *)

Lemma rank_nf (sx : bool) (m e : Z) : 0 < m -> rank (nf sx m e) = e * 2 ^ 52 + m.
Proof. intros H. unfold rank, nf. now rewrite Z2Pos.id. Qed.

Lemma normal_nf (sx : bool) (m e : Z) :
  2 ^ 52 <= m <= 2 ^ 53 ->
  exists m' e', normal sx m e = nf sx m' e' /\ norm53 m' /\ e <= e' <= e + 1 /\
                e' * 2 ^ 52 + m' = e * 2 ^ 52 + m.
Proof.
  intros H. unfold normal, norm53. destruct (Z.eqb_spec m (2 ^ 53)) as [->|Hne].
  - exists (2 ^ 52), (e + 1). repeat split; lia.
  - exists m, e. repeat split; lia.
Qed.

Lemma rank_normal (sx : bool) (m e : Z) :
  2 ^ 52 <= m <= 2 ^ 53 -> rank (normal sx m e) = e * 2 ^ 52 + m.
Proof.
  intros H. destruct (normal_nf sx m e H) as [m' [e' [-> [Hn [_ <-]]]]].
  apply rank_nf. unfold norm53 in Hn. lia.
Qed.

Lemma div_rank_mono (m1 e1 m1' e1' m2 e2 : Z) :
  norm53 m1 -> norm53 m1' -> norm53 m2 ->
  -400 <= e1 <= 400 -> -400 <= e1' <= 400 -> -400 <= e2 <= 400 ->
  e1 * 2 ^ 52 + m1 <= e1' * 2 ^ 52 + m1' ->
  rank (F64.div (nf false m1 e1) (nf false m2 e2))
  <= rank (F64.div (nf false m1' e1') (nf false m2 e2)).
Proof.
  intros H1 H1' H2 He1 He1' He2 Hle.
  destruct (div_normal false m1 e1 m2 e2 H1 H2 He1 He2) as [-> Hb].
  destruct (div_normal false m1' e1' m2 e2 H1' H2 He1' He2) as [-> Hb'].
  rewrite !rank_normal by assumption.
  unfold norm53 in *.
  assert (Hp53 : 0 < 2 ^ 53) by lia.
  assert (F1 : forall c, 0 <= c -> m1 <= m1' ->
                         rne (m1 * 2 ^ 53) (2 ^ c * m2) <= rne (m1' * 2 ^ 53) (2 ^ c * m2)).
  { intros c Hc Hm. apply rne_mono; [|nia].
    assert (0 < 2 ^ c) by (apply Z.pow_pos_nonneg; lia). nia. }
  assert (F2 : rne (m1 * 2 ^ 53) (2 ^ 1 * m2) <= rne (m1' * 2 ^ 53) (2 ^ 0 * m2)).
  { change (2 ^ 1) with 2. change (2 ^ 0) with 1.
    rewrite <- (rne_scale 2 (m1' * 2 ^ 53) (1 * m2)) by lia.
    replace (2 * (1 * m2)) with (2 * m2) by lia.
    apply rne_mono; lia. }
  pose proof (F1 0 ltac:(lia)) as F10. pose proof (F1 1 ltac:(lia)) as F11.
  destruct (Z.leb_spec m2 m1); destruct (Z.leb_spec m2 m1'); lia.
Qed.

Lemma mul_rank_mono (m1 e1 m1' e1' m2 e2 : Z) :
  norm53 m1 -> norm53 m1' -> norm53 m2 ->
  -400 <= e1 <= 400 -> -400 <= e1' <= 400 -> -400 <= e2 <= 400 ->
  e1 * 2 ^ 52 + m1 <= e1' * 2 ^ 52 + m1' ->
  rank (F64.mul (nf false m1 e1) (nf false m2 e2))
  <= rank (F64.mul (nf false m1' e1') (nf false m2 e2)).
Proof.
  intros H1 H1' H2 He1 He1' He2 Hle.
  destruct (mul_normal false m1 e1 m2 e2 H1 H2 He1 He2) as [-> Hb].
  destruct (mul_normal false m1' e1' m2 e2 H1' H2 He1' He2) as [-> Hb'].
  rewrite !rank_normal by assumption.
  unfold norm53 in *.
  assert (F1 : forall c, 0 <= c -> m1 <= m1' ->
                         rne (m1 * m2) (2 ^ (52 + c)) <= rne (m1' * m2) (2 ^ (52 + c))).
  { intros c Hc Hm. apply rne_mono; [|nia]. apply Z.pow_pos_nonneg; lia. }
  assert (F2 : rne (m1 * m2) (2 ^ (52 + 1)) <= rne (m1' * m2) (2 ^ (52 + 0))).
  { change (2 ^ (52 + 1)) with (2 * 2 ^ 52). change (2 ^ (52 + 0)) with (2 ^ 52).
    rewrite <- (rne_scale 2 (m1' * m2) (2 ^ 52)) by lia.
    apply rne_mono; [lia | nia]. }
  pose proof (F1 0 ltac:(lia)) as F10. pose proof (F1 1 ltac:(lia)) as F11.
  destruct (Z.leb_spec (2 ^ 105) (m1 * m2)); destruct (Z.leb_spec (2 ^ 105) (m1' * m2));
    try lia.
  assert (m1' < m1) by nia. lia.
Qed.

Lemma of_Z_normalized (n : Z) :
  0 < n < 2 ^ 53 -> normalized (-52) 0 (F64.of_Z n).
Proof.
  intros Hn. destruct (of_Z_exact n Hn) as [j [Hj [Hnorm [Heq _]]]].
  exists (n * 2 ^ j), (- j). repeat split; try assumption; try apply Hnorm; lia.
Qed.

Lemma of_Z_rank_mono (n n' : Z) :
  0 < n -> n <= n' -> n' < 2 ^ 53 -> rank (F64.of_Z n) <= rank (F64.of_Z n').
Proof.
  intros Hn Hle Hn'.
  destruct (of_Z_exact n ltac:(lia)) as [j [Hj [Hnorm [-> _]]]].
  destruct (of_Z_exact n' ltac:(lia)) as [j' [Hj' [Hnorm' [-> _]]]].
  unfold norm53 in *. rewrite !rank_nf by lia.
  assert (Hp : 0 < 2 ^ j) by (apply Z.pow_pos_nonneg; lia).
  assert (Hp' : 0 < 2 ^ j') by (apply Z.pow_pos_nonneg; lia).
  destruct (Z.lt_trichotomy j j') as [Hlt|[Heq|Hgt]].
  - assert (2 * 2 ^ j <= 2 ^ j').
    { replace (2 * 2 ^ j) with (2 ^ (j + 1)) by (rewrite Z.pow_add_r by lia; lia).
      apply Z.pow_le_mono_r; lia. }
    nia.
  - subst j'. nia.
  - lia.
Qed.

Lemma ltb_rank (lo hi lo' hi' : Z) (x y : spec_float) :
  normalized lo hi x -> normalized lo' hi' y ->
  F64.ltb x y = true <-> rank x < rank y.
Proof.
  intros [m [e [-> [Hm _]]]] [m' [e' [-> [Hm' _]]]]. unfold norm53 in *.
  rewrite !rank_nf by lia.
  destruct m as [|p|p]; try lia. destruct m' as [|p'|p']; try lia.
  unfold F64.ltb, SFltb, SFcompare, nf. cbn [Z.to_pos].
  change (Pos.compare_cont Eq p p') with (Zpos p ?= Zpos p').
  destruct (Z.compare_spec e e'); destruct (Z.compare_spec (Zpos p) (Zpos p'));
    split; intros; try discriminate; try reflexivity; lia.
Qed.

Lemma floorZ_nf (m e : Z) : 0 < m -> F64.floorZ (nf false m e) = Some (fl m e).
Proof. intros H. unfold F64.floorZ, nf, fl, F64.signed. now rewrite Z2Pos.id. Qed.

Lemma fl_scaled (m e L : Z) :
  0 <= L -> 0 <= e + L -> fl m e = (m * 2 ^ (e + L)) / 2 ^ L.
Proof.
  intros HL HeL. unfold fl.
  assert (HpL : 0 < 2 ^ L) by (apply Z.pow_pos_nonneg; lia).
  destruct (Z.leb_spec 0 e) as [He|He].
  - rewrite Z.pow_add_r by lia. rewrite Z.mul_assoc, Z.div_mul by lia. reflexivity.
  - replace (2 ^ L) with (2 ^ (e + L) * 2 ^ (- e))
      by (rewrite <- Z.pow_add_r by lia; f_equal; lia).
    rewrite (Z.mul_comm m).
    assert (0 < 2 ^ (- e)) by (apply Z.pow_pos_nonneg; lia).
    assert (0 < 2 ^ (e + L)) by (apply Z.pow_pos_nonneg; lia).
    rewrite Z.div_mul_cancel_l by lia. reflexivity.
Qed.

Lemma fl_mono (m e m' e' : Z) :
  norm53 m -> norm53 m' ->
  e * 2 ^ 52 + m <= e' * 2 ^ 52 + m' -> fl m e <= fl m' e'.
Proof.
  intros Hm Hm' Hle. unfold norm53 in *.
  set (L := Z.max 0 (Z.max (- e) (- e'))).
  rewrite (fl_scaled m e L), (fl_scaled m' e' L) by (unfold L; lia).
  assert (HpL : 0 < 2 ^ L) by (apply Z.pow_pos_nonneg; unfold L; lia).
  apply Z.div_le_mono; [lia|].
  assert (Hp : 0 < 2 ^ (e + L)) by (apply Z.pow_pos_nonneg; unfold L; lia).
  destruct (Z.eq_dec e e') as [<-|Hne]; [nia|].
  assert (He : e + 1 <= e') by lia.
  assert (2 * 2 ^ (e + L) <= 2 ^ (e' + L)).
  { replace (2 * 2 ^ (e + L)) with (2 ^ (e + L + 1))
      by (rewrite Z.pow_add_r by (unfold L; lia); lia).
    apply Z.pow_le_mono_r; unfold L; lia. }
  nia.
Qed.

(** ** The normalisation of one sample *)

Lemma normalized_weaken (lo hi lo' hi' : Z) (x : spec_float) :
  normalized lo hi x -> lo' <= lo -> hi <= hi' -> normalized lo' hi' x.
Proof.
  intros [m [e [Hx [Hm He]]]] Hlo Hhi. exists m, e.
  split; [exact Hx | split; [exact Hm | lia]].
Qed.

Lemma normalized_rank (lo hi : Z) (x : spec_float) :
  normalized lo hi x ->
  exists m e, x = nf false m e /\ norm53 m /\ lo <= e <= hi /\ rank x = e * 2 ^ 52 + m.
Proof.
  intros [m [e [-> [Hm He]]]]. exists m, e.
  split; [reflexivity | split; [exact Hm | split; [exact He|]]].
  apply rank_nf. unfold norm53 in Hm. lia.
Qed.

Lemma ratio_normalized (n d : Z) :
  0 < n < 2 ^ 53 -> 0 < d < 2 ^ 53 ->
  normalized (-105) 1 (F64.div (F64.of_Z n) (F64.of_Z d)).
Proof.
  intros Hn Hd.
  destruct (of_Z_exact n Hn) as [j [Hj [Hnorm [-> _]]]].
  destruct (of_Z_exact d Hd) as [k [Hk [Hnormd [-> _]]]].
  destruct (div_normal false (n * 2 ^ j) (- j) (d * 2 ^ k) (- k)) as [-> Hb];
    try assumption; try lia.
  destruct (normal_nf false _ (- j - - k - 53 + (if d * 2 ^ k <=? n * 2 ^ j then 1 else 0)) Hb)
    as [m' [e' [-> [Hm' [He' _]]]]].
  exists m', e'. split; [reflexivity | split; [exact Hm'|]].
  destruct (d * 2 ^ k <=? n * 2 ^ j); lia.
Qed.

Lemma ratio_rank_mono (n n' d : Z) :
  0 < n -> n <= n' -> n' < 2 ^ 53 -> 0 < d < 2 ^ 53 ->
  rank (F64.div (F64.of_Z n) (F64.of_Z d))
  <= rank (F64.div (F64.of_Z n') (F64.of_Z d)).
Proof.
  intros Hn Hle Hn' Hd.
  pose proof (of_Z_rank_mono n n' Hn Hle Hn') as Hr.
  destruct (normalized_rank _ _ _ (of_Z_normalized n ltac:(lia)))
    as [m [e [E1 [Hm [He R1]]]]].
  destruct (normalized_rank _ _ _ (of_Z_normalized n' ltac:(lia)))
    as [m' [e' [E1' [Hm' [He' R1']]]]].
  destruct (normalized_rank _ _ _ (of_Z_normalized d Hd))
    as [m2 [e2 [E2 [Hm2 [He2 _]]]]].
  rewrite R1, R1' in Hr. rewrite E1, E1', E2.
  apply div_rank_mono; try assumption; lia.
Qed.

Lemma ratio_one (d : Z) :
  0 < d < 2 ^ 53 -> F64.div (F64.of_Z d) (F64.of_Z d) = F64.of_Z 1.
Proof.
  intros Hd. destruct (of_Z_exact d Hd) as [k [Hk [Hnorm [-> _]]]].
  destruct (div_normal false (d * 2 ^ k) (- k) (d * 2 ^ k) (- k)) as [-> _];
    try assumption; try lia.
  unfold norm53 in Hnorm.
  rewrite Z.leb_refl.
  replace (d * 2 ^ k * 2 ^ 53) with (2 ^ 52 * (2 ^ 1 * (d * 2 ^ k))) by lia.
  rewrite rne_exact by lia.
  replace (- k - - k - 53 + 1) with (-52) by lia.
  reflexivity.
Qed.

Lemma clip01_normalized (lo hi : Z) (s : spec_float) :
  normalized lo hi s ->
  clip01 s = if rank (F64.of_Z 1) <? rank s then F64.of_Z 1 else s.
Proof.
  intros Hs. unfold clip01.
  assert (H0 : F64.ltb s (F64.of_Z 0) = false).
  { destruct Hs as [m [e [-> _]]]. reflexivity. }
  rewrite H0.
  destruct (Z.ltb_spec (rank (F64.of_Z 1)) (rank s)) as [Hlt|Hge].
  - apply (ltb_rank _ _ _ _ _ _ (of_Z_normalized 1 ltac:(lia)) Hs) in Hlt.
    now rewrite Hlt.
  - destruct (F64.ltb (F64.of_Z 1) s) eqn:E; [|reflexivity].
    apply (ltb_rank _ _ _ _ _ _ (of_Z_normalized 1 ltac:(lia)) Hs) in E. lia.
Qed.

Lemma clip01_negative (m : positive) (e : Z) :
  clip01 (S754_finite true m e) = S754_zero false.
Proof. reflexivity. Qed.

Lemma clip01_zero : clip01 (S754_zero false) = S754_zero false.
Proof. reflexivity. Qed.

Lemma truncZ_of_Z (z : Z) : 0 <= z < 2 ^ 53 -> F64.truncZ (F64.of_Z z) = Some z.
Proof.
  intros Hz. destruct (Z.eq_dec z 0) as [->|Hne]; [reflexivity|].
  destruct (of_Z_exact z ltac:(lia)) as [j [Hj [Hnorm [-> _]]]].
  unfold norm53 in Hnorm.
  assert (Hp : 0 < 2 ^ j) by (apply Z.pow_pos_nonneg; lia).
  unfold F64.truncZ, nf, F64.signed. rewrite Z2Pos.id by lia.
  destruct (Z.leb_spec 0 (- j)) as [H0|H0].
  - replace j with 0 by lia. rewrite Z.pow_0_r. f_equal. cbn. lia.
  - rewrite Z.opp_involutive, Z.quot_mul by lia. reflexivity.
Qed.

Lemma quantize_zero (cast : Z -> spec_float -> Z) (bit_8 : bool) :
  quantize cast bit_8 (S754_zero false) = 0.
Proof. destruct bit_8; reflexivity. Qed.

(** The product with the full scale of a clipped, normal quotient, and
    what [quantize] makes of it. *)
Lemma quantize_normalized (cast : Z -> spec_float -> Z) (bit_8 : bool) (s : spec_float) :
  normalized (-200) 200 s -> rank s <= rank (F64.of_Z 1) ->
  exists m e, norm53 m /\
              F64.mul s (F64.of_Z (full_scale bit_8)) = nf false m e /\
              quantize cast bit_8 s = fl m e /\
              0 <= fl m e <= full_scale bit_8.
Proof.
  intros Hs Hle.
  destruct (normalized_rank _ _ _ Hs) as [m1 [e1 [E1 [Hm1 [He1 R1]]]]].
  assert (HM : 0 < full_scale bit_8 < 2 ^ 53) by (destruct bit_8; cbn; lia).
  destruct (normalized_rank _ _ _ (of_Z_normalized _ HM)) as [mM [eM [EM [HmM [HeM _]]]]].
  destruct (mul_normal false m1 e1 mM eM) as [Hmul Hb]; try assumption; try lia.
  destruct (normal_nf false _ (e1 + eM + 52 + (if 2 ^ 105 <=? m1 * mM then 1 else 0)) Hb)
    as [m [e [Hnf [Hm [He Hrk]]]]].
  exists m, e. split; [exact Hm|].
  assert (Hprod : F64.mul s (F64.of_Z (full_scale bit_8)) = nf false m e).
  { rewrite E1, EM, Hmul. exact Hnf. }
  split; [exact Hprod|].
  assert (Hfl : 0 <= fl m e <= full_scale bit_8).
  { unfold norm53 in Hm. split.
    - unfold fl. destruct (Z.leb_spec 0 e).
      + apply Z.mul_nonneg_nonneg; [lia | apply Z.pow_nonneg; lia].
      + apply Z.div_pos; [lia | apply Z.pow_pos_nonneg; lia].
    - assert (Hone : F64.of_Z 1 = nf false (2 ^ 52) (-52)) by reflexivity.
      assert (Hr : rank (F64.mul s (F64.of_Z (full_scale bit_8)))
                   <= rank (F64.mul (F64.of_Z 1) (F64.of_Z (full_scale bit_8)))).
      { rewrite E1, EM, Hone. apply mul_rank_mono; try assumption; try lia.
        - unfold norm53. lia.
        - rewrite Hone in Hle. rewrite R1 in Hle. rewrite rank_nf in Hle by lia. exact Hle. }
      rewrite Hprod, rank_nf in Hr by lia.
      destruct bit_8.
      + change (rank (F64.mul (F64.of_Z 1) (F64.of_Z (full_scale true))))
          with ((-45) * 2 ^ 52 + 255 * 2 ^ 45) in Hr.
        change (full_scale true) with (fl (255 * 2 ^ 45) (-45)).
        apply fl_mono; unfold norm53; lia.
      + change (rank (F64.mul (F64.of_Z 1) (F64.of_Z (full_scale false))))
          with ((-37) * 2 ^ 52 + 65535 * 2 ^ 37) in Hr.
        change (full_scale false) with (fl (65535 * 2 ^ 37) (-37)).
        apply fl_mono; unfold norm53; lia. }
  split; [|exact Hfl].
  unfold quantize. rewrite Hprod.
  unfold F64.floor, nf at 1.
  fold (nf false m e). rewrite floorZ_nf by (unfold norm53 in Hm; lia).
  rewrite truncZ_of_Z by (destruct bit_8; cbn in Hfl; lia).
  replace ((0 <=? fl m e) && (fl m e <? 2 ^ bit_depth bit_8)) with true; [reflexivity|].
  symmetry. apply andb_true_iff. split; [apply Z.leb_le; lia|].
  apply Z.ltb_lt. destruct bit_8; cbn in *; lia.
Qed.

Lemma full_scale_depth (bit_8 : bool) : full_scale bit_8 = 2 ^ bit_depth bit_8 - 1.
Proof. now destruct bit_8. Qed.

Lemma quantize_one (cast : Z -> spec_float -> Z) (bit_8 : bool) :
  quantize cast bit_8 (F64.of_Z 1) = full_scale bit_8.
Proof. destruct bit_8; reflexivity. Qed.

Lemma quantize_mono (cast : Z -> spec_float -> Z) (bit_8 : bool) (s1 s2 : spec_float) :
  normalized (-200) 200 s1 -> normalized (-200) 200 s2 ->
  rank s1 <= rank s2 -> rank s2 <= rank (F64.of_Z 1) ->
  quantize cast bit_8 s1 <= quantize cast bit_8 s2.
Proof.
  intros H1 H2 Hle Hone.
  destruct (quantize_normalized cast bit_8 s1 H1 ltac:(lia)) as [m [e [Hm [P1 [-> _]]]]].
  destruct (quantize_normalized cast bit_8 s2 H2 Hone) as [m' [e' [Hm' [P2 [-> _]]]]].
  apply fl_mono; try assumption.
  assert (Hr : rank (F64.mul s1 (F64.of_Z (full_scale bit_8)))
               <= rank (F64.mul s2 (F64.of_Z (full_scale bit_8)))).
  { destruct (normalized_rank _ _ _ H1) as [a1 [b1 [E1 [Ha1 [Hb1 R1]]]]].
    destruct (normalized_rank _ _ _ H2) as [a2 [b2 [E2 [Ha2 [Hb2 R2]]]]].
    assert (HM : 0 < full_scale bit_8 < 2 ^ 53) by (destruct bit_8; cbn; lia).
    destruct (normalized_rank _ _ _ (of_Z_normalized _ HM)) as [mM [eM [EM [HmM [HeM _]]]]].
    rewrite R1, R2 in Hle. rewrite E1, E2, EM.
    apply mul_rank_mono; try assumption; lia. }
  unfold norm53 in Hm, Hm'.
  rewrite P1, P2, !rank_nf in Hr by lia. exact Hr.
Qed.

(** The clipped quotient of a positive difference. *)
Lemma clipped_ratio (n d : Z) :
  0 < n < 2 ^ 53 -> 0 < d < 2 ^ 53 ->
  normalized (-200) 200 (clip01 (F64.div (F64.of_Z n) (F64.of_Z d))) /\
  rank (clip01 (F64.div (F64.of_Z n) (F64.of_Z d)))
  = Z.min (rank (F64.div (F64.of_Z n) (F64.of_Z d))) (rank (F64.of_Z 1)).
Proof.
  intros Hn Hd. pose proof (ratio_normalized n d Hn Hd) as Hs.
  rewrite (clip01_normalized _ _ _ Hs).
  destruct (Z.ltb_spec (rank (F64.of_Z 1)) (rank (F64.div (F64.of_Z n) (F64.of_Z d)))).
  - split; [|lia].
    apply (normalized_weaken (-52) 0); [apply of_Z_normalized; lia | lia | lia].
  - split; [|lia]. apply (normalized_weaken (-105) 1); [exact Hs | lia | lia].
Qed.

Lemma sample_out_nonpos (cast : Z -> spec_float -> Z) (bit_8 : bool) (n d : Z) :
  - 2 ^ 53 < n <= 0 -> 0 < d < 2 ^ 53 ->
  clip01 (F64.div (F64.of_Z n) (F64.of_Z d)) = S754_zero false /\
  sample_out cast bit_8 n d = 0.
Proof.
  intros Hn Hd. unfold sample_out.
  destruct (of_Z_exact d Hd) as [k [Hk [Hnormd [Ed _]]]].
  assert (Hclip : clip01 (F64.div (F64.of_Z n) (F64.of_Z d)) = S754_zero false).
  { destruct (Z.eq_dec n 0) as [->|Hne].
    - rewrite Ed. reflexivity.
    - destruct (of_Z_exact (- n) ltac:(lia)) as [j [Hj [Hnorm [_ En]]]].
      rewrite Z.opp_involutive in En. rewrite En, Ed.
      destruct (div_normal true (- n * 2 ^ j) (- j) (d * 2 ^ k) (- k)) as [-> Hb];
        try assumption; try lia.
      destruct (normal_nf true _ (- j - - k - 53
                                  + (if d * 2 ^ k <=? - n * 2 ^ j then 1 else 0)) Hb)
        as [m' [e' [-> _]]].
      apply clip01_negative. }
  split; [exact Hclip|]. rewrite Hclip. apply quantize_zero.
Qed.

Lemma sample_out_range (cast : Z -> spec_float -> Z) (bit_8 : bool) (n d : Z) :
  - 2 ^ 53 < n < 2 ^ 53 -> 0 < d < 2 ^ 53 ->
  F64.floorZ (F64.mul (clip01 (F64.div (F64.of_Z n) (F64.of_Z d)))
                      (F64.of_Z (full_scale bit_8)))
  = Some (sample_out cast bit_8 n d) /\
  0 <= sample_out cast bit_8 n d <= full_scale bit_8.
Proof.
  intros Hn Hd. destruct (Z_le_gt_dec n 0) as [Hneg|Hpos].
  - destruct (sample_out_nonpos cast bit_8 n d ltac:(lia) Hd) as [Hclip ->].
    rewrite Hclip. split; [destruct bit_8; reflexivity | destruct bit_8; cbn; lia].
  - destruct (clipped_ratio n d ltac:(lia) Hd) as [Hnorm Hrank].
    destruct (quantize_normalized cast bit_8 _ Hnorm ltac:(lia)) as [m [e [Hm [P [Q R]]]]].
    unfold sample_out. rewrite P, Q. split; [|exact R].
    apply floorZ_nf. unfold norm53 in Hm. lia.
Qed.

Lemma sample_out_mono (cast : Z -> spec_float -> Z) (bit_8 : bool) (n n' d : Z) :
  - 2 ^ 53 < n -> n <= n' -> n' < 2 ^ 53 -> 0 < d < 2 ^ 53 ->
  sample_out cast bit_8 n d <= sample_out cast bit_8 n' d.
Proof.
  intros Hn Hle Hn' Hd. destruct (Z_le_gt_dec n 0) as [Hneg|Hpos].
  - destruct (sample_out_nonpos cast bit_8 n d ltac:(lia) Hd) as [_ ->].
    apply (sample_out_range cast bit_8 n' d); lia.
  - destruct (clipped_ratio n d ltac:(lia) Hd) as [Hnorm Hrank].
    destruct (clipped_ratio n' d ltac:(lia) Hd) as [Hnorm' Hrank'].
    pose proof (ratio_rank_mono n n' d ltac:(lia) Hle Hn' Hd).
    unfold sample_out. apply quantize_mono; try assumption; lia.
Qed.

Lemma sample_out_top (cast : Z -> spec_float -> Z) (bit_8 : bool) (d : Z) :
  0 < d < 2 ^ 53 -> sample_out cast bit_8 d d = full_scale bit_8.
Proof.
  intros Hd. unfold sample_out. rewrite (ratio_one d Hd).
  destruct bit_8; reflexivity.
Qed.

Lemma sample_out_above (cast : Z -> spec_float -> Z) (bit_8 : bool) (n d : Z) :
  0 < d -> d <= n -> n < 2 ^ 53 -> sample_out cast bit_8 n d = full_scale bit_8.
Proof.
  intros Hd Hle Hn.
  pose proof (sample_out_mono cast bit_8 d n d ltac:(lia) Hle Hn ltac:(lia)) as H1.
  rewrite sample_out_top in H1 by lia.
  pose proof (sample_out_range cast bit_8 n d ltac:(lia) ltac:(lia)) as [_ H2]. lia.
Qed.

(** ** Scaling policy: properties *)

Lemma camera_of_token (filename c : string) :
  camera_of filename = Some c -> c = "P" \/ c = "C" \/ c = "S".
Proof.
  intros H. apply List.find_some in H. destruct H as [_ H].
  unfold is_camera_token in H.
  rewrite !orb_true_iff, !String.eqb_eq in H.
  destruct H as [[H|H]|H]; [now left | right; now left | right; now right].
Qed.

Lemma camera_of_some (filename : string) :
  (exists t, In t (str_split "_"%char (basename filename)) /\ is_camera_token t = true)
  -> exists c, camera_of filename = Some c.
Proof.
  intros [t [Hin Ht]]. unfold camera_of.
  destruct (List.find is_camera_token _) as [c|] eqn:Hf; [now exists c|].
  pose proof (List.find_none _ _ Hf t Hin). congruence.
Qed.

Lemma parse_filename_some (filename c : string) (out : list string) :
  camera_of filename = Some c -> parse_filename filename out = (Ok c, out).
Proof. unfold camera_of, parse_filename. intros ->. reflexivity. Qed.

Lemma parse_filename_none (filename : string) (out : list string) :
  camera_of filename = None ->
  parse_filename filename out
  = (Raise (UnboundLocalError "camera_pos"),
     out ++ [("Warning: Bad filename format " ++ filename)%string]).
Proof. unfold camera_of, parse_filename. intros ->. reflexivity. Qed.

Lemma get_scaling_values_eq (filename : string) (num_rows : Z) (out : list string) :
  get_scaling_values filename num_rows out =
  match camera_of filename with
  | Some c =>
      if String.eqb c "P" then
        if num_rows =? 512 then (Ok (53500, 56500), out)
        else if num_rows =? 480 then (Ok (50500, 58500), out)
        else (Ok (51000, 57500),
              out ++ [("Unknown camera size for file " ++ filename)%string])
      else if String.eqb c "C" then (Ok (50500, 58500), out)
      else (Ok (51000, 57500), out)
  | None =>
      (Raise (UnboundLocalError "camera_pos"),
       out ++ [("Warning: Bad filename format " ++ filename)%string])
  end.
Proof.
  unfold get_scaling_values, bind.
  destruct (camera_of filename) as [c|] eqn:Hc.
  - rewrite (parse_filename_some _ _ _ Hc). unfold Ok. cbv beta iota.
    destruct (String.eqb c "P"); [|destruct (String.eqb c "C"); reflexivity].
    destruct (num_rows =? 512); [reflexivity|].
    destruct (num_rows =? 480); reflexivity.
  - now rewrite (parse_filename_none _ _ Hc).
Qed.

(** The bounds of the table, for whatever name, row count and console. *)
Lemma get_scaling_values_window (filename : string) (num_rows : Z)
      (out out' : list string) (bottom top : Z) :
  get_scaling_values filename num_rows out = (Ok (bottom, top), out') ->
  50500 <= bottom /\ bottom + 3000 <= top /\ top <= 58500.
Proof.
  rewrite get_scaling_values_eq. intros H.
  destruct (camera_of filename) as [c|]; [|discriminate].
  destruct (String.eqb c "P").
  - destruct (num_rows =? 512); [injection H as <- <- _; lia|].
    destruct (num_rows =? 480); injection H as <- <- _; lia.
  - destruct (String.eqb c "C"); injection H as <- <- _; lia.
Qed.

Lemma get_scaling_values_some (filename c : string) (num_rows : Z) (out : list string) :
  camera_of filename = Some c ->
  exists bottom top out',
    get_scaling_values filename num_rows out = (Ok (bottom, top), out').
Proof.
  intros Hc. rewrite get_scaling_values_eq, Hc.
  destruct (String.eqb c "P").
  - destruct (num_rows =? 512); [now eexists _, _, _|].
    destruct (num_rows =? 480); now eexists _, _, _.
  - destruct (String.eqb c "C"); now eexists _, _, _.
Qed.

(** C4.  When the basename of the file name has a camera token, the
    bounds are those of the table: P with 512 rows gives (53500, 56500),
    P with 480 rows gives (50500, 58500), P with another number of rows
    prints the unknown-size warning and gives the default (51000, 57500),
    C gives (50500, 58500) and S gives (51000, 57500), whatever the number
    of rows. *)
Theorem get_scaling_values_table (filename : string) (num_rows : Z) (out : list string) :
  (exists t, In t (str_split "_"%char (basename filename)) /\ is_camera_token t = true) ->
  exists c,
    camera_of filename = Some c /\
    (c = "P" \/ c = "C" \/ c = "S") /\
    (c = "P" -> num_rows = 512 ->
     get_scaling_values filename num_rows out = (Ok (53500, 56500), out)) /\
    (c = "P" -> num_rows = 480 ->
     get_scaling_values filename num_rows out = (Ok (50500, 58500), out)) /\
    (c = "P" -> num_rows <> 512 -> num_rows <> 480 ->
     get_scaling_values filename num_rows out
     = (Ok (51000, 57500),
        out ++ [("Unknown camera size for file " ++ filename)%string])) /\
    (c = "C" ->
     get_scaling_values filename num_rows out = (Ok (50500, 58500), out)) /\
    (c = "S" ->
     get_scaling_values filename num_rows out = (Ok (51000, 57500), out)).
Proof.
  intros Htok. destruct (camera_of_some filename Htok) as [c Hc].
  exists c. split; [exact Hc|]. split; [exact (camera_of_token filename c Hc)|].
  rewrite get_scaling_values_eq, Hc.
  repeat split; intros; subst; cbn.
  - reflexivity.
  - reflexivity.
  - destruct (num_rows =? 512) eqn:E1; [apply Z.eqb_eq in E1; lia|].
    destruct (num_rows =? 480) eqn:E2; [apply Z.eqb_eq in E2; lia|].
    reflexivity.
  - reflexivity.
  - reflexivity.
Qed.

(** C8.  The outcome of [get_scaling_values] (the pair of bounds, or the
    exception) and the lines it prints are a function of the file name
    and the number of rows alone: two calls with the same arguments give
    the same outcome whatever the console held, and the only effect of a
    call is to append its warnings to the console. *)
Theorem get_scaling_values_deterministic (filename : string) (num_rows : Z) :
  exists (outcome : result (Z * Z)) (warnings : list string),
    (forall out, get_scaling_values filename num_rows out = (outcome, out ++ warnings)) /\
    (forall out1 out2,
        fst (get_scaling_values filename num_rows out1)
        = fst (get_scaling_values filename num_rows out2)).
Proof.
  assert (H : exists outcome warnings, forall out,
               get_scaling_values filename num_rows out = (outcome, out ++ warnings)).
  { destruct (camera_of filename) as [c|] eqn:Hc.
    - destruct (String.eqb c "P") eqn:HP.
      + destruct (num_rows =? 512) eqn:E1;
          [|destruct (num_rows =? 480) eqn:E2].
        * exists (Ok (53500, 56500)), []. intros out.
          now rewrite get_scaling_values_eq, Hc, HP, E1, app_nil_r.
        * exists (Ok (50500, 58500)), []. intros out.
          now rewrite get_scaling_values_eq, Hc, HP, E1, E2, app_nil_r.
        * exists (Ok (51000, 57500)),
            [("Unknown camera size for file " ++ filename)%string].
          intros out. now rewrite get_scaling_values_eq, Hc, HP, E1, E2.
      + destruct (String.eqb c "C") eqn:HC.
        * exists (Ok (50500, 58500)), []. intros out.
          now rewrite get_scaling_values_eq, Hc, HP, HC, app_nil_r.
        * exists (Ok (51000, 57500)), []. intros out.
          now rewrite get_scaling_values_eq, Hc, HP, HC, app_nil_r.
    - exists (Raise (UnboundLocalError "camera_pos")),
        [("Warning: Bad filename format " ++ filename)%string].
      intros out. now rewrite get_scaling_values_eq, Hc. }
  destruct H as [outcome [warnings H]].
  exists outcome, warnings. split; [exact H|].
  intros out1 out2. now rewrite !H.
Qed.

(** ** File lists *)

Lemma output_name_stem (bit_8 : bool) (stem : string) :
  (forall c, In c (list_ascii_of_string stem) -> c <> "1"%char) ->
  output_name bit_8 (stem ++ "16BIT.PNG")
  = (stem ++ (if bit_8 then "8BIT-N.PNG" else "16BIT-N.PNG"))%string.
Proof.
  induction stem as [|c stem IH]; intros Hstem.
  - now destruct bit_8.
  - assert (Hc : c <> "1"%char) by (apply Hstem; now left).
    assert (IH' := IH (fun d Hd => Hstem d (or_intror Hd))).
    unfold output_name in *. cbn [append].
    destruct bit_8; rewrite str_replace_miss, IH'; try reflexivity;
      cbn [prefix]; destruct (ascii_dec "1" c); congruence.
Qed.

Lemma selected_contains (all_files : list string) (x : string) :
  In x (selected all_files) <-> In x all_files /\ contains "16BIT.PNG" x.
Proof. unfold selected. rewrite List.filter_In, str_find_contains. reflexivity. Qed.

Lemma curate_names_eq (all_files : list string)
      (input_directory output_directory : string) (bit_8 : bool) :
  curate_names all_files input_directory output_directory bit_8
  = (List.map (path_join input_directory) (selected all_files),
     List.map (fun x => path_join output_directory (output_name bit_8 x))
              (selected all_files)).
Proof.
  unfold curate_names, selected, output_name.
  destruct bit_8; now rewrite List.map_map.
Qed.

Lemma curate_names_length (all_files : list string)
      (input_directory output_directory : string) (bit_8 : bool) :
  List.length (fst (curate_names all_files input_directory output_directory bit_8))
  = List.length (selected all_files) /\
  List.length (snd (curate_names all_files input_directory output_directory bit_8))
  = List.length (selected all_files).
Proof. rewrite curate_names_eq. cbn [fst snd]. now rewrite !List.length_map. Qed.

(** C7.  From a directory listing [curate_files] keeps exactly the entries
    whose name contains [16BIT.PNG], in the order of the listing, and pairs
    the input at each index with the output whose name follows the
    renaming rule: [16BIT] becomes [8BIT-N] in 8-bit mode, [16BIT.] becomes
    [16BIT-N.] otherwise; [foo_16BIT.PNG] gives [foo_8BIT-N.PNG] and
    [foo_16BIT-N.PNG]. *)
Theorem curate_files_pairs (E : environment) (all_files : list string)
        (input_directory output_directory : string) (bit_8 : bool) (w : world E) :
  listdir E input_directory w = Ok all_files ->
  exists input_files output_files,
    curate_files E input_directory output_directory bit_8 w
    = Ok (input_files, output_files) /\
    input_files = List.map (path_join input_directory) (selected all_files) /\
    (forall x, In x (selected all_files) <-> In x all_files /\ contains "16BIT.PNG" x) /\
    List.length input_files = List.length output_files /\
    (forall (i : nat) (x : string),
        nth_error (selected all_files) i = Some x ->
        nth_error input_files i = Some (path_join input_directory x) /\
        nth_error output_files i = Some (path_join output_directory (output_name bit_8 x))) /\
    (forall stem, (forall c, In c (list_ascii_of_string stem) -> c <> "1"%char) ->
                  output_name bit_8 (stem ++ "16BIT.PNG")
                  = (stem ++ (if bit_8 then "8BIT-N.PNG" else "16BIT-N.PNG"))%string) /\
    output_name true "foo_16BIT.PNG" = "foo_8BIT-N.PNG" /\
    output_name false "foo_16BIT.PNG" = "foo_16BIT-N.PNG".
Proof.
  intros Hls.
  exists (List.map (path_join input_directory) (selected all_files)),
    (List.map (fun x => path_join output_directory (output_name bit_8 x))
              (selected all_files)).
  split; [unfold curate_files; rewrite Hls; unfold Ok; cbv beta iota;
          now rewrite curate_names_eq|].
  split; [reflexivity|].
  split; [apply selected_contains|].
  split; [now rewrite !List.length_map|].
  split; [|split; [apply output_name_stem | split; reflexivity]].
  intros i x Hx.
  split;
    [ apply List.map_nth_error
    | apply (List.map_nth_error
               (fun y => path_join output_directory (output_name bit_8 y))) ];
    exact Hx.
Qed.

(** ** Shape of the normalised grid *)

Lemma amap_amap {A B C : Type} (f : A -> B) (g : B -> C) (a : list (list A)) :
  amap g (amap f a) = amap (fun x => g (f x)) a.
Proof.
  unfold amap. rewrite List.map_map. apply List.map_ext.
  intros row. apply List.map_map.
Qed.

Lemma amap_ext_in {A B : Type} (f g : A -> B) (a : list (list A)) :
  (forall row x, In row a -> In x row -> f x = g x) -> amap f a = amap g a.
Proof.
  intros H. unfold amap. apply List.map_ext_in. intros row Hrow.
  apply List.map_ext_in. intros x Hx. now apply (H row).
Qed.

Lemma shape_amap {A B : Type} (f : A -> B) (a : list (list A)) :
  shape (amap f a) = shape a.
Proof.
  unfold shape, amap. rewrite List.map_map. apply List.map_ext.
  intros row. apply List.length_map.
Qed.

(** A Python integer below [2^53] in absolute value converts to
    [float64] as it is. *)
Lemma to_float_small (w : Z) :
  - 2 ^ 53 < w < 2 ^ 53 -> to_float (PyInt w) = Ok (F64.of_Z w).
Proof.
  intros Hw. unfold to_float.
  destruct (Z.lt_trichotomy w 0) as [Hneg|[->|Hpos]].
  - destruct (of_Z_exact (- w) ltac:(lia)) as [j [_ [_ [_ E]]]].
    rewrite Z.opp_involutive in E. now rewrite E.
  - reflexivity.
  - destruct (of_Z_exact w ltac:(lia)) as [j [_ [_ [E _]]]]. now rewrite E.
Qed.

Lemma fits_range (dt : dtype) (z : Z) :
  fits dt z = true ->
  match dt with
  | u16 => 0 <= z < 2 ^ 16
  | i32 => - 2 ^ 31 <= z < 2 ^ 31
  end.
Proof. destruct dt; unfold fits; lia. Qed.

Lemma fits_16bit (dt : dtype) (z : Z) : 0 <= z < 2 ^ 16 -> fits dt z = true.
Proof. destruct dt; unfold fits; lia. Qed.

Lemma subtract_py (dt : dtype) (a : ndarray) (b : Z) :
  fits dt b = true ->
  subtract dt a (PyInt b) = Ok (amap (fun v => wrap dt (v - b)) a).
Proof. intros H. unfold subtract, to_dtype, py_int. now rewrite H. Qed.

(** Two Python integers as bounds: when [bottom] fits the element type
    and the width converts to the [float64] [y], every sample is mapped
    on its own. *)
Lemma lin_normalize_image_python (cast : Z -> spec_float -> Z) (dt : dtype)
      (image_array : ndarray) (bit_8 : bool) (bottom top : Z) (y : spec_float) :
  fits dt bottom = true -> to_float (PyInt (top - bottom)) = Ok y ->
  lin_normalize_image cast dt image_array bit_8 (Some bottom) (Some top)
  = Ok (amap (fun v => quantize cast bit_8
                                (clip01 (F64.div (F64.of_Z (wrap dt (v - bottom))) y)))
             image_array).
Proof.
  intros Hfit Hy.
  unfold lin_normalize_image. cbn [and_then Ok scalar_subtract].
  rewrite (subtract_py dt image_array bottom Hfit). cbn [and_then Ok].
  unfold true_divide. rewrite Hy. cbn [and_then Ok].
  f_equal.
  unfold quantize, clip01, full_scale, bit_depth.
  destruct bit_8;
    unfold astype_uint, np_floor, multiply, assign_where_gt, assign_where_lt;
    rewrite !amap_amap; reflexivity.
Qed.

Lemma lin_normalize_image_explicit (cast : Z -> spec_float -> Z) (dt : dtype)
      (image_array : ndarray) (bit_8 : bool)
      (bottom top : Z) :
  fits dt bottom = true -> - 2 ^ 53 < top - bottom < 2 ^ 53 ->
  lin_normalize_image cast dt image_array bit_8 (Some bottom) (Some top)
  = Ok (amap (rescale cast dt bit_8 bottom top) image_array).
Proof.
  intros Hfit Hw.
  now rewrite (lin_normalize_image_python cast dt image_array bit_8 bottom top
                 (F64.of_Z (top - bottom)) Hfit (to_float_small _ Hw)).
Qed.

(** A Python integer as [bottom] that does not fit the element type of
    the array is refused. *)
Lemma lin_normalize_image_overflow (cast : Z -> spec_float -> Z) (dt : dtype)
      (image_array : ndarray) (bit_8 : bool) (bottom : Z) (top : option Z) :
  fits dt bottom = false ->
  (top = None -> List.concat image_array <> []) ->
  lin_normalize_image cast dt image_array bit_8 (Some bottom) top
  = Raise (OverflowError ("Python integer " ++ str_of_Z bottom ++ " out of bounds for "
                          ++ dtype_name dt)%string).
Proof.
  intros Hfit Hne.
  assert (Hs : subtract dt image_array (PyInt bottom)
               = Raise (OverflowError ("Python integer " ++ str_of_Z bottom
                                       ++ " out of bounds for " ++ dtype_name dt)%string)).
  { unfold subtract, to_dtype, py_int. now rewrite Hfit. }
  unfold lin_normalize_image. cbn [and_then Ok].
  destruct top as [t|].
  - cbn [and_then Ok]. now rewrite Hs.
  - unfold np_max, reduce. specialize (Hne eq_refl).
    destruct (List.concat image_array) as [|x xs]; [congruence|].
    cbn [and_then Ok]. now rewrite Hs.
Qed.

(** C10.  With two different bounds that are values of the array's
    element type the result is a grid of the shape of the input: as many
    rows, each of the length it had, every sample being the image of the
    input sample at its place. *)
Theorem lin_normalize_image_shape (cast : Z -> spec_float -> Z) (dt : dtype)
        (image_array : ndarray) (bit_8 : bool)
        (bottom top : Z) :
  fits dt bottom = true -> fits dt top = true -> bottom <> top ->
  exists normalized,
    lin_normalize_image cast dt image_array bit_8 (Some bottom) (Some top)
    = Ok normalized /\
    List.length normalized = List.length image_array /\
    shape normalized = shape image_array /\
    normalized = amap (rescale cast dt bit_8 bottom top) image_array.
Proof.
  intros Hb Ht _. exists (amap (rescale cast dt bit_8 bottom top) image_array).
  pose proof (fits_range dt bottom Hb) as Rb.
  pose proof (fits_range dt top Ht) as Rt.
  split; [apply lin_normalize_image_explicit; [exact Hb | destruct dt; lia]|].
  split; [unfold amap; apply List.length_map|].
  split; [apply shape_amap | reflexivity].
Qed.

(** ** Worker and batch *)

Lemma process_file_ok (E : environment) (len_inputs : Z) (bit_8 : bool)
      (in_file output_file : string) (index : Z) (st st1 : state E) (u : unit) :
  process_file_body E bit_8 in_file output_file (report_progress E len_inputs index st)
  = (Ok u, st1) ->
  process_file E len_inputs bit_8 in_file output_file index st = (true, st1).
Proof. unfold process_file. now intros ->. Qed.

Lemma process_file_caught (E : environment) (len_inputs : Z) (bit_8 : bool)
      (in_file output_file : string) (index : Z) (st st1 : state E) (e : exn) :
  process_file_body E bit_8 in_file output_file (report_progress E len_inputs index st)
  = (Raise e, st1) ->
  process_file E len_inputs bit_8 in_file output_file index st
  = (false, echo ("Unable to load " ++ in_file)%string (echo (exn_str e) st1)).
Proof. unfold process_file. now intros ->. Qed.

(** An image that cannot be opened. *)
Lemma process_file_unreadable (E : environment) (len_inputs : Z) (bit_8 : bool)
      (in_file output_file : string) (index : Z) (st : state E) (e : exn) :
  image_open E in_file (fs (report_progress E len_inputs index st)) = Raise e ->
  process_file E len_inputs bit_8 in_file output_file index st
  = (false, echo ("Unable to load " ++ in_file)%string
                 (echo (exn_str e) (report_progress E len_inputs index st))).
Proof.
  intros H. apply process_file_caught. unfold process_file_body. now rewrite H.
Qed.

Lemma starmap_length (E : environment) (len_inputs : Z) (bit_8 : bool)
      (tasks : list (string * string * Z)) (st : state E) :
  List.length (fst (starmap E len_inputs bit_8 tasks st)) = List.length tasks.
Proof.
  revert st; induction tasks as [|[[i o] k] rest IH]; intros st; [reflexivity|].
  cbn [starmap].
  destruct (process_file E len_inputs bit_8 i o k st) as [r st1].
  specialize (IH st1).
  destruct (starmap E len_inputs bit_8 rest st1) as [rs st2].
  cbn [fst List.length] in *. now rewrite IH.
Qed.

Lemma make_tasks_length (ins outs : list string) (k : Z) :
  List.length ins = List.length outs ->
  List.length (make_tasks ins outs k) = List.length ins.
Proof.
  revert outs k; induction ins as [|i ins IH]; intros [|o outs] k H;
    cbn in *; try congruence.
  now rewrite IH by congruence.
Qed.

Lemma count_true_bounds (results : list bool) :
  0 <= count_true results <= Z.of_nat (List.length results).
Proof.
  unfold count_true. pose proof (List.filter_length_le (fun x => x) results). lia.
Qed.

Lemma num_workers_pos (n : Z) : 1 <= n -> 1 <= num_workers n.
Proof.
  intros Hn. unfold num_workers. destruct (Z.eqb_spec (n - 1) 0); lia.
Qed.

Lemma Pool_ok (processes : Z) : 1 <= processes -> Pool processes = Ok processes.
Proof.
  intros H. unfold Pool. destruct (Z.ltb_spec processes 1); [lia | reflexivity].
Qed.

(** C9.  With [n >= 1] cores the pool that [main] creates has
    [max(1, n - 1)] workers; one core gives a pool of one worker, never an
    empty pool. *)
Theorem num_workers_max (n : Z) :
  1 <= n ->
  num_workers n = Z.max 1 (n - 1) /\
  Pool (num_workers n) = Ok (Z.max 1 (n - 1)) /\
  Pool (num_workers 1) = Ok 1.
Proof.
  intros Hn.
  assert (H : num_workers n = Z.max 1 (n - 1)).
  { unfold num_workers. destruct (Z.eqb_spec (n - 1) 0); lia. }
  split; [exact H|]. split; [|reflexivity].
  rewrite H. apply Pool_ok. lia.
Qed.

(** The bounds of the table are values of both element types, and their
    width converts to [float64] as it is. *)
Lemma table_bounds_fit (filename : string) (num_rows : Z) (out out' : list string)
      (bottom top : Z) (dt : dtype) :
  get_scaling_values filename num_rows out = (Ok (bottom, top), out') ->
  fits dt bottom = true /\ - 2 ^ 53 < top - bottom < 2 ^ 53.
Proof.
  intros H. destruct (get_scaling_values_window _ _ _ _ _ _ H) as [Hb [Hw Ht]].
  split; [apply fits_16bit; lia | lia].
Qed.

(** The [try] block, stage by stage. *)
Lemma process_file_body_unread (E : environment) (bit_8 : bool)
      (in_file output_file : string) (st : state E) (e : exn) :
  image_open E in_file (fs st) = Raise e ->
  process_file_body E bit_8 in_file output_file st = (Raise e, st).
Proof. intros H. unfold process_file_body. now rewrite H. Qed.

Lemma process_file_body_policy (E : environment) (bit_8 : bool)
      (in_file output_file : string) (st : state E)
      (dt : dtype) (image : ndarray) (e : exn) (out : list string) :
  image_open E in_file (fs st) = Ok (dt, image) ->
  get_scaling_values in_file (Z.of_nat (List.length image)) (console st) = (Raise e, out) ->
  process_file_body E bit_8 in_file output_file st = (Raise e, set_console st out).
Proof.
  intros H1 H2. unfold process_file_body. rewrite H1. unfold Ok. cbv beta iota.
  now rewrite H2.
Qed.

Lemma process_file_body_written (E : environment) (bit_8 : bool)
      (in_file output_file : string) (st : state E)
      (dt : dtype) (image : ndarray) (bottom top : Z) (out : list string) :
  image_open E in_file (fs st) = Ok (dt, image) ->
  get_scaling_values in_file (Z.of_nat (List.length image)) (console st)
  = (Ok (bottom, top), out) ->
  process_file_body E bit_8 in_file output_file st
  = (fst ((if bit_8 then image_save E else png_write E) output_file
            (amap (rescale (cast_undefined E) dt bit_8 bottom top) image) (fs st)),
     set_fs (set_console st out)
            (snd ((if bit_8 then image_save E else png_write E) output_file
                    (amap (rescale (cast_undefined E) dt bit_8 bottom top) image)
                    (fs st)))).
Proof.
  intros H1 H2. destruct (table_bounds_fit _ _ _ _ _ _ dt H2) as [Hfit Hw].
  unfold process_file_body. rewrite H1. unfold Ok. cbv beta iota.
  rewrite H2. unfold Ok. cbv beta iota.
  rewrite (lin_normalize_image_explicit _ _ _ _ _ _ Hfit Hw). unfold Ok. cbv beta iota.
  cbn [fs set_console].
  destruct ((if bit_8 then image_save E else png_write E) output_file _ (fs st))
    as [r w].
  reflexivity.
Qed.

Lemma process_file_result (E : environment) (len_inputs : Z) (bit_8 : bool)
      (in_file output_file : string) (index : Z) (st st1 : state E) (r : result unit) :
  process_file_body E bit_8 in_file output_file (report_progress E len_inputs index st)
  = (r, st1) ->
  process_file E len_inputs bit_8 in_file output_file index st
  = match r with
    | inl _ => (true, st1)
    | inr e => (false, echo ("Unable to load " ++ in_file)%string (echo (exn_str e) st1))
    end.
Proof. unfold process_file. intros ->. now destruct r. Qed.

Lemma report_progress_fs (E : environment) (len_inputs index : Z) (st : state E) :
  fs (report_progress E len_inputs index st) = fs st.
Proof. unfold report_progress. now destruct (index mod 1000 =? 0). Qed.

(** [starmap] collects the results of the workers. *)
Lemma starmap_worked (E : environment) (len_inputs : Z) (bit_8 : bool)
      (tasks : list (string * string * Z)) (st : state E) :
  worked E len_inputs bit_8 tasks st
         (fst (starmap E len_inputs bit_8 tasks st))
         (snd (starmap E len_inputs bit_8 tasks st)).
Proof.
  revert st. induction tasks as [|[[i o] k] rest IH]; intros st; [constructor|].
  cbn [starmap].
  destruct (process_file E len_inputs bit_8 i o k st) as [r st1] eqn:Hp.
  specialize (IH st1).
  destruct (starmap E len_inputs bit_8 rest st1) as [rs st2]. cbn [fst snd] in *.
  now apply worked_task with (st1 := st1).
Qed.

Lemma worked_length (E : environment) (len_inputs : Z) (bit_8 : bool)
      (tasks : list (string * string * Z)) (st st' : state E) (results : list bool) :
  worked E len_inputs bit_8 tasks st results st' ->
  List.length results = List.length tasks.
Proof. induction 1; cbn [List.length]; congruence. Qed.

Lemma count_true_succeeded (results : list bool) : count_true results = succeeded results.
Proof.
  unfold count_true, succeeded. f_equal.
  induction results as [|[|] rs IH]; cbn [List.filter List.length List.count_occ].
  - reflexivity.
  - destruct (Bool.bool_dec true true); [now rewrite IH | congruence].
  - destruct (Bool.bool_dec false true); [discriminate | exact IH].
Qed.

Lemma succeeded_bounds (results : list bool) :
  0 <= succeeded results <= Z.of_nat (List.length results).
Proof. rewrite <- count_true_succeeded. apply count_true_bounds. Qed.

Lemma succeeded_map {A : Type} (f : A -> bool) (l : list A) :
  succeeded (List.map f l) = Z.of_nat (List.length (List.filter f l)).
Proof.
  unfold succeeded. f_equal.
  induction l as [|x l IH]; [reflexivity|].
  cbn [List.map List.count_occ List.filter]. destruct (f x).
  - destruct (Bool.bool_dec true true); [cbn [List.length]; now rewrite IH | congruence].
  - destruct (Bool.bool_dec false true); [discriminate | exact IH].
Qed.

(** An entry that can be converted gives [True], one whose image does not
    open gives [False], in whatever state the worker starts. *)
Lemma process_file_convertible (E : environment) (len_inputs : Z) (bit_8 : bool)
      (input_directory output_directory x : string) (index : Z) (st : state E) :
  convertible E input_directory output_directory bit_8 x ->
  fst (process_file E len_inputs bit_8 (path_join input_directory x)
                    (path_join output_directory (output_name bit_8 x)) index st)
  = true.
Proof.
  intros Hc.
  destruct (Hc (fs (report_progress E len_inputs index st)))
    as [[dt [image Hopen]] [[c Hcam] Hw]].
  destruct (get_scaling_values_some _ c (Z.of_nat (List.length image))
              (console (report_progress E len_inputs index st)) Hcam)
    as [bottom [top [out Hg]]].
  pose proof (process_file_body_written E bit_8 _
                (path_join output_directory (output_name bit_8 x)) _ _ _ _ _ _
                Hopen Hg) as Hb.
  rewrite Hw in Hb.
  now rewrite (process_file_result _ _ _ _ _ _ _ _ _ Hb).
Qed.

Lemma process_file_not_readable (E : environment) (len_inputs : Z) (bit_8 : bool)
      (input_directory x output_file : string) (index : Z) (st : state E) :
  unreadable E input_directory x ->
  fst (process_file E len_inputs bit_8 (path_join input_directory x)
                    output_file index st)
  = false.
Proof.
  intros Hu.
  destruct (Hu (fs (report_progress E len_inputs index st))) as [e He].
  now rewrite (process_file_unreadable _ _ _ _ _ _ _ _ He).
Qed.

Lemma worked_readable (E : environment) (len_inputs : Z) (bit_8 : bool)
      (input_directory output_directory : string) (readable : string -> bool)
      (names : list string) (index : Z) (st st' : state E) (results : list bool) :
  (forall x, In x names ->
     if readable x then convertible E input_directory output_directory bit_8 x
     else unreadable E input_directory x) ->
  worked E len_inputs bit_8
         (make_tasks (List.map (path_join input_directory) names)
                     (List.map (fun x => path_join output_directory (output_name bit_8 x))
                               names)
                     index)
         st results st' ->
  results = List.map readable names.
Proof.
  revert index st results.
  induction names as [|x names IH]; intros index st results Hall Hw;
    cbn [List.map make_tasks] in Hw; inversion Hw; subst; [reflexivity|].
  cbn [List.map]. f_equal.
  - specialize (Hall x (or_introl eq_refl)).
    match goal with
    | Hp : process_file _ _ _ _ _ _ _ = (_, _) |- _ =>
        apply (f_equal fst) in Hp; cbn [fst] in Hp; rewrite <- Hp
    end.
    destruct (readable x).
    + now apply process_file_convertible.
    + now apply process_file_not_readable.
  - match goal with
    | Hr : worked _ _ _ _ _ _ _ |- _ => apply (IH _ _ _ (fun y Hy => Hall y (or_intror Hy)) Hr)
    end.
Qed.

(** [main] when the directory can be listed: the pool runs over the
    tasks and the two closing lines follow. *)
Lemma main_runs (E : environment) (input_directory output_directory : string)
      (bit_8 : bool) (cpu_count : Z) (all_files : list string) (st : state E) :
  listdir E input_directory (fs st) = Ok all_files ->
  1 <= cpu_count ->
  main E input_directory output_directory bit_8 cpu_count st
  = (Ok tt,
     echo ("Completed converting "
           ++ str_of_Z (count_true
                          (fst (starmap E (Z.of_nat (List.length (selected all_files)))
                                  bit_8
                                  (batch_tasks input_directory output_directory bit_8
                                               all_files)
                                  (pool_start E input_directory output_directory bit_8
                                              all_files st))))
           ++ " files")%string
          (echo "Done!"
                (snd (starmap E (Z.of_nat (List.length (selected all_files))) bit_8
                        (batch_tasks input_directory output_directory bit_8 all_files)
                        (pool_start E input_directory output_directory bit_8
                                    all_files st))))).
Proof.
  intros Hls Hcpu.
  destruct (curate_names_length all_files input_directory output_directory bit_8)
    as [Hlin Hlout].
  unfold main, curate_files, batch_tasks.
  cbn [echo set_console console prev_time fs].
  rewrite Hls. unfold Ok at 1 2. cbv beta iota.
  destruct (curate_names all_files input_directory output_directory bit_8)
    as [input_files output_files] eqn:Hcn.
  cbn [fst snd] in *.
  rewrite Pool_ok by (apply num_workers_pos; exact Hcpu).
  unfold Ok at 1. cbv beta iota.
  rewrite Hlin. unfold pool_start.
  rewrite <- !List.app_assoc. cbn [List.app].
  destruct (starmap _ _ _ _ _) as [results st2].
  reflexivity.
Qed.

(** C5.  Inside [process_file] a failure to open the image, an exception
    of the scaling policy and a failure of the writer are each caught:
    the worker prints the exception, prints the path of the file, and
    returns [False]; it returns [True] when the writer succeeds.  [main]
    then runs to its end: it reports as found the number of listed names
    that contain [16BIT.PNG]; the results are those of the workers on the
    tasks, one for each such name; the number reported as converted is
    the number of [True] among them.  When the images of some entries do
    not open and every other entry can be converted, the results say so
    entry by entry, and the number converted is the number of entries
    whose image opens. *)
Theorem batch_contains_failures (E : environment)
        (input_directory output_directory : string)
        (bit_8 : bool) (cpu_count : Z) (all_files : list string) (st : state E) :
  listdir E input_directory (fs st) = Ok all_files ->
  1 <= cpu_count ->
  (forall len_inputs in_file output_file index s,
      let s0 := report_progress E len_inputs index s in
      (forall e, image_open E in_file (fs s0) = Raise e ->
         process_file E len_inputs bit_8 in_file output_file index s
         = (false, echo ("Unable to load " ++ in_file)%string (echo (exn_str e) s0))) /\
      (forall dt image, image_open E in_file (fs s0) = Ok (dt, image) ->
         (forall e out,
             get_scaling_values in_file (Z.of_nat (List.length image)) (console s0)
             = (Raise e, out) ->
             process_file E len_inputs bit_8 in_file output_file index s
             = (false, echo ("Unable to load " ++ in_file)%string
                            (echo (exn_str e) (set_console s0 out)))) /\
         (forall bottom top out,
             get_scaling_values in_file (Z.of_nat (List.length image)) (console s0)
             = (Ok (bottom, top), out) ->
             let written :=
               (if bit_8 then image_save E else png_write E)
                 output_file (amap (rescale (cast_undefined E) dt bit_8 bottom top) image)
                 (fs s0) in
             (forall e, fst written = Raise e ->
                process_file E len_inputs bit_8 in_file output_file index s
                = (false, echo ("Unable to load " ++ in_file)%string
                               (echo (exn_str e)
                                     (set_fs (set_console s0 out) (snd written))))) /\
             (fst written = Ok tt ->
              process_file E len_inputs bit_8 in_file output_file index s
              = (true, set_fs (set_console s0 out) (snd written)))))) /\
  (forall x, In x (selected all_files) <-> In x all_files /\ contains "16BIT.PNG" x) /\
  let total := Z.of_nat (List.length (selected all_files)) in
  exists (results : list bool) (st_end : state E),
    worked E total bit_8
           (batch_tasks input_directory output_directory bit_8 all_files)
           (pool_start E input_directory output_directory bit_8 all_files st)
           results st_end /\
    Z.of_nat (List.length results) = total /\
    0 <= succeeded results <= total /\
    main E input_directory output_directory bit_8 cpu_count st
    = (Ok tt,
       echo ("Completed converting " ++ str_of_Z (succeeded results) ++ " files")%string
            (echo "Done!" st_end)) /\
    forall readable : string -> bool,
      (forall x, In x (selected all_files) ->
         if readable x then convertible E input_directory output_directory bit_8 x
         else unreadable E input_directory x) ->
      results = List.map readable (selected all_files) /\
      succeeded results
      = Z.of_nat (List.length (List.filter readable (selected all_files))).
Proof.
  intros Hls Hcpu. split; [|split; [apply selected_contains|]].
  - intros len_inputs in_file output_file index s s0. split.
    + intros e He. now apply process_file_unreadable.
    + intros dt image Hopen. split.
      * intros e out Hg.
        pose proof (process_file_body_policy E bit_8 in_file output_file s0
                      dt image e out Hopen Hg) as Hb.
        exact (process_file_result _ _ _ _ _ _ _ _ _ Hb).
      * intros bottom top out Hg written.
        pose proof (process_file_body_written E bit_8 in_file output_file s0
                      dt image bottom top out Hopen Hg) as Hb.
        fold written in Hb. split.
        -- intros e He. rewrite He in Hb.
           exact (process_file_result _ _ _ _ _ _ _ _ _ Hb).
        -- intros Hok. rewrite Hok in Hb.
           exact (process_file_result _ _ _ _ _ _ _ _ _ Hb).
  - intros total.
    destruct (curate_names_length all_files input_directory output_directory bit_8)
      as [Hlin Hlout].
    assert (Hn : List.length (batch_tasks input_directory output_directory bit_8 all_files)
                 = List.length (selected all_files)).
    { unfold batch_tasks. rewrite make_tasks_length by congruence. exact Hlin. }
    pose proof (starmap_worked E total bit_8
                  (batch_tasks input_directory output_directory bit_8 all_files)
                  (pool_start E input_directory output_directory bit_8 all_files st))
      as Hw.
    pose proof (main_runs E input_directory output_directory bit_8 cpu_count
                  all_files st Hls Hcpu) as Hmain.
    fold total in Hmain.
    destruct (starmap E total bit_8
                (batch_tasks input_directory output_directory bit_8 all_files)
                (pool_start E input_directory output_directory bit_8 all_files st))
      as [results st_end].
    cbn [fst snd] in Hw, Hmain.
    exists results, st_end.
    pose proof (worked_length _ _ _ _ _ _ _ Hw) as Hlen.
    split; [exact Hw|]. split; [unfold total; now rewrite Hlen, Hn|].
    split.
    { pose proof (succeeded_bounds results) as Hb.
      rewrite Hlen, Hn in Hb. exact Hb. }
    split; [now rewrite <- count_true_succeeded|].
    intros readable Hall.
    assert (Hres : results = List.map readable (selected all_files)).
    { unfold batch_tasks in Hw. rewrite curate_names_eq in Hw. cbn [fst snd] in Hw.
      exact (worked_readable _ _ _ _ _ _ _ _ _ _ _ Hall Hw). }
    split; [exact Hres|]. rewrite Hres. apply succeeded_map.
Qed.

(** ** A file name without camera token *)

Lemma camera_of_none (filename : string) :
  (forall t, In t (str_split "_"%char (basename filename)) ->
             t <> "P" /\ t <> "C" /\ t <> "S") ->
  camera_of filename = None.
Proof.
  intros H. unfold camera_of.
  destruct (List.find is_camera_token _) as [c|] eqn:Hf; [|reflexivity].
  destruct (List.find_some _ _ Hf) as [Hin _].
  destruct (camera_of_token filename c Hf) as [->|[->| ->]];
    destruct (H _ Hin) as [? [? ?]]; congruence.
Qed.

(** C3, as the code behaves.  When no token of the basename is [P], [C]
    or [S], [get_scaling_values] prints the warning and then raises
    [UnboundLocalError] instead of returning the default bounds, and
    [process_file] returns [False] for that file even when the image
    loads. *)
Theorem unparseable_filename_fails (E : environment) (filename : string) :
  (forall t, In t (str_split "_"%char (basename filename)) ->
             t <> "P" /\ t <> "C" /\ t <> "S") ->
  (forall num_rows out,
      get_scaling_values filename num_rows out
      = (Raise (UnboundLocalError "camera_pos"),
         out ++ [("Warning: Bad filename format " ++ filename)%string])) /\
  (forall len_inputs bit_8 output_file index st,
      fst (process_file E len_inputs bit_8 filename output_file index st) = false).
Proof.
  intros Htok. pose proof (camera_of_none filename Htok) as Hc.
  split.
  - intros num_rows out. now rewrite get_scaling_values_eq, Hc.
  - intros len_inputs bit_8 output_file index st.
    unfold process_file, process_file_body.
    destruct (image_open E filename _) as [[dt cur_data]|e]; [|reflexivity].
    rewrite get_scaling_values_eq, Hc. reflexivity.
Qed.

(** ** Linear normalisation: properties *)

Lemma int32_small (z : Z) : - 2 ^ 31 <= z < 2 ^ 31 -> int32 z = z.
Proof. intros H. unfold int32. rewrite Z.mod_small; lia. Qed.

Lemma int32_range (z : Z) : - 2 ^ 31 <= int32 z < 2 ^ 31.
Proof.
  unfold int32. pose proof (Z.mod_pos_bound (z + 2 ^ 31) (2 ^ 32) ltac:(lia)). lia.
Qed.

Lemma grid16_sample (image_array : ndarray) (row : list Z) (v : Z) :
  grid16 image_array -> In row image_array -> In v row -> sample16 v.
Proof.
  intros Hg Hrow Hv. unfold grid16 in Hg. rewrite Forall_forall in Hg.
  specialize (Hg row Hrow). rewrite Forall_forall in Hg. now apply Hg.
Qed.

(** A difference that is a value of the element type is not changed by
    the subtraction in that type; in [uint16] a negative difference comes
    out [2^16] larger. *)
Lemma wrap_fits (dt : dtype) (z : Z) : fits dt z = true -> wrap dt z = z.
Proof.
  intros H. apply fits_range in H. destruct dt; unfold wrap.
  - apply Z.mod_small. lia.
  - apply int32_small. lia.
Qed.

Lemma wrap_16bit (dt : dtype) (v bottom : Z) :
  sample16 v -> 0 <= bottom < 2 ^ 16 -> bottom <= v \/ dt = i32 ->
  wrap dt (v - bottom) = v - bottom.
Proof.
  unfold sample16. intros Hv Hb Hc. apply wrap_fits.
  destruct dt; unfold fits; [|lia].
  destruct Hc as [Hc|Hc]; [lia | discriminate].
Qed.

Lemma wrap_borrow (v bottom : Z) :
  0 <= v -> v < bottom -> bottom < 2 ^ 16 ->
  wrap u16 (v - bottom) = v - bottom + 2 ^ 16.
Proof.
  intros Hv Hlt Hb. unfold wrap.
  rewrite <- (Z.mod_add (v - bottom) 1 (2 ^ 16)) by lia.
  rewrite Z.mod_small; lia.
Qed.

(** One sample whose difference to [bottom] is taken without
    wrap-around, for a width that converts to binary64 as it is. *)
Lemma level_linear (cast : Z -> spec_float -> Z) (bit_8 : bool) (bottom top v : Z) :
  bottom < top -> top - bottom < 2 ^ 53 -> - 2 ^ 53 < v - bottom < 2 ^ 53 ->
  spec_level bit_8 bottom top v
  = Some (sample_out cast bit_8 (v - bottom) (top - bottom)) /\
  0 <= sample_out cast bit_8 (v - bottom) (top - bottom) <= 2 ^ bit_depth bit_8 - 1 /\
  (v = bottom -> sample_out cast bit_8 (v - bottom) (top - bottom) = 0) /\
  (v = top -> sample_out cast bit_8 (v - bottom) (top - bottom) = 2 ^ bit_depth bit_8 - 1) /\
  (v < bottom -> sample_out cast bit_8 (v - bottom) (top - bottom) = 0) /\
  (top < v -> sample_out cast bit_8 (v - bottom) (top - bottom) = 2 ^ bit_depth bit_8 - 1).
Proof.
  intros Hbt Hw Hv. unfold spec_level.
  rewrite <- full_scale_depth.
  destruct (sample_out_range cast bit_8 (v - bottom) (top - bottom)) as [Hspec Hrange];
    try lia.
  split; [exact Hspec|]. split; [exact Hrange|].
  split; [|split; [|split]].
  - intros ->. apply sample_out_nonpos; lia.
  - intros ->. apply sample_out_top; lia.
  - intros Hlt. apply sample_out_nonpos; lia.
  - intros Hgt. apply sample_out_above; lia.
Qed.

Lemma rescale_no_wrap (cast : Z -> spec_float -> Z) (dt : dtype) (bit_8 : bool)
      (bottom top v : Z) :
  wrap dt (v - bottom) = v - bottom ->
  rescale cast dt bit_8 bottom top v
  = sample_out cast bit_8 (v - bottom) (top - bottom).
Proof. intros H. unfold rescale. now rewrite H. Qed.

(** In a [uint16] array a sample below [bottom] comes out with the
    largest value: its difference to [bottom] wraps around to a value
    above the width. *)
Lemma rescale_borrow (cast : Z -> spec_float -> Z) (bit_8 : bool) (bottom top v : Z) :
  0 <= v -> v < bottom -> bottom < top -> top < 2 ^ 16 ->
  rescale cast u16 bit_8 bottom top v = 2 ^ bit_depth bit_8 - 1.
Proof.
  intros Hv Hlt Hbt Ht. unfold rescale.
  rewrite wrap_borrow by lia. rewrite <- full_scale_depth.
  apply sample_out_above; lia.
Qed.

(** One sample of a grid of 16-bit samples, for bounds in the 16-bit
    range. *)
Lemma rescale_linear (cast : Z -> spec_float -> Z) (dt : dtype) (bit_8 : bool)
      (bottom top v : Z) :
  0 <= bottom -> bottom < top -> top < 2 ^ 16 -> sample16 v ->
  0 <= rescale cast dt bit_8 bottom top v <= 2 ^ bit_depth bit_8 - 1 /\
  (bottom <= v \/ dt = i32 ->
   spec_level bit_8 bottom top v = Some (rescale cast dt bit_8 bottom top v)) /\
  (v = bottom -> rescale cast dt bit_8 bottom top v = 0) /\
  (v = top -> rescale cast dt bit_8 bottom top v = 2 ^ bit_depth bit_8 - 1) /\
  (top < v -> rescale cast dt bit_8 bottom top v = 2 ^ bit_depth bit_8 - 1) /\
  (v < bottom -> dt = i32 -> rescale cast dt bit_8 bottom top v = 0) /\
  (v < bottom -> dt = u16 -> rescale cast dt bit_8 bottom top v = 2 ^ bit_depth bit_8 - 1).
Proof.
  intros Hb Hbt Ht Sv.
  assert (Hplain : bottom <= v \/ dt = i32 ->
                   rescale cast dt bit_8 bottom top v
                   = sample_out cast bit_8 (v - bottom) (top - bottom)).
  { intros Hc. apply rescale_no_wrap. apply wrap_16bit; [exact Sv | lia | exact Hc]. }
  unfold sample16 in Sv.
  destruct (level_linear cast bit_8 bottom top v) as [L1 [L2 [L3 [L4 [L5 L6]]]]];
    try lia.
  split; [|split; [|split; [|split; [|split; [|split]]]]].
  - destruct (Z_le_gt_dec bottom v) as [Hge|Hlt].
    + now rewrite Hplain by (now left).
    + destruct dt.
      * rewrite rescale_borrow by lia. rewrite <- full_scale_depth.
        destruct bit_8; cbn; lia.
      * now rewrite Hplain by (now right).
  - intros Hc. now rewrite (Hplain Hc).
  - intros ->. rewrite Hplain by (left; lia). now apply L3.
  - intros ->. rewrite Hplain by (left; lia). now apply L4.
  - intros Hgt. rewrite Hplain by (left; lia). now apply L6.
  - intros Hlt ->. rewrite Hplain by (now right). now apply L5.
  - intros Hlt ->. apply rescale_borrow; lia.
Qed.

Lemma rescale_monotone (cast : Z -> spec_float -> Z) (dt : dtype) (bit_8 : bool)
      (bottom top v1 v2 : Z) :
  0 <= bottom -> bottom < top -> top < 2 ^ 16 -> sample16 v1 -> sample16 v2 ->
  v1 <= v2 -> bottom <= v1 \/ dt = i32 ->
  rescale cast dt bit_8 bottom top v1 <= rescale cast dt bit_8 bottom top v2.
Proof.
  intros Hb Hbt Ht S1 S2 Hle Hc.
  assert (Hc2 : bottom <= v2 \/ dt = i32) by (destruct Hc; [left; lia | now right]).
  rewrite (rescale_no_wrap cast dt bit_8 bottom top v1)
    by (apply wrap_16bit; [exact S1 | lia | exact Hc]).
  rewrite (rescale_no_wrap cast dt bit_8 bottom top v2)
    by (apply wrap_16bit; [exact S2 | lia | exact Hc2]).
  unfold sample16 in *. apply sample_out_mono; lia.
Qed.

(** C1, as the code behaves.  For a grid of 16-bit samples and bounds
    [0 <= bottom < top < 2^16] every output lies in [[0, 2^d - 1]], with
    [d = 8] when [bit_8] holds and [d = 16] otherwise; a sample [v] at or
    above [bottom] gives the floor of the quotient
    [(v - bottom) / (top - bottom)], taken in binary64, clipped to [0, 1]
    and multiplied by [2^d - 1]: 0 at [bottom], [2^d - 1] at [top] and
    above.  A sample below [bottom] gives 0 when the array is [int32];
    when it is [uint16] the subtraction wraps around before the clipping
    and the sample gives [2^d - 1]. *)
Theorem lin_normalize_image_linear (cast : Z -> spec_float -> Z) (dt : dtype)
        (image_array : ndarray) (bit_8 : bool) (bottom top : Z) :
  grid16 image_array -> 0 <= bottom -> bottom < top -> top < 2 ^ 16 ->
  lin_normalize_image cast dt image_array bit_8 (Some bottom) (Some top)
  = Ok (amap (rescale cast dt bit_8 bottom top) image_array) /\
  forall row v, In row image_array -> In v row ->
    0 <= rescale cast dt bit_8 bottom top v <= 2 ^ bit_depth bit_8 - 1 /\
    (bottom <= v \/ dt = i32 ->
     spec_level bit_8 bottom top v = Some (rescale cast dt bit_8 bottom top v)) /\
    (v = bottom -> rescale cast dt bit_8 bottom top v = 0) /\
    (v = top -> rescale cast dt bit_8 bottom top v = 2 ^ bit_depth bit_8 - 1) /\
    (top < v -> rescale cast dt bit_8 bottom top v = 2 ^ bit_depth bit_8 - 1) /\
    (v < bottom -> dt = i32 -> rescale cast dt bit_8 bottom top v = 0) /\
    (v < bottom -> dt = u16 ->
     rescale cast dt bit_8 bottom top v = 2 ^ bit_depth bit_8 - 1).
Proof.
  intros Hgrid Hb Hbt Ht.
  split; [apply lin_normalize_image_explicit; [apply fits_16bit|]; lia|].
  intros row v Hrow Hv.
  apply rescale_linear; try assumption.
  exact (grid16_sample image_array row v Hgrid Hrow Hv).
Qed.

(** C6, as the code behaves.  With bounds [0 <= bottom < top < 2^16] and
    a fixed bit depth, of two samples of a grid of 16-bit samples the
    smaller one does not get the larger output when the array is [int32],
    or when the smaller sample is not below [bottom].  In a [uint16]
    array a sample below [bottom] gets [2^d - 1], more than the 0 of a
    sample equal to [bottom]. *)
Theorem lin_normalize_image_monotone (cast : Z -> spec_float -> Z) (dt : dtype)
        (image_array : ndarray) (bit_8 : bool) (bottom top : Z) :
  grid16 image_array -> 0 <= bottom -> bottom < top -> top < 2 ^ 16 ->
  lin_normalize_image cast dt image_array bit_8 (Some bottom) (Some top)
  = Ok (amap (rescale cast dt bit_8 bottom top) image_array) /\
  (forall row1 v1 row2 v2,
     In row1 image_array -> In v1 row1 -> In row2 image_array -> In v2 row2 ->
     v1 <= v2 -> bottom <= v1 \/ dt = i32 ->
     rescale cast dt bit_8 bottom top v1 <= rescale cast dt bit_8 bottom top v2) /\
  (dt = u16 ->
   forall row1 v1, In row1 image_array -> In v1 row1 -> v1 < bottom ->
     rescale cast dt bit_8 bottom top bottom = 0 /\
     rescale cast dt bit_8 bottom top v1 = 2 ^ bit_depth bit_8 - 1 /\
     rescale cast dt bit_8 bottom top bottom < rescale cast dt bit_8 bottom top v1).
Proof.
  intros Hgrid Hb Hbt Ht.
  split; [apply lin_normalize_image_explicit; [apply fits_16bit|]; lia|].
  split.
  - intros row1 v1 row2 v2 Hrow1 Hv1 Hrow2 Hv2 Hle Hc.
    pose proof (grid16_sample image_array row1 v1 Hgrid Hrow1 Hv1) as Hs1.
    pose proof (grid16_sample image_array row2 v2 Hgrid Hrow2 Hv2) as Hs2.
    now apply rescale_monotone.
  - intros -> row1 v1 Hrow1 Hv1 Hlt.
    pose proof (grid16_sample image_array row1 v1 Hgrid Hrow1 Hv1) as Hs1.
    assert (Sb : sample16 bottom) by (unfold sample16; lia).
    destruct (rescale_linear cast u16 bit_8 bottom top bottom Hb Hbt Ht Sb)
      as [_ [_ [Hz _]]].
    unfold sample16 in Hs1.
    rewrite (Hz eq_refl), (rescale_borrow cast bit_8 bottom top v1) by lia.
    split; [reflexivity|]. split; [reflexivity|].
    destruct bit_8; cbn; lia.
Qed.

(** The quotient by a width of zero: an infinity, or NaN. *)
Lemma sample_out_zero_width (cast : Z -> spec_float -> Z) (bit_8 : bool) (n : Z) :
  - 2 ^ 53 < n < 2 ^ 53 ->
  sample_out cast bit_8 n 0
  = if 0 <? n then 2 ^ bit_depth bit_8 - 1
    else if n <? 0 then 0
    else cast (bit_depth bit_8) S754_nan.
Proof.
  intros Hn. unfold sample_out.
  destruct (Z.ltb_spec 0 n) as [Hpos|Hnp].
  - destruct (of_Z_exact n ltac:(lia)) as [j [_ [_ [-> _]]]].
    change (clip01 (F64.div (nf false (n * 2 ^ j) (- j)) (F64.of_Z 0)))
      with (F64.of_Z 1).
    rewrite quantize_one. apply full_scale_depth.
  - destruct (Z.ltb_spec n 0) as [Hneg|Hz].
    + destruct (of_Z_exact (- n) ltac:(lia)) as [j [_ [_ [_ E]]]].
      rewrite Z.opp_involutive in E. rewrite E.
      change (clip01 (F64.div (nf true (- n * 2 ^ j) (- j)) (F64.of_Z 0)))
        with (S754_zero false).
      apply quantize_zero.
    + replace n with 0 by lia. destruct bit_8; reflexivity.
Qed.

(** C2, as the code behaves.  With [top = bottom], a bound in the 16-bit
    range and a grid of 16-bit samples, nothing is raised: the result is
    a grid of the shape of the input in which a sample above the bound is
    [2^d - 1] and a sample equal to it is what the platform makes of the
    conversion of NaN; a sample below the bound is 0 in an [int32] array
    and [2^d - 1] in a [uint16] array. *)
Theorem lin_normalize_image_equal_bounds (cast : Z -> spec_float -> Z) (dt : dtype)
        (image_array : ndarray) (bit_8 : bool)
        (bound : Z) :
  grid16 image_array -> 0 <= bound < 2 ^ 16 ->
  lin_normalize_image cast dt image_array bit_8 (Some bound) (Some bound)
  = Ok (amap (rescale cast dt bit_8 bound bound) image_array) /\
  shape (amap (rescale cast dt bit_8 bound bound) image_array) = shape image_array /\
  forall row v, In row image_array -> In v row ->
    (bound < v -> rescale cast dt bit_8 bound bound v = 2 ^ bit_depth bit_8 - 1) /\
    (v = bound ->
     rescale cast dt bit_8 bound bound v = cast (bit_depth bit_8) S754_nan) /\
    (v < bound ->
     rescale cast dt bit_8 bound bound v
     = match dt with
       | i32 => 0
       | u16 => 2 ^ bit_depth bit_8 - 1
       end).
Proof.
  intros Hgrid Hb.
  split; [apply lin_normalize_image_explicit; [apply fits_16bit|]; lia|].
  split; [apply shape_amap|].
  intros row v Hrow Hv.
  pose proof (grid16_sample image_array row v Hgrid Hrow Hv) as Sv.
  assert (Hplain : bound <= v \/ dt = i32 ->
                   rescale cast dt bit_8 bound bound v
                   = sample_out cast bit_8 (v - bound) 0).
  { intros Hc. unfold rescale. rewrite Z.sub_diag.
    now rewrite wrap_16bit by (try assumption; lia). }
  unfold sample16 in Sv.
  split; [|split].
  - intros Hgt. rewrite Hplain by (left; lia).
    rewrite sample_out_zero_width by lia.
    destruct (Z.ltb_spec 0 (v - bound)); [reflexivity | lia].
  - intros ->. rewrite Hplain by (left; lia).
    rewrite sample_out_zero_width by lia. now rewrite Z.sub_diag.
  - intros Hlt. destruct dt.
    + unfold rescale. rewrite Z.sub_diag, wrap_borrow by lia.
      rewrite sample_out_zero_width by lia.
      destruct (Z.ltb_spec 0 (v - bound + 2 ^ 16)); [reflexivity | lia].
    + rewrite Hplain by (now right).
      rewrite sample_out_zero_width by lia.
      destruct (Z.ltb_spec 0 (v - bound)); [lia|].
      destruct (Z.ltb_spec (v - bound) 0); [reflexivity | lia].
Qed.

(** ** Tokens *)

Lemma str_split_nonempty (sep : ascii) (s : string) : str_split sep s <> [].
Proof.
  destruct s as [|c s]; cbn [str_split]; [discriminate|].
  destruct (Ascii.eqb c sep); [discriminate|].
  destruct (str_split sep s); discriminate.
Qed.

Lemma str_split_cons (sep c : ascii) (s : string) :
  c <> sep ->
  exists h t, str_split sep s = h :: t /\ str_split sep (String c s) = String c h :: t.
Proof.
  intros Hc. cbn [str_split].
  destruct (Ascii.eqb_spec c sep) as [E|_]; [congruence|].
  destruct (str_split sep s) as [|h t] eqn:Hs.
  - now apply str_split_nonempty in Hs.
  - now exists h, t.
Qed.

Lemma str_join_cons_char (sep c : ascii) (h : string) (t : list string) :
  str_join sep (String c h :: t) = String c (str_join sep (h :: t)).
Proof. destruct t; reflexivity. Qed.

Lemma str_join_split (sep : ascii) (s : string) : str_join sep (str_split sep s) = s.
Proof.
  induction s as [|c s IH]; [reflexivity|].
  destruct (Ascii.eqb_spec c sep) as [->|Hc].
  - cbn [str_split]. rewrite Ascii.eqb_refl.
    destruct (str_split sep s) as [|h t] eqn:Hs; [now apply str_split_nonempty in Hs|].
    change (str_join sep (EmptyString :: h :: t))
      with (String sep (str_join sep (h :: t))).
    now rewrite IH.
  - destruct (str_split_cons sep c s Hc) as [h [t [Hs ->]]].
    rewrite str_join_cons_char, <- Hs, IH. reflexivity.
Qed.

Lemma str_split_free (sep : ascii) (s : string) :
  forall t, In t (str_split sep s) -> free_of sep t.
Proof.
  induction s as [|c s IH]; intros t Ht.
  - destruct Ht as [<-|[]]. intros d [].
  - destruct (Ascii.eqb_spec c sep) as [->|Hc].
    + cbn [str_split] in Ht. rewrite Ascii.eqb_refl in Ht.
      destruct Ht as [<-|Ht]; [intros d []|now apply IH].
    + destruct (str_split_cons sep c s Hc) as [h [tl [Hs Hs']]].
      rewrite Hs' in Ht. rewrite Hs in IH.
      destruct Ht as [<-|Ht].
      * intros d [<-|Hd]; [exact Hc|]. apply (IH h); [now left | exact Hd].
      * apply IH. now right.
Qed.

Lemma str_split_length (sep : ascii) (s : string) :
  List.length (str_split sep s) = S (count_char sep s).
Proof.
  induction s as [|c s IH]; [reflexivity|].
  cbn [count_char].
  destruct (Ascii.eqb_spec c sep) as [->|Hc].
  - cbn [str_split]. rewrite Ascii.eqb_refl. cbn [List.length]. now rewrite IH.
  - destruct (str_split_cons sep c s Hc) as [h [t [Hs ->]]].
    rewrite <- IH, Hs. reflexivity.
Qed.

Lemma str_split_free_string (sep : ascii) (x : string) :
  free_of sep x -> str_split sep x = [x].
Proof.
  induction x as [|c x IH]; intros Hx; [reflexivity|].
  assert (Hc : c <> sep) by (apply Hx; now left).
  cbn [str_split]. destruct (Ascii.eqb_spec c sep) as [E|_]; [congruence|].
  rewrite IH; [reflexivity|]. intros d Hd. apply Hx. now right.
Qed.

Lemma str_split_app (sep : ascii) (x rest : string) :
  free_of sep x ->
  str_split sep (x ++ String sep rest) = x :: str_split sep rest.
Proof.
  induction x as [|c x IH]; intros Hx.
  - cbn [append str_split]. now rewrite Ascii.eqb_refl.
  - assert (Hc : c <> sep) by (apply Hx; now left).
    cbn [append str_split]. destruct (Ascii.eqb_spec c sep) as [E|_]; [congruence|].
    rewrite IH; [reflexivity|]. intros d Hd. apply Hx. now right.
Qed.

Lemma str_split_join (sep : ascii) (l : list string) :
  l <> [] -> (forall t, In t l -> free_of sep t) -> str_split sep (str_join sep l) = l.
Proof.
  induction l as [|x l IH]; intros Hne Hfree; [congruence|].
  destruct l as [|y l].
  - cbn [str_join]. apply str_split_free_string. apply Hfree. now left.
  - change (str_join sep (x :: y :: l)) with (x ++ String sep (str_join sep (y :: l)))%string.
    rewrite str_split_app by (apply Hfree; now left).
    rewrite IH; [reflexivity | discriminate |].
    intros t Ht. apply Hfree. now right.
Qed.

(** X1.  [split('_')] cuts a string at its underscores and nowhere else:
    joining the tokens with underscores restores the string, no token
    contains an underscore, there is one token more than there are
    underscores, and the tokens of a joined list are that list. *)
Theorem str_split_round_trip (sep : ascii) (s : string) :
  str_join sep (str_split sep s) = s /\
  (forall t, In t (str_split sep s) -> free_of sep t) /\
  List.length (str_split sep s) = S (count_char sep s) /\
  (forall l, l <> [] -> (forall t, In t l -> free_of sep t) ->
             str_split sep (str_join sep l) = l).
Proof.
  split; [apply str_join_split|].
  split; [apply str_split_free|].
  split; [apply str_split_length | apply str_split_join].
Qed.

(** ** Paths *)

Lemma free_of_existsb (c : ascii) (s : string) :
  free_of c s -> existsb (Ascii.eqb c) (list_ascii_of_string s) = false.
Proof.
  induction s as [|d s IH]; intros H; [reflexivity|].
  cbn [list_ascii_of_string existsb].
  destruct (Ascii.eqb_spec c d) as [E|_].
  - exfalso. apply (H d); [now left | congruence].
  - apply IH. intros x Hx. apply H. now right.
Qed.

Lemma free_of_tail (c d : ascii) (s : string) : free_of c (String d s) -> free_of c s.
Proof. intros H x Hx. apply H. now right. Qed.

Lemma basename_free (x : string) : free_of "/" x -> basename x = x.
Proof.
  destruct x as [|c x]; intros H; [reflexivity|].
  cbn [basename]. rewrite (free_of_existsb _ _ (free_of_tail _ _ _ H)).
  destruct (Ascii.eqb_spec c "/"%char) as [E|_]; [|reflexivity].
  exfalso. apply (H c); [now left | exact E].
Qed.

Lemma existsb_slash_app (p x : string) :
  existsb (Ascii.eqb "/"%char) (list_ascii_of_string (p ++ String "/" x)) = true.
Proof.
  induction p as [|c p IH]; cbn [append list_ascii_of_string existsb].
  - reflexivity.
  - rewrite IH. apply orb_true_r.
Qed.

Lemma basename_app (p x : string) :
  free_of "/" x -> basename (p ++ String "/" x) = x.
Proof.
  intros Hx. induction p as [|c p IH].
  - cbn [append basename]. now rewrite (free_of_existsb _ _ Hx).
  - cbn [append basename]. now rewrite existsb_slash_app.
Qed.

Lemma str_app_assoc (a b c : string) : ((a ++ b) ++ c = a ++ (b ++ c))%string.
Proof. induction a as [|x a IH]; cbn [append]; [reflexivity | now rewrite IH]. Qed.

Lemma str_app_length (a b : string) :
  String.length (a ++ b) = (String.length a + String.length b)%nat.
Proof. induction a as [|x a IH]; cbn [append String.length]; [reflexivity | now rewrite IH]. Qed.

Lemma last_char_slash (a : string) :
  a <> "" -> String.eqb (substring (Nat.pred (String.length a)) 1 a) "/" = true ->
  exists a', a = (a' ++ "/")%string.
Proof.
  induction a as [|c a IH]; intros Hne H; [congruence|].
  destruct a as [|d a].
  - apply String.eqb_eq in H. cbn in H. exists "". now rewrite H.
  - destruct IH as [a' Ha']; [discriminate | exact H |].
    exists (String c a'). cbn [append]. now rewrite <- Ha'.
Qed.

Lemma prefix_slash_free (x : string) : free_of "/" x -> prefix "/" x = false.
Proof.
  destruct x as [|c x]; intros H; [reflexivity|].
  cbn [prefix]. destruct (ascii_dec "/" c) as [E|_]; [|reflexivity].
  exfalso. apply (H c); [now left | congruence].
Qed.

Lemma basename_path_join (dir x : string) :
  free_of "/" x -> basename (path_join dir x) = x.
Proof.
  intros Hx. unfold path_join. rewrite (prefix_slash_free x Hx).
  destruct (Nat.eqb_spec (String.length dir) 0) as [_|Hlen];
    [now apply basename_free|].
  destruct (String.eqb (substring (Nat.pred (String.length dir)) 1 dir) "/") eqn:E.
  - destruct (last_char_slash dir) as [a' ->]; [now destruct dir | exact E |].
    rewrite str_app_assoc. change ("/" ++ x)%string with (String "/" x).
    now apply basename_app.
  - now apply basename_app.
Qed.

(** X2.  The directory plays no part in the scaling policy: for an entry
    [x] of a directory (a name without slash), [os.path.join(dir, x)] has
    basename [x], the same camera position as [x], and the same bounds or
    the same exception, whatever [dir] contains. *)
Theorem directory_is_ignored (dir x : string) (num_rows : Z) (out : list string) :
  free_of "/" x ->
  basename (path_join dir x) = x /\
  camera_of (path_join dir x) = camera_of x /\
  fst (get_scaling_values (path_join dir x) num_rows out)
  = fst (get_scaling_values x num_rows out).
Proof.
  intros Hx. pose proof (basename_path_join dir x Hx) as Hb.
  assert (Hc : camera_of (path_join dir x) = camera_of x).
  { unfold camera_of. now rewrite Hb, (basename_free x Hx). }
  split; [exact Hb|]. split; [exact Hc|].
  rewrite !get_scaling_values_eq, Hc.
  destruct (camera_of x) as [c|]; [|reflexivity].
  destruct (String.eqb c "P"); [|destruct (String.eqb c "C"); reflexivity].
  destruct (num_rows =? 512); [reflexivity|].
  destruct (num_rows =? 480); reflexivity.
Qed.

Lemma free_of_join (c sep : ascii) (l : list string) :
  c <> sep -> (forall t, In t l -> free_of c t) -> free_of c (str_join sep l).
Proof.
  intros Hc. induction l as [|x l IH]; intros H; [intros d []|].
  destruct l as [|y l]; [apply H; now left|].
  change (str_join sep (x :: y :: l)) with (x ++ String sep (str_join sep (y :: l)))%string.
  assert (Hx : free_of c x) by (apply H; now left).
  assert (Hr : free_of c (str_join sep (y :: l))) by (apply IH; intros t Ht; apply H; now right).
  clear IH H. induction x as [|e x IHx].
  - intros d [<-|Hd]; [congruence | now apply Hr].
  - intros d [<-|Hd]; [apply Hx; now left|].
    apply (IHx (free_of_tail _ _ _ Hx)). exact Hd.
Qed.

(** X3.  The camera position of a file name put together from tokens is
    the first token that is [P], [C] or [S]: tokens after it, and a
    directory in front, change nothing; without such a token the call
    raises. *)
Theorem first_camera_token_decides (dir : string) (tokens : list string)
        (num_rows : Z) (out : list string) :
  tokens <> [] ->
  (forall t, In t tokens -> free_of "_" t /\ free_of "/" t) ->
  camera_of (path_join dir (str_join "_" tokens)) = List.find is_camera_token tokens /\
  (List.find is_camera_token tokens = None ->
   fst (get_scaling_values (path_join dir (str_join "_" tokens)) num_rows out)
   = Raise (UnboundLocalError "camera_pos")) /\
  (forall pre c post,
      tokens = pre ++ c :: post ->
      (forall t, In t pre -> is_camera_token t = false) ->
      is_camera_token c = true ->
      camera_of (path_join dir (str_join "_" tokens)) = Some c).
Proof.
  intros Hne Hfree.
  assert (Hslash : free_of "/" (str_join "_" tokens)).
  { apply free_of_join; [discriminate|]. intros t Ht. now apply Hfree. }
  assert (Hcam : camera_of (path_join dir (str_join "_" tokens))
                 = List.find is_camera_token tokens).
  { unfold camera_of. rewrite basename_path_join by exact Hslash.
    rewrite str_split_join; [reflexivity | exact Hne |].
    intros t Ht. now apply Hfree. }
  split; [exact Hcam|]. split.
  - intros Hnone. rewrite get_scaling_values_eq, Hcam, Hnone. reflexivity.
  - intros pre c post -> Hpre Hc. rewrite Hcam.
    clear Hne Hfree Hslash Hcam. induction pre as [|p pre IH]; cbn [List.app List.find].
    + now rewrite Hc.
    + rewrite (Hpre p (or_introl eq_refl)). apply IH.
      intros t Ht. apply Hpre. now right.
Qed.

(** ** Output names *)

Lemma prefix_empty (s : string) : prefix "" s = true.
Proof. now destruct s. Qed.

Lemma prefix_cons (x c : ascii) (t s : string) :
  prefix (String x t) (String c s) = true <-> x = c /\ prefix t s = true.
Proof.
  cbn [prefix]. destruct (ascii_dec x c) as [E|E].
  - split; [intros H; now split | intros [_ H]; exact H].
  - split; [discriminate | intros [H _]; congruence].
Qed.

(** The three shapes of a replaced string. *)
Lemma str_replace_cases (s old new : string) :
  old <> "" ->
  s = "" \/
  (prefix old s = true /\
   str_replace s old new = (new ++ str_replace (str_drop (String.length old) s) old new)%string) \/
  (exists c s1, s = String c s1 /\ prefix old s = false /\
                str_replace s old new = String c (str_replace s1 old new)).
Proof.
  intros Hold. destruct s as [|c s1]; [now left|]. right.
  destruct (prefix old (String c s1)) eqn:Hp.
  - left. split; [reflexivity|]. now apply str_replace_hit.
  - right. exists c, s1. split; [reflexivity|]. split; [reflexivity|].
    now apply str_replace_miss.
Qed.

(** A piece of [old] that avoids the first character of [new] is found in
    the replaced string only where the original has it. *)
Lemma prefix_of_replaced (a b : ascii) (old' new' t : string) :
  free_of b t ->
  forall s, prefix t (str_replace s (String a old') (String b new')) = true ->
            prefix t s = true.
Proof.
  induction t as [|x t IH]; intros Ht s H; [apply prefix_empty|].
  assert (Hx : x <> b) by (apply Ht; now left).
  destruct (str_replace_cases s (String a old') (String b new')) as [->|[[_ E]|[c [s1 [-> [_ E]]]]]];
    [discriminate | discriminate | | ].
  - rewrite E in H. cbn [append] in H. apply prefix_cons in H. destruct H as [H _]. congruence.
  - rewrite E in H. apply prefix_cons in H. destruct H as [-> H].
    apply prefix_cons. split; [reflexivity|].
    apply IH; [exact (free_of_tail _ _ _ Ht) | exact H].
Qed.

Lemma replaced_no_prefix (a b : ascii) (old' new' : string) :
  free_of b old' ->
  (forall r, prefix (String a old') (String b new' ++ r) = false) ->
  forall s, prefix (String a old') (str_replace s (String a old') (String b new')) = false.
Proof.
  intros H1 H2 s.
  destruct (str_replace_cases s (String a old') (String b new')) as [->|[[_ E]|[c [s1 [-> [Hmiss E]]]]]];
    [discriminate | reflexivity | | ].
  - rewrite E. apply H2.
  - rewrite E.
    destruct (prefix (String a old')
                (String c (str_replace s1 (String a old') (String b new')))) eqn:Hp;
      [|reflexivity].
    apply prefix_cons in Hp. destruct Hp as [-> Hp].
    apply (prefix_of_replaced c b old' new' old' H1) in Hp.
    assert (prefix (String c old') (String c s1) = true) by (apply prefix_cons; now split).
    congruence.
Qed.

Lemma free_of_app_r (c : ascii) (p t : string) : free_of c (p ++ t) -> free_of c t.
Proof.
  induction p as [|x p IH]; intros H; [exact H|].
  apply IH. exact (free_of_tail _ _ _ H).
Qed.

Lemma replaced_tail_no_prefix (a b : ascii) (old' new' r : string) :
  free_of b old' -> free_of a new' ->
  (forall r, prefix (String a old') (String b new' ++ r) = false) ->
  replaced_tail (String a old') new' r b ->
  prefix (String a old') r = false.
Proof.
  intros H1 H3 H2 [p [t [s [Hn ->]]]].
  destruct t as [|x t].
  - cbn [append]. now apply replaced_no_prefix.
  - cbn [append]. destruct (prefix _ _) eqn:Hp; [|reflexivity].
    apply prefix_cons in Hp. destruct Hp as [-> _].
    rewrite Hn in H3. apply free_of_app_r in H3.
    exfalso. apply (H3 x); [now left | reflexivity].
Qed.

Lemma replaced_tail_step (a b c : ascii) (old' new' r : string) :
  replaced_tail (String a old') new' (String c r) b ->
  replaced_tail (String a old') new' r b.
Proof.
  intros [p [t [s [Hn E]]]].
  destruct t as [|x t].
  - cbn [append] in E.
    destruct (str_replace_cases s (String a old') (String b new'))
      as [->|[[_ E']|[c' [s1 [-> [_ E']]]]]]; [discriminate | discriminate | | ].
    + rewrite E' in E. cbn [append] in E. injection E as _ ->.
      exists "", new', (str_drop (String.length (String a old')) s). now split.
    + rewrite E' in E. injection E as _ ->.
      exists new', "", s1. split; [|reflexivity].
      clear. induction new' as [|y n IH]; cbn [append]; [reflexivity | now rewrite <- IH].
  - cbn [append] in E. injection E as _ ->.
    exists (p ++ String x "")%string, t, s. split; [|reflexivity].
    rewrite Hn, str_app_assoc. reflexivity.
Qed.

Lemma replaced_has_no_old (a b : ascii) (old' new' : string) :
  free_of b old' -> free_of a new' ->
  (forall r, prefix (String a old') (String b new' ++ r) = false) ->
  forall s, ~ contains (String a old') (str_replace s (String a old') (String b new')).
Proof.
  intros H1 H3 H2 s [pre [post E]].
  assert (Ht : replaced_tail (String a old') new'
                             (str_replace s (String a old') (String b new')) b).
  { exists new', "", s. split; [|reflexivity].
    clear. induction new' as [|y n IH]; cbn [append]; [reflexivity | now rewrite <- IH]. }
  rewrite E in Ht. clear E. induction pre as [|c pre IH].
  - cbn [append] in Ht.
    pose proof (replaced_tail_no_prefix a b old' new' _ H1 H3 H2 Ht) as Hp.
    assert (prefix (String a old') (String a old' ++ post) = true)
      by (apply prefix_app; now exists post).
    cbn [append] in *. congruence.
  - cbn [append] in Ht. apply replaced_tail_step in Ht. exact (IH Ht).
Qed.

Lemma output_name_not_input (bit_8 : bool) (x : string) :
  ~ contains "16BIT.PNG" (output_name bit_8 x).
Proof.
  intros [pre [post E]]. unfold output_name in E. destruct bit_8.
  - apply (replaced_has_no_old "1" "8" "6BIT" "BIT-N") with (s := x).
    + intros d Hd. cbn in Hd.
      repeat (destruct Hd as [<-|Hd]; [discriminate|]). destruct Hd.
    + intros d Hd. cbn in Hd.
      repeat (destruct Hd as [<-|Hd]; [discriminate|]). destruct Hd.
    + intros r. reflexivity.
    + exists pre, (".PNG" ++ post)%string. exact E.
  - apply (replaced_has_no_old "1" "1" "6BIT." "6BIT-N.") with (s := x).
    + intros d Hd. cbn in Hd.
      repeat (destruct Hd as [<-|Hd]; [discriminate|]). destruct Hd.
    + intros d Hd. cbn in Hd.
      repeat (destruct Hd as [<-|Hd]; [discriminate|]). destruct Hd.
    + intros r. reflexivity.
    + exists pre, ("PNG" ++ post)%string. exact E.
Qed.

Lemma filter_none {A : Type} (f : A -> bool) (l : list A) :
  (forall x, In x l -> f x = false) -> List.filter f l = [].
Proof.
  induction l as [|x l IH]; intros H; [reflexivity|].
  cbn [List.filter]. rewrite (H x (or_introl eq_refl)).
  apply IH. intros y Hy. apply H. now right.
Qed.

(** X4.  No output name contains [16BIT.PNG], whatever the input name:
    [curate_files] run on the names it produced selects nothing, and no
    output name is the name of a selected input, so that a batch writing
    beside its inputs never overwrites one of them and a second run does
    not take outputs for inputs. *)
Theorem outputs_are_not_inputs (bit_8 : bool) (all_files : list string) :
  (forall x, ~ contains "16BIT.PNG" (output_name bit_8 x)) /\
  selected (List.map (output_name bit_8) all_files) = [] /\
  (forall x, In x (selected all_files) ->
             ~ In (output_name bit_8 x) (selected all_files)) /\
  (forall x, In x (selected all_files) -> output_name bit_8 x <> x).
Proof.
  split; [apply output_name_not_input|]. split; [|split].
  - unfold selected. apply filter_none. intros y Hy.
    apply List.in_map_iff in Hy. destruct Hy as [x [<- _]].
    destruct (negb _) eqn:E; [|reflexivity].
    apply str_find_contains in E. now apply output_name_not_input in E.
  - intros x _ Hin. apply selected_contains in Hin. destruct Hin as [_ Hc].
    now apply output_name_not_input in Hc.
  - intros x Hin E. apply selected_contains in Hin. destruct Hin as [_ Hc].
    rewrite <- E in Hc. now apply output_name_not_input in Hc.
Qed.

(** ** One file, from the decoder to the writer *)

Lemma in_amap {A B : Type} (f : A -> B) (a : list (list A)) (row : list B) (y : B) :
  In row (amap f a) -> In y row ->
  exists row0 x, In row0 a /\ In x row0 /\ y = f x.
Proof.
  unfold amap. intros Hrow Hy.
  apply List.in_map_iff in Hrow. destruct Hrow as [row0 [<- Hrow0]].
  apply List.in_map_iff in Hy. destruct Hy as [x [<- Hx]].
  now exists row0, x.
Qed.

(** X5.  A file that decodes to a grid of 16-bit samples, as a [uint16]
    or an [int32] array, and whose name carries a camera token always
    reaches the writer: the bounds come from the table and lie in
    [[50500, 58500]], at least 3000 apart; the grid handed to the writer
    has the shape of the input and every sample of it lies in
    [[0, 2^d - 1]]; the outcome of the file is the outcome of the writer
    ([Image.save] for 8 bits, the PNG writer for 16), and the file system
    is what the writer leaves. *)
Theorem process_file_reaches_writer (E : environment) (bit_8 : bool)
        (in_file output_file c : string) (dt : dtype) (image : ndarray)
        (st : state E) :
  image_open E in_file (fs st) = Ok (dt, image) ->
  grid16 image ->
  camera_of in_file = Some c ->
  exists bottom top out,
    get_scaling_values in_file (Z.of_nat (List.length image)) (console st)
    = (Ok (bottom, top), out) /\
    50500 <= bottom /\ bottom + 3000 <= top /\ top <= 58500 /\
    let normalized := amap (rescale (cast_undefined E) dt bit_8 bottom top) image in
    let written := (if bit_8 then image_save E else png_write E)
                     output_file normalized (fs st) in
    shape normalized = shape image /\
    (forall row v, In row normalized -> In v row -> 0 <= v <= full_scale bit_8) /\
    process_file_body E bit_8 in_file output_file st
    = (fst written, set_fs (set_console st out) (snd written)).
Proof.
  intros Hopen Hgrid Hc.
  destruct (get_scaling_values_some in_file c (Z.of_nat (List.length image)) (console st) Hc)
    as [bottom [top [out Hg]]].
  pose proof (get_scaling_values_window _ _ _ _ _ _ Hg) as [Hb [Hw Ht]].
  exists bottom, top, out.
  split; [exact Hg|]. split; [exact Hb|]. split; [exact Hw|]. split; [exact Ht|].
  cbv zeta. split; [apply shape_amap|]. split.
  - intros row v Hrow Hv.
    destruct (in_amap _ _ _ _ Hrow Hv) as [row0 [x [Hrow0 [Hx ->]]]].
    pose proof (grid16_sample _ _ _ Hgrid Hrow0 Hx) as Hs.
    rewrite full_scale_depth.
    apply (rescale_linear (cast_undefined E) dt bit_8 bottom top x); try assumption; lia.
  - now apply process_file_body_written.
Qed.

(** ** Bounds taken from the image *)

Lemma fold_left_min_spec (xs : list Z) (x : Z) :
  In (List.fold_left Z.min xs x) (x :: xs) /\
  forall y, In y (x :: xs) -> List.fold_left Z.min xs x <= y.
Proof.
  revert x. induction xs as [|z xs IH]; intros x; cbn [List.fold_left].
  - split; [now left | intros y [<-|[]]; lia].
  - destruct (IH (Z.min x z)) as [Hin Hle]. split.
    + destruct Hin as [E|Hin]; [|right; now right].
      rewrite <- E. destruct (Z.min_spec x z) as [[_ ->]|[_ ->]];
        [now left | right; now left].
    + intros y Hy.
      assert (Hm : List.fold_left Z.min xs (Z.min x z) <= Z.min x z)
        by (apply Hle; now left).
      destruct Hy as [<-|[<-|Hy]]; [lia | lia | apply Hle; now right].
Qed.

Lemma fold_left_max_spec (xs : list Z) (x : Z) :
  In (List.fold_left Z.max xs x) (x :: xs) /\
  forall y, In y (x :: xs) -> y <= List.fold_left Z.max xs x.
Proof.
  revert x. induction xs as [|z xs IH]; intros x; cbn [List.fold_left].
  - split; [now left | intros y [<-|[]]; lia].
  - destruct (IH (Z.max x z)) as [Hin Hle]. split.
    + destruct Hin as [E|Hin]; [|right; now right].
      rewrite <- E. destruct (Z.max_spec x z) as [[_ ->]|[_ ->]];
        [right; now left | now left].
    + intros y Hy.
      assert (Hm : Z.max x z <= List.fold_left Z.max xs (Z.max x z))
        by (apply Hle; now left).
      destruct Hy as [<-|[<-|Hy]]; [lia | lia | apply Hle; now right].
Qed.

Lemma in_array (a : ndarray) (v : Z) :
  In v (List.concat a) <-> exists row, In row a /\ In v row.
Proof.
  rewrite List.in_concat. split; intros [row H]; exists row; tauto.
Qed.

(** [np.min] and [np.max] of an array that has a sample. *)
Lemma np_min_max (a : ndarray) :
  List.concat a <> [] ->
  exists lo hi,
    np_min a = Ok lo /\ np_max a = Ok hi /\
    (exists row, In row a /\ In lo row) /\
    (exists row, In row a /\ In hi row) /\
    (forall row v, In row a -> In v row -> lo <= v <= hi).
Proof.
  intros Hne. unfold np_min, np_max, reduce.
  destruct (List.concat a) as [|x xs] eqn:Hc; [congruence|].
  destruct (fold_left_min_spec xs x) as [Hmin_in Hmin].
  destruct (fold_left_max_spec xs x) as [Hmax_in Hmax].
  exists (List.fold_left Z.min xs x), (List.fold_left Z.max xs x).
  split; [reflexivity|]. split; [reflexivity|].
  rewrite <- Hc in Hmin_in, Hmax_in.
  split; [now apply in_array|]. split; [now apply in_array|].
  intros row v Hrow Hv.
  assert (Hin : In v (x :: xs)) by (rewrite <- Hc; apply in_array; now exists row).
  split; [now apply Hmin | now apply Hmax].
Qed.

Lemma amap_const_nan (cast : Z -> spec_float -> Z) (dt : dtype) (bit_8 : bool)
      (bound : Z) (a : ndarray) :
  (forall row v, In row a -> In v row -> v = bound) ->
  amap (rescale cast dt bit_8 bound bound) a
  = amap (fun _ => cast (bit_depth bit_8) S754_nan) a.
Proof.
  intros H. apply amap_ext_in. intros row v Hrow Hv.
  rewrite (H row v Hrow Hv). unfold rescale. rewrite Z.sub_diag.
  destruct dt, bit_8; reflexivity.
Qed.

(** Both bounds taken from the array: numpy scalars of its element type. *)
Lemma lin_normalize_image_auto (cast : Z -> spec_float -> Z) (dt : dtype)
      (image_array : ndarray) (bit_8 : bool) (lo hi : Z) :
  np_min image_array = Ok lo -> np_max image_array = Ok hi ->
  wrap dt (hi - lo) = hi - lo ->
  lin_normalize_image cast dt image_array bit_8 None None
  = Ok (amap (rescale cast dt bit_8 lo hi) image_array).
Proof.
  intros Hmin Hmax Hw.
  unfold lin_normalize_image. rewrite Hmin, Hmax.
  cbn [and_then Ok scalar_subtract to_dtype subtract true_divide to_float].
  rewrite Hw. f_equal.
  unfold rescale, sample_out, quantize, clip01, full_scale, bit_depth.
  destruct bit_8;
    unfold astype_uint, np_floor, multiply, assign_where_gt, assign_where_lt;
    rewrite !amap_amap; reflexivity.
Qed.

(** X6.  With both bounds omitted, an image that has a sample is
    stretched between its own extremes, whether it is a [uint16] or an
    [int32] array: the bounds are its smallest and largest sample; when
    they differ, the smallest sample gives 0, the largest gives
    [2^d - 1] and every output lies between; when all samples are equal
    the quotient is 0/0 and every output is what the platform makes of
    NaN. *)
Theorem lin_normalize_image_auto_bounds (cast : Z -> spec_float -> Z) (dt : dtype)
        (image_array : ndarray) (bit_8 : bool) :
  grid16 image_array -> List.concat image_array <> [] ->
  exists lo hi,
    np_min image_array = Ok lo /\ np_max image_array = Ok hi /\
    (exists row, In row image_array /\ In lo row) /\
    (exists row, In row image_array /\ In hi row) /\
    (forall row v, In row image_array -> In v row -> lo <= v <= hi) /\
    (lo < hi ->
     lin_normalize_image cast dt image_array bit_8 None None
     = Ok (amap (rescale cast dt bit_8 lo hi) image_array) /\
     rescale cast dt bit_8 lo hi lo = 0 /\
     rescale cast dt bit_8 lo hi hi = full_scale bit_8 /\
     forall row v, In row image_array -> In v row ->
                   0 <= rescale cast dt bit_8 lo hi v <= full_scale bit_8) /\
    (lo = hi ->
     lin_normalize_image cast dt image_array bit_8 None None
     = Ok (amap (fun _ => cast (bit_depth bit_8) S754_nan) image_array)).
Proof.
  intros Hgrid Hne.
  destruct (np_min_max image_array Hne)
    as [lo [hi [Hmin [Hmax [[rl [Hrl Hlo]] [[rh [Hrh Hhi]] Hall]]]]]].
  pose proof (grid16_sample _ _ _ Hgrid Hrl Hlo) as Slo.
  pose proof (grid16_sample _ _ _ Hgrid Hrh Hhi) as Shi.
  pose proof (Hall rl lo Hrl Hlo) as Hlohi.
  assert (Hauto : lin_normalize_image cast dt image_array bit_8 None None
                  = Ok (amap (rescale cast dt bit_8 lo hi) image_array)).
  { apply lin_normalize_image_auto; [exact Hmin | exact Hmax |].
    apply wrap_16bit; [exact Shi | exact Slo | left; lia]. }
  unfold sample16 in Slo, Shi.
  exists lo, hi.
  split; [exact Hmin|]. split; [exact Hmax|].
  split; [now exists rl|]. split; [now exists rh|]. split; [exact Hall|].
  split.
  - intros Hlt. split; [exact Hauto|].
    rewrite full_scale_depth.
    destruct (rescale_linear cast dt bit_8 lo hi lo) as [_ [_ [Hz _]]];
      try lia; [unfold sample16; lia|].
    destruct (rescale_linear cast dt bit_8 lo hi hi) as [_ [_ [_ [Hf _]]]];
      try lia; [unfold sample16; lia|].
    split; [now apply Hz|]. split; [now apply Hf|].
    intros row v Hrow Hv.
    pose proof (grid16_sample _ _ _ Hgrid Hrow Hv) as Sv.
    apply (rescale_linear cast dt bit_8 lo hi v); try assumption; lia.
  - intros <-. rewrite Hauto. f_equal. apply amap_const_nan.
    intros row v Hrow Hv. specialize (Hall row v Hrow Hv). lia.
Qed.

Lemma amap_no_sample (f : Z -> Z) (a : ndarray) : List.concat a = [] -> amap f a = a.
Proof.
  unfold amap. induction a as [|row a IH]; intros Hc; [reflexivity|].
  cbn [List.concat] in Hc. apply List.app_eq_nil in Hc. destruct Hc as [-> Hc].
  cbn [List.map]. now rewrite (IH Hc).
Qed.

(** X7.  An image without a sample (no rows, or rows of no columns)
    raises [ValueError] from the reduction as soon as one bound is
    omitted.  With both bounds given it is returned as it is, provided
    the bounds get through the arithmetic at all: [bottom] has to be a
    value of the array's element type and the width has to convert to
    [float64], or [OverflowError] is raised. *)
Theorem lin_normalize_image_empty (cast : Z -> spec_float -> Z) (dt : dtype)
        (image_array : ndarray) (bit_8 : bool) (bottom top : option Z) :
  List.concat image_array = [] ->
  match bottom, top with
  | Some b, Some t =>
      lin_normalize_image cast dt image_array bit_8 bottom top
      = (let? _ := py_int dt b in
         let? _ := to_float (PyInt (t - b)) in
         Ok image_array)
  | None, _ =>
      lin_normalize_image cast dt image_array bit_8 bottom top
      = Raise (ValueError
                 "zero-size array to reduction operation minimum which has no identity")
  | Some _, None =>
      lin_normalize_image cast dt image_array bit_8 bottom top
      = Raise (ValueError
                 "zero-size array to reduction operation maximum which has no identity")
  end.
Proof.
  intros Hc. destruct bottom as [b|], top as [t|].
  - unfold py_int. destruct (fits dt b) eqn:Hfit.
    + destruct (to_float (PyInt (t - b))) as [y|e] eqn:Hy.
      * rewrite (lin_normalize_image_python cast dt image_array bit_8 b t y Hfit Hy).
        cbn [and_then]. apply (f_equal (@Ok ndarray)). now apply amap_no_sample.
      * unfold lin_normalize_image. cbn [and_then Ok scalar_subtract].
        rewrite (subtract_py dt image_array b Hfit). cbn [and_then Ok].
        unfold true_divide. now rewrite Hy.
    + unfold lin_normalize_image, subtract, to_dtype, py_int.
      cbn [and_then Ok]. now rewrite Hfit.
  - unfold lin_normalize_image, np_max, reduce. rewrite Hc. reflexivity.
  - unfold lin_normalize_image, np_min, reduce. rewrite Hc. reflexivity.
  - unfold lin_normalize_image, np_min, reduce. rewrite Hc. reflexivity.
Qed.

(** ** Quotients of integers in binary64: order and sign *)

(** The nearest integer follows the order of the fractions. *)
Lemma rne_order (a b a' b' : Z) :
  0 < b -> 0 < b' -> a * b' <= a' * b -> rne a b <= rne a' b'.
Proof.
  intros Hb Hb' H.
  rewrite <- (rne_scale b' a b) by lia.
  rewrite <- (rne_scale b a' b') by lia.
  replace (b * b') with (b' * b) by lia.
  apply rne_mono; nia.
Qed.

(** The signs of a quotient of finite numbers only meet in the sign of
    the result. *)
Lemma div_signs (sx sy : bool) (mx my : positive) (ex ey : Z) :
  F64.div (S754_finite sx mx ex) (S754_finite sy my ey)
  = F64.div (S754_finite (xorb sx sy) mx ex) (S754_finite false my ey).
Proof. unfold F64.div, SFdiv. rewrite xorb_false_r. reflexivity. Qed.

Lemma div_flip (n w : Z) :
  n <> 0 -> - 2 ^ 53 < n < 2 ^ 53 -> 0 < w < 2 ^ 53 ->
  F64.div (F64.of_Z n) (F64.of_Z (- w)) = F64.div (F64.of_Z (- n)) (F64.of_Z w).
Proof.
  intros Hn0 Hn Hw.
  destruct (of_Z_exact w Hw) as [k [_ [_ [Ew Ew']]]]. rewrite Ew, Ew'.
  destruct (Z_lt_le_dec 0 n) as [Hpos|Hneg].
  - destruct (of_Z_exact n ltac:(lia)) as [j [_ [_ [En En']]]]. rewrite En, En'.
    unfold nf. apply div_signs.
  - destruct (of_Z_exact (- n) ltac:(lia)) as [j [_ [_ [En En']]]].
    rewrite Z.opp_involutive in En'. rewrite En, En'.
    unfold nf. apply div_signs.
Qed.

(** Dividing by a negative width is dividing the negated difference by
    the positive one. *)
Lemma sample_out_flip (cast : Z -> spec_float -> Z) (bit_8 : bool) (n w : Z) :
  - 2 ^ 53 < n < 2 ^ 53 -> 0 < w < 2 ^ 53 ->
  sample_out cast bit_8 n (- w) = sample_out cast bit_8 (- n) w.
Proof.
  intros Hn Hw. destruct (Z.eq_dec n 0) as [->|Hn0].
  - change (- 0) with 0.
    destruct (sample_out_nonpos cast bit_8 0 w ltac:(lia) Hw) as [_ ->].
    unfold sample_out.
    destruct (of_Z_exact w Hw) as [k [_ [_ [_ ->]]]].
    destruct bit_8; reflexivity.
  - unfold sample_out. now rewrite div_flip.
Qed.

(** The quotients of positive integers below [2^53] are ordered in
    binary64 as they are as fractions. *)
Lemma ratio_rank_order (n d n' d' : Z) :
  0 < n < 2 ^ 53 -> 0 < d < 2 ^ 53 -> 0 < n' < 2 ^ 53 -> 0 < d' < 2 ^ 53 ->
  n * d' <= n' * d ->
  rank (F64.div (F64.of_Z n) (F64.of_Z d))
  <= rank (F64.div (F64.of_Z n') (F64.of_Z d')).
Proof.
  intros Hn Hd Hn' Hd' Hord.
  destruct (of_Z_exact n Hn) as [j [Hj [M1 [-> _]]]].
  destruct (of_Z_exact d Hd) as [k [Hk [M2 [-> _]]]].
  destruct (of_Z_exact n' Hn') as [j' [Hj' [M1' [-> _]]]].
  destruct (of_Z_exact d' Hd') as [k' [Hk' [M2' [-> _]]]].
  destruct (div_normal false (n * 2 ^ j) (- j) (d * 2 ^ k) (- k)) as [-> Hb];
    try assumption; try lia.
  destruct (div_normal false (n' * 2 ^ j') (- j') (d' * 2 ^ k') (- k')) as [-> Hb'];
    try assumption; try lia.
  rewrite !rank_normal by assumption.
  unfold norm53 in *.
  assert (PJ : 0 < 2 ^ j) by (apply Z.pow_pos_nonneg; lia).
  assert (PK : 0 < 2 ^ k) by (apply Z.pow_pos_nonneg; lia).
  assert (PJ' : 0 < 2 ^ j') by (apply Z.pow_pos_nonneg; lia).
  assert (PK' : 0 < 2 ^ k') by (apply Z.pow_pos_nonneg; lia).
  set (c := if d * 2 ^ k <=? n * 2 ^ j then 1 else 0) in *.
  set (c' := if d' * 2 ^ k' <=? n' * 2 ^ j' then 1 else 0) in *.
  assert (Hc : 0 <= c <= 1)
    by (unfold c; destruct (d * 2 ^ k <=? n * 2 ^ j); lia).
  assert (Hc' : 0 <= c' <= 1)
    by (unfold c'; destruct (d' * 2 ^ k' <=? n' * 2 ^ j'); lia).
  assert (PC : 0 < 2 ^ c) by (apply Z.pow_pos_nonneg; lia).
  assert (PC' : 0 < 2 ^ c') by (apply Z.pow_pos_nonneg; lia).
  (* the quotient of the mantissas lies in [2^52, 2^53) *)
  assert (B1 : 2 ^ c * (d * 2 ^ k) <= 2 * (n * 2 ^ j)).
  { unfold c. destruct (Z.leb_spec (d * 2 ^ k) (n * 2 ^ j)).
    - change (2 ^ 1) with 2. lia.
    - change (2 ^ 0) with 1. lia. }
  assert (B2 : n' * 2 ^ j' < 2 ^ c' * (d' * 2 ^ k')).
  { unfold c'. destruct (Z.leb_spec (d' * 2 ^ k') (n' * 2 ^ j')).
    - change (2 ^ 1) with 2. lia.
    - change (2 ^ 0) with 1. lia. }
  set (U := 2 ^ (k + c + j')).
  set (U' := 2 ^ (k' + c' + j)).
  assert (HU : U = 2 ^ k * 2 ^ c * 2 ^ j')
    by (unfold U; rewrite !Z.pow_add_r by lia; reflexivity).
  assert (HU' : U' = 2 ^ k' * 2 ^ c' * 2 ^ j)
    by (unfold U'; rewrite !Z.pow_add_r by lia; reflexivity).
  assert (PU' : 0 < U') by (unfold U'; apply Z.pow_pos_nonneg; lia).
  destruct (Z.lt_trichotomy (k + c + j') (k' + c' + j)) as [Hlt|[Heq|Hgt]].
  - lia.
  - assert (EU : U = U') by (unfold U, U'; now rewrite Heq).
    assert (Hr : rne (n * 2 ^ j * 2 ^ 53) (2 ^ c * (d * 2 ^ k))
                 <= rne (n' * 2 ^ j' * 2 ^ 53) (2 ^ c' * (d' * 2 ^ k'))).
    { apply rne_order; [lia | lia |].
      replace (n * 2 ^ j * 2 ^ 53 * (2 ^ c' * (d' * 2 ^ k')))
        with (n * d' * (U' * 2 ^ 53)) by (rewrite HU'; ring).
      replace (n' * 2 ^ j' * 2 ^ 53 * (2 ^ c * (d * 2 ^ k)))
        with (n' * d * (U' * 2 ^ 53)) by (rewrite <- EU, HU; ring).
      apply Z.mul_le_mono_nonneg_r; lia. }
    lia.
  - exfalso.
    assert (H2 : 2 * U' <= U).
    { unfold U, U'. rewrite <- (Z.pow_succ_r 2) by lia.
      apply Z.pow_le_mono_r; lia. }
    assert (S1 : 2 ^ c * (d * 2 ^ k) * (2 ^ j' * d') <= 2 * (n * 2 ^ j) * (2 ^ j' * d'))
      by (apply Z.mul_le_mono_nonneg_r; lia).
    assert (S2 : n * d' * (2 ^ j * 2 ^ j') <= n' * d * (2 ^ j * 2 ^ j'))
      by (apply Z.mul_le_mono_nonneg_r; lia).
    assert (S3 : n' * 2 ^ j' * (d * 2 ^ j) < 2 ^ c' * (d' * 2 ^ k') * (d * 2 ^ j))
      by (apply Z.mul_lt_mono_pos_r; lia).
    assert (S4 : U * (d * d') < 2 * U' * (d * d')).
    { rewrite HU, HU'.
      replace (2 ^ k * 2 ^ c * 2 ^ j' * (d * d'))
        with (2 ^ c * (d * 2 ^ k) * (2 ^ j' * d')) by ring.
      replace (2 * (2 ^ k' * 2 ^ c' * 2 ^ j) * (d * d'))
        with (2 * (2 ^ c' * (d' * 2 ^ k') * (d * 2 ^ j))) by ring.
      replace (2 * (n * 2 ^ j) * (2 ^ j' * d'))
        with (2 * (n * d' * (2 ^ j * 2 ^ j'))) in S1 by ring.
      replace (n' * d * (2 ^ j * 2 ^ j')) with (n' * 2 ^ j' * (d * 2 ^ j)) in S2 by ring.
      lia. }
    apply Z.mul_lt_mono_pos_r in S4; lia.
Qed.

(** The output level follows the order of the fractions [n / d]. *)
Lemma sample_out_order (cast : Z -> spec_float -> Z) (bit_8 : bool) (n d n' d' : Z) :
  - 2 ^ 53 < n < 2 ^ 53 -> - 2 ^ 53 < n' < 2 ^ 53 ->
  0 < d < 2 ^ 53 -> 0 < d' < 2 ^ 53 ->
  n * d' <= n' * d ->
  sample_out cast bit_8 n d <= sample_out cast bit_8 n' d'.
Proof.
  intros Hn Hn' Hd Hd' Hord. destruct (Z_le_gt_dec n 0) as [Hneg|Hpos].
  - destruct (sample_out_nonpos cast bit_8 n d ltac:(lia) Hd) as [_ ->].
    apply (sample_out_range cast bit_8 n' d'); lia.
  - assert (Hpos' : 0 < n') by nia.
    destruct (clipped_ratio n d ltac:(lia) Hd) as [Hnorm Hrank].
    destruct (clipped_ratio n' d' ltac:(lia) Hd') as [Hnorm' Hrank'].
    pose proof (ratio_rank_order n d n' d' ltac:(lia) Hd ltac:(lia) Hd' Hord).
    unfold sample_out. apply quantize_mono; try assumption; lia.
Qed.

Lemma sample_out_scale (cast : Z -> spec_float -> Z) (bit_8 : bool) (c n d : Z) :
  0 < c -> - 2 ^ 53 < c * n < 2 ^ 53 -> 0 < d -> c * d < 2 ^ 53 ->
  sample_out cast bit_8 (c * n) (c * d) = sample_out cast bit_8 n d.
Proof.
  intros Hc Hn Hd Hcd.
  assert (- 2 ^ 53 < n < 2 ^ 53) by nia.
  assert (0 < d < 2 ^ 53) by nia.
  assert (0 < c * d) by nia.
  apply Z.le_antisymm; apply sample_out_order; try lia.
Qed.

(** The level of a sample does not depend on the conversion the platform
    applies to values without an integer. *)
Lemma sample_out_cast (cast cast' : Z -> spec_float -> Z) (bit_8 : bool) (n d : Z) :
  - 2 ^ 53 < n < 2 ^ 53 -> 0 < d < 2 ^ 53 ->
  sample_out cast bit_8 n d = sample_out cast' bit_8 n d.
Proof.
  intros Hn Hd.
  destruct (sample_out_range cast bit_8 n d Hn Hd) as [H1 _].
  destruct (sample_out_range cast' bit_8 n d Hn Hd) as [H2 _].
  congruence.
Qed.

(** ** Linear normalisation: the bounds *)

Lemma rescale_inverted (cast : Z -> spec_float -> Z) (dt : dtype) (bit_8 : bool)
      (bottom top v : Z) :
  top < bottom -> bottom - top < 2 ^ 53 -> - 2 ^ 53 < wrap dt (v - bottom) < 2 ^ 53 ->
  rescale cast dt bit_8 bottom top v
  = sample_out cast bit_8 (- wrap dt (v - bottom)) (bottom - top).
Proof.
  intros Htb Hw Hv. unfold rescale.
  replace (top - bottom) with (- (bottom - top)) by lia.
  now rewrite sample_out_flip by lia.
Qed.

(** In a [uint16] array no difference is negative: with a negative width
    no quotient is positive. *)
Lemma rescale_inverted_u16 (cast : Z -> spec_float -> Z) (bit_8 : bool)
      (bottom top v : Z) :
  top < bottom -> bottom - top < 2 ^ 53 ->
  rescale cast u16 bit_8 bottom top v = 0.
Proof.
  intros Htb Hw.
  assert (Hr : 0 <= wrap u16 (v - bottom) < 2 ^ 16)
    by (unfold wrap; apply Z.mod_pos_bound; lia).
  rewrite rescale_inverted by lia.
  apply sample_out_nonpos; lia.
Qed.

(** X8.  With the bounds the wrong way round ([top < bottom]) nothing is
    raised.  An [int32] array comes out negated: a sample at [bottom] or
    above gives 0, a sample at [top] or below gives [2^d - 1], every
    output lies in [[0, 2^d - 1]], and a larger sample never gives a
    larger output.  A [uint16] array comes out black: no difference to
    [bottom] is negative there, and every output is 0. *)
Theorem lin_normalize_image_inverted (cast : Z -> spec_float -> Z) (dt : dtype)
        (image_array : ndarray) (bit_8 : bool) (bottom top : Z) :
  grid16 image_array -> 0 <= top -> top < bottom -> bottom < 2 ^ 16 ->
  lin_normalize_image cast dt image_array bit_8 (Some bottom) (Some top)
  = Ok (amap (rescale cast dt bit_8 bottom top) image_array) /\
  (dt = i32 ->
   (forall row v, In row image_array -> In v row ->
      0 <= rescale cast dt bit_8 bottom top v <= full_scale bit_8 /\
      (bottom <= v -> rescale cast dt bit_8 bottom top v = 0) /\
      (v <= top -> rescale cast dt bit_8 bottom top v = full_scale bit_8)) /\
   (forall row1 v1 row2 v2,
      In row1 image_array -> In v1 row1 -> In row2 image_array -> In v2 row2 ->
      v1 <= v2 ->
      rescale cast dt bit_8 bottom top v2 <= rescale cast dt bit_8 bottom top v1)) /\
  (dt = u16 ->
   forall row v, In row image_array -> In v row ->
     rescale cast dt bit_8 bottom top v = 0).
Proof.
  intros Hgrid Ht Htb Hb.
  split; [apply lin_normalize_image_explicit; [apply fits_16bit|]; lia|].
  split.
  - intros ->.
    assert (Hi : forall row v, In row image_array -> In v row ->
                   0 <= v < 2 ^ 16 /\
                   rescale cast i32 bit_8 bottom top v
                   = sample_out cast bit_8 (bottom - v) (bottom - top)).
    { intros row v Hrow Hv.
      pose proof (grid16_sample _ _ _ Hgrid Hrow Hv) as Sv. unfold sample16 in Sv.
      split; [exact Sv|].
      assert (Hwrap : wrap i32 (v - bottom) = v - bottom)
        by (apply int32_small; lia).
      rewrite rescale_inverted by (rewrite ?Hwrap; lia).
      rewrite Hwrap. f_equal. lia. }
    split.
    + intros row v Hrow Hv. destruct (Hi row v Hrow Hv) as [Sv ->].
      split; [apply sample_out_range; lia|]. split.
      * intros Hge. apply sample_out_nonpos; lia.
      * intros Hle. apply sample_out_above; lia.
    + intros row1 v1 row2 v2 Hrow1 Hv1 Hrow2 Hv2 Hle.
      destruct (Hi row1 v1 Hrow1 Hv1) as [S1 ->].
      destruct (Hi row2 v2 Hrow2 Hv2) as [S2 ->].
      apply sample_out_mono; lia.
  - intros -> row v _ _. apply rescale_inverted_u16; lia.
Qed.

(** X9.  For 16-bit samples, in a [uint16] or an [int32] array, and two
    different bounds in the 16-bit range the result is the same on every
    platform: the conversion that numpy leaves undefined is never
    consulted. *)
Theorem lin_normalize_image_portable (cast cast' : Z -> spec_float -> Z) (dt : dtype)
        (image_array : ndarray) (bit_8 : bool) (bottom top : Z) :
  grid16 image_array ->
  0 <= bottom < 2 ^ 16 -> 0 <= top < 2 ^ 16 -> bottom <> top ->
  lin_normalize_image cast dt image_array bit_8 (Some bottom) (Some top)
  = lin_normalize_image cast' dt image_array bit_8 (Some bottom) (Some top).
Proof.
  intros Hgrid Hb Ht Hne.
  rewrite !lin_normalize_image_explicit by (try apply fits_16bit; lia).
  apply (f_equal (@Ok ndarray)). apply amap_ext_in. intros row v Hrow Hv.
  pose proof (grid16_sample _ _ _ Hgrid Hrow Hv) as Sv. unfold sample16 in Sv.
  assert (Hr : - 2 ^ 53 < wrap dt (v - bottom) < 2 ^ 53).
  { destruct dt; unfold wrap.
    - pose proof (Z.mod_pos_bound (v - bottom) (2 ^ 16) ltac:(lia)). lia.
    - pose proof (int32_range (v - bottom)). lia. }
  destruct (Z_lt_le_dec bottom top) as [Hlt|Hge].
  - unfold rescale. apply sample_out_cast; lia.
  - rewrite !rescale_inverted by lia. apply sample_out_cast; lia.
Qed.

Lemma rescale_bounds_order (cast : Z -> spec_float -> Z) (dt : dtype) (bit_8 : bool)
      (bottom top bottom' top' v : Z) :
  0 <= bottom -> bottom <= bottom' -> top <= top' ->
  bottom < top -> bottom' < top' -> top' < 2 ^ 16 -> sample16 v ->
  bottom' <= v \/ dt = i32 ->
  rescale cast dt bit_8 bottom' top' v <= rescale cast dt bit_8 bottom top v.
Proof.
  intros Hb Hbb Htt Hbt Hbt' Ht' Sv Hc.
  assert (Hc0 : bottom <= v \/ dt = i32) by (destruct Hc; [left; lia | now right]).
  rewrite (rescale_no_wrap cast dt bit_8 bottom' top' v)
    by (apply wrap_16bit; [exact Sv | lia | exact Hc]).
  rewrite (rescale_no_wrap cast dt bit_8 bottom top v)
    by (apply wrap_16bit; [exact Sv | lia | exact Hc0]).
  unfold sample16 in Sv.
  destruct (Z_le_gt_dec top v) as [Habove|Hbelow].
  - rewrite (sample_out_above cast bit_8 (v - bottom) (top - bottom)) by lia.
    apply sample_out_range; lia.
  - destruct (Z_le_gt_dec v bottom') as [Hlow|Hmid].
    + destruct (sample_out_nonpos cast bit_8 (v - bottom') (top' - bottom')) as [_ ->];
        try lia.
      apply sample_out_range; lia.
    + apply sample_out_order; try lia.
      assert (0 <= (bottom' - bottom) * (top - v)) by (apply Z.mul_nonneg_nonneg; lia).
      assert (0 <= (v - bottom) * (top' - top)) by (apply Z.mul_nonneg_nonneg; lia).
      lia.
Qed.

(** X10.  Raising a bound never brightens a pixel, as long as no
    difference wraps around: when [bottom] and [top] are replaced by
    bounds that are not smaller, a sample gets no larger output, in an
    [int32] array always and in a [uint16] array when the sample is not
    below the raised [bottom]. *)
Theorem raising_bounds_darkens (cast : Z -> spec_float -> Z) (dt : dtype)
        (image_array : ndarray) (bit_8 : bool) (bottom top bottom' top' : Z) :
  grid16 image_array ->
  0 <= bottom -> bottom <= bottom' -> top <= top' ->
  bottom < top -> bottom' < top' -> top' < 2 ^ 16 ->
  lin_normalize_image cast dt image_array bit_8 (Some bottom) (Some top)
  = Ok (amap (rescale cast dt bit_8 bottom top) image_array) /\
  lin_normalize_image cast dt image_array bit_8 (Some bottom') (Some top')
  = Ok (amap (rescale cast dt bit_8 bottom' top') image_array) /\
  forall row v, In row image_array -> In v row ->
    bottom' <= v \/ dt = i32 ->
    rescale cast dt bit_8 bottom' top' v <= rescale cast dt bit_8 bottom top v.
Proof.
  intros Hgrid Hb Hbb Htt Hbt Hbt' Ht'.
  split; [apply lin_normalize_image_explicit; [apply fits_16bit|]; lia|].
  split; [apply lin_normalize_image_explicit; [apply fits_16bit|]; lia|].
  intros row v Hrow Hv Hc.
  apply rescale_bounds_order; try assumption.
  exact (grid16_sample _ _ _ Hgrid Hrow Hv).
Qed.

(** X11.  Only the position of a sample between the bounds counts: an
    [int32] image whose samples are all multiplied by [c > 0] and shifted
    by [k], normalised between the bounds changed in the same way, gives
    the result of the original image, as long as the new samples are
    [int32] values and [c] is at most [2^15], so that their differences
    to the bound are too. *)
Theorem lin_normalize_image_affine (cast : Z -> spec_float -> Z)
        (image_array : ndarray) (bit_8 : bool) (bottom top c k : Z) :
  grid16 image_array -> 0 <= bottom -> bottom < top -> top < 2 ^ 16 ->
  0 < c <= 2 ^ 15 -> - 2 ^ 31 <= k -> c * 2 ^ 16 + k <= 2 ^ 31 ->
  lin_normalize_image cast i32 (amap (fun v => c * v + k) image_array) bit_8
                      (Some (c * bottom + k)) (Some (c * top + k))
  = lin_normalize_image cast i32 image_array bit_8 (Some bottom) (Some top).
Proof.
  intros Hgrid Hb Hbt Ht Hc Hk Hck.
  rewrite (lin_normalize_image_explicit cast i32 image_array)
    by (try apply fits_16bit; lia).
  rewrite lin_normalize_image_explicit by (unfold fits; nia).
  apply (f_equal (@Ok ndarray)). rewrite amap_amap.
  apply amap_ext_in. intros row v Hrow Hv.
  pose proof (grid16_sample _ _ _ Hgrid Hrow Hv) as Sv. unfold sample16 in Sv.
  unfold rescale, wrap.
  replace (c * v + k - (c * bottom + k)) with (c * (v - bottom)) by ring.
  replace (c * top + k - (c * bottom + k)) with (c * (top - bottom)) by ring.
  assert (- 2 ^ 31 <= c * (v - bottom) < 2 ^ 31) by nia.
  rewrite !int32_small by lia.
  apply sample_out_scale; nia.
Qed.

(** ** Worker and batch: what reaches the file system *)

Lemma get_scaling_values_fst (filename : string) (num_rows : Z) (out : list string) :
  fst (get_scaling_values filename num_rows out)
  = fst (get_scaling_values filename num_rows []).
Proof.
  rewrite !get_scaling_values_eq.
  destruct (camera_of filename) as [c|]; [|reflexivity].
  destruct (String.eqb c "P").
  - destruct (num_rows =? 512); [reflexivity|]. now destruct (num_rows =? 480).
  - now destruct (String.eqb c "C").
Qed.

(** The body of the worker, outcome and file system, case by case. *)
Lemma process_file_body_outcome (E : environment) (bit_8 : bool)
      (in_file output_file : string) (st : state E) :
  match image_open E in_file (fs st) with
  | inr e =>
      fst (process_file_body E bit_8 in_file output_file st) = Raise e /\
      fs (snd (process_file_body E bit_8 in_file output_file st)) = fs st
  | inl (dt, image) =>
      match fst (get_scaling_values in_file (Z.of_nat (List.length image)) []) with
      | inr e =>
          fst (process_file_body E bit_8 in_file output_file st) = Raise e /\
          fs (snd (process_file_body E bit_8 in_file output_file st)) = fs st
      | inl (bottom, top) =>
          let written := (if bit_8 then image_save E else png_write E)
                           output_file
                           (amap (rescale (cast_undefined E) dt bit_8 bottom top) image)
                           (fs st) in
          fst (process_file_body E bit_8 in_file output_file st) = fst written /\
          fs (snd (process_file_body E bit_8 in_file output_file st)) = snd written
      end
  end.
Proof.
  destruct (image_open E in_file (fs st)) as [[dt image]|e] eqn:Hopen;
    [|now rewrite (process_file_body_unread _ _ _ _ _ _ Hopen)].
  rewrite <- (get_scaling_values_fst in_file _ (console st)).
  destruct (get_scaling_values in_file (Z.of_nat (List.length image)) (console st))
    as [[[bottom top]|e] out] eqn:Hg; cbn [fst].
  - rewrite (process_file_body_written _ _ _ _ _ _ _ _ _ _ Hopen Hg). now split.
  - rewrite (process_file_body_policy _ _ _ _ _ _ _ _ _ Hopen Hg). now split.
Qed.

Lemma process_file_fst (E : environment) (len_inputs : Z) (bit_8 : bool)
      (in_file output_file : string) (index : Z) (st : state E) :
  fst (process_file E len_inputs bit_8 in_file output_file index st) = true <->
  fst (process_file_body E bit_8 in_file output_file
                         (report_progress E len_inputs index st)) = Ok tt.
Proof.
  unfold process_file.
  destruct (process_file_body E bit_8 in_file output_file _) as [[[]|e] st1];
    cbn [fst]; split; intros H; try reflexivity; discriminate.
Qed.

Lemma process_file_snd_fs (E : environment) (len_inputs : Z) (bit_8 : bool)
      (in_file output_file : string) (index : Z) (st : state E) :
  fs (snd (process_file E len_inputs bit_8 in_file output_file index st))
  = fs (snd (process_file_body E bit_8 in_file output_file
                               (report_progress E len_inputs index st))).
Proof.
  unfold process_file.
  now destruct (process_file_body E bit_8 in_file output_file _) as [[u|e] st1].
Qed.

(** X12.  [process_file] returns [True] exactly when the image opens, the
    name yields bounds and the writer succeeds on the normalised grid; a
    file that does not open or has no camera token leaves the file system
    as it was. *)
Theorem process_file_true_iff (E : environment) (len_inputs : Z) (bit_8 : bool)
        (in_file output_file : string) (index : Z) (st : state E) :
  (fst (process_file E len_inputs bit_8 in_file output_file index st) = true <->
   exists dt image bottom top,
     image_open E in_file (fs st) = Ok (dt, image) /\
     fst (get_scaling_values in_file (Z.of_nat (List.length image)) [])
     = Ok (bottom, top) /\
     fst ((if bit_8 then image_save E else png_write E)
            output_file (amap (rescale (cast_undefined E) dt bit_8 bottom top) image)
            (fs st)) = Ok tt) /\
  ((forall dt image, image_open E in_file (fs st) <> Ok (dt, image)) \/
   camera_of in_file = None ->
   fst (process_file E len_inputs bit_8 in_file output_file index st) = false /\
   fs (snd (process_file E len_inputs bit_8 in_file output_file index st)) = fs st).
Proof.
  pose proof (process_file_body_outcome E bit_8 in_file output_file
                (report_progress E len_inputs index st)) as Hb.
  rewrite report_progress_fs in Hb.
  split.
  - rewrite process_file_fst. split.
    + intros Hok.
      destruct (image_open E in_file (fs st)) as [[dt image]|e].
      * destruct (fst (get_scaling_values in_file _ [])) as [[bottom top]|e] eqn:Hg.
        -- cbv zeta in Hb. destruct Hb as [Hr _]. exists dt, image, bottom, top.
           split; [reflexivity|]. split; [exact Hg|]. now rewrite <- Hr.
        -- destruct Hb as [Hr _]. rewrite Hr in Hok. discriminate.
      * destruct Hb as [Hr _]. rewrite Hr in Hok. discriminate.
    + intros [dt [image [bottom [top [Hopen [Hg Hw]]]]]].
      rewrite Hopen in Hb. unfold Ok in Hb at 1. cbv beta iota in Hb.
      rewrite Hg in Hb. unfold Ok in Hb at 1. cbv beta iota zeta in Hb.
      destruct Hb as [Hr _]. now rewrite Hr.
  - intros Hfail.
    assert (Hc : exists e,
               fst (process_file_body E bit_8 in_file output_file
                      (report_progress E len_inputs index st)) = Raise e /\
               fs (snd (process_file_body E bit_8 in_file output_file
                          (report_progress E len_inputs index st))) = fs st).
    { destruct (image_open E in_file (fs st)) as [[dt image]|e]; [|now exists e].
      destruct Hfail as [Hno|Hcam]; [now destruct (Hno dt image)|].
      rewrite get_scaling_values_eq, Hcam in Hb. cbn [fst] in Hb.
      unfold Raise in Hb at 1. cbv beta iota in Hb.
      eexists. exact Hb. }
    destruct Hc as [e [Hr Hfs]]. split.
    + destruct (fst (process_file E len_inputs bit_8 in_file output_file index st))
        eqn:Ht; [|reflexivity].
      apply process_file_fst in Ht. rewrite Hr in Ht. discriminate.
    + now rewrite process_file_snd_fs.
Qed.

Lemma process_file_written (E : environment) (len_inputs : Z) (bit_8 : bool)
      (in_file output_file : string) (index : Z) (st : state E)
      (outputs : list string) (w0 : world E) :
  In output_file outputs ->
  written E bit_8 outputs w0 (fs st) ->
  written E bit_8 outputs w0
          (fs (snd (process_file E len_inputs bit_8 in_file output_file index st))).
Proof.
  intros Hin Hw. rewrite process_file_snd_fs.
  pose proof (process_file_body_outcome E bit_8 in_file output_file
                (report_progress E len_inputs index st)) as Hb.
  rewrite report_progress_fs in Hb.
  destruct (image_open E in_file (fs st)) as [[dt image]|e].
  - destruct (fst (get_scaling_values in_file _ [])) as [[bottom top]|e].
    + cbv zeta in Hb. destruct Hb as [_ ->]. now apply written_file.
    + destruct Hb as [_ ->]. exact Hw.
  - destruct Hb as [_ ->]. exact Hw.
Qed.

Lemma starmap_written (E : environment) (len_inputs : Z) (bit_8 : bool)
      (outputs : list string) (w0 : world E)
      (tasks : list (string * string * Z)) (st : state E) :
  (forall i o k, In (i, o, k) tasks -> In o outputs) ->
  written E bit_8 outputs w0 (fs st) ->
  written E bit_8 outputs w0 (fs (snd (starmap E len_inputs bit_8 tasks st))).
Proof.
  revert st. induction tasks as [|[[i o] k] rest IH]; intros st Hall Hw; [exact Hw|].
  cbn [starmap].
  pose proof (process_file_written E len_inputs bit_8 i o k st outputs w0
                (Hall i o k (or_introl eq_refl)) Hw) as H1.
  destruct (process_file E len_inputs bit_8 i o k st) as [r st1]. cbn [snd] in H1.
  assert (Hrest : forall i' o' k', In (i', o', k') rest -> In o' outputs)
    by (intros i' o' k' H; apply (Hall i' o' k'); now right).
  specialize (IH st1 Hrest H1).
  destruct (starmap E len_inputs bit_8 rest st1) as [rs st2]. exact IH.
Qed.

Lemma make_tasks_in (ins outs : list string) (index : Z) (i o : string) (k : Z) :
  In (i, o, k) (make_tasks ins outs index) -> In i ins /\ In o outs.
Proof.
  revert outs index. induction ins as [|x ins IH]; intros outs index H; [destruct H|].
  destruct outs as [|y outs]; [destruct H|].
  cbn [make_tasks] in H. destruct H as [H|H].
  - injection H as <- <- _. split; now left.
  - destruct (IH _ _ H). split; now right.
Qed.

Lemma written_invariant (E : environment) (bit_8 : bool) (outputs : list string)
      (w0 w : world E) (I : world E -> Prop) :
  (forall o normalized w1, In o outputs -> I w1 ->
     I (snd ((if bit_8 then image_save E else png_write E) o normalized w1))) ->
  I w0 -> written E bit_8 outputs w0 w -> I w.
Proof.
  intros Hstep H0 Hw. induction Hw as [|w1 o normalized _ IH Hin]; [exact H0|].
  now apply Hstep.
Qed.

(** X13.  The batch reaches the file system only through the writer of
    the chosen depth, and only under the output names built from the
    selected entries of the listing: whatever property of the file system
    these writes preserve holds after [main] if it held before. *)
Theorem main_writes_only_outputs (E : environment)
        (input_directory output_directory : string) (bit_8 : bool) (cpu_count : Z)
        (all_files : list string) (st : state E) :
  listdir E input_directory (fs st) = Ok all_files ->
  let outputs := List.map (fun x => path_join output_directory (output_name bit_8 x))
                          (selected all_files) in
  written E bit_8 outputs (fs st)
          (fs (snd (main E input_directory output_directory bit_8 cpu_count st))) /\
  forall I : world E -> Prop,
    (forall o normalized w, In o outputs -> I w ->
       I (snd ((if bit_8 then image_save E else png_write E) o normalized w))) ->
    I (fs st) ->
    I (fs (snd (main E input_directory output_directory bit_8 cpu_count st))).
Proof.
  intros Hlist outputs.
  assert (Hw : written E bit_8 outputs (fs st)
                 (fs (snd (main E input_directory output_directory bit_8 cpu_count st)))).
  { unfold main, curate_files. cbn [fs echo set_console].
    rewrite Hlist. unfold Ok. cbv beta iota.
    rewrite curate_names_eq. cbv beta iota zeta.
    cbn [fs echo set_console].
    destruct (Pool (num_workers cpu_count)) as [p|e]; [|apply written_nothing].
    match goal with
    | |- context [starmap E ?len bit_8 ?tasks ?s] =>
        pose proof (starmap_written E len bit_8 outputs (fs st) tasks s) as Hs;
        destruct (starmap E len bit_8 tasks s) as [results st1]
    end.
    cbn [fs snd echo set_console] in *. apply Hs; [|apply written_nothing].
    intros i o k Hin. apply make_tasks_in in Hin. now destruct Hin. }
  split; [exact Hw|].
  intros I Hstep H0. exact (written_invariant E bit_8 outputs _ _ I Hstep H0 Hw).
Qed.

(** X14.  When the directory cannot be listed, the exception of
    [os.listdir] leaves [main] as it is: the three header lines have been
    printed, no file has been looked at, and the file system and the
    clock of the progress report are untouched. *)
Theorem main_listing_fails (E : environment)
        (input_directory output_directory : string) (bit_8 : bool) (cpu_count : Z)
        (st : state E) (e : exn) :
  listdir E input_directory (fs st) = Raise e ->
  main E input_directory output_directory bit_8 cpu_count st
  = (Raise e,
     mkState (console st
              ++ [("Input directory: " ++ input_directory)%string]
              ++ [("Output directory: " ++ output_directory)%string]
              ++ [("bit_8: " ++ str_of_bool bit_8)%string])
             (prev_time st) (fs st)).
Proof.
  intros Hl. unfold main, curate_files. cbn [fs echo set_console console prev_time].
  rewrite Hl. unfold Raise. cbv beta iota.
  unfold echo, set_console. cbn [console prev_time fs].
  rewrite <- !List.app_assoc. reflexivity.
Qed.

(** X15.  A listing without a name that contains [16BIT.PNG] (an empty
    directory among them) is a successful run that converts nothing: six
    lines are printed and the file system is not touched. *)
Theorem main_nothing_to_do (E : environment)
        (input_directory output_directory : string) (bit_8 : bool) (cpu_count : Z)
        (all_files : list string) (st : state E) :
  listdir E input_directory (fs st) = Ok all_files ->
  (forall x, In x all_files -> ~ contains "16BIT.PNG" x) ->
  1 <= cpu_count ->
  main E input_directory output_directory bit_8 cpu_count st
  = (Ok tt,
     mkState (console st
              ++ [("Input directory: " ++ input_directory)%string;
                  ("Output directory: " ++ output_directory)%string;
                  ("bit_8: " ++ str_of_bool bit_8)%string;
                  "Found 0 files for processing";
                  "Done!";
                  "Completed converting 0 files"])
             (time_time E (fs st)) (fs st)).
Proof.
  intros Hl Hnone Hcpu.
  assert (Hsel : selected all_files = []).
  { unfold selected. apply filter_none. intros x Hx.
    destruct (negb _) eqn:Ef; [|reflexivity].
    apply str_find_contains in Ef. now destruct (Hnone x Hx). }
  unfold main, curate_files. cbn [fs echo set_console console prev_time].
  rewrite Hl. unfold Ok. cbv beta iota.
  rewrite curate_names_eq, Hsel.
  rewrite (Pool_ok _ (num_workers_pos cpu_count Hcpu)). unfold Ok.
  cbv beta iota zeta. cbn [List.map List.length make_tasks].
  cbn [starmap]. unfold echo, set_console. cbn [console prev_time fs].
  rewrite <- !List.app_assoc. reflexivity.
Qed.

(** ** The script at concrete inputs *)

(** Scenario: [X_P_Y_16BIT.PNG], 512 rows, 8-bit mode: 53500 gives 0 and
    56500 gives 255. *)
Example scenario_camera_P :
  get_scaling_values "X_P_Y_16BIT.PNG" 512 [] = (Ok (53500, 56500), []) /\
  lin_normalize_image (cast_undefined demo) u16 [[53500; 56500]] true
                      (Some 53500) (Some 56500)
  = Ok [[0; 255]] /\
  lin_normalize_image (cast_undefined demo) i32 [[53500; 56500]] true
                      (Some 53500) (Some 56500)
  = Ok [[0; 255]].
Proof. repeat split; reflexivity. Qed.

(** Scenario: camera C, the midpoint 54500 of 50500 and 58500. *)
Example scenario_camera_C :
  get_scaling_values "X_C_Y_16BIT.PNG" 480 [] = (Ok (50500, 58500), []) /\
  lin_normalize_image (cast_undefined demo) u16 [[54500]] true (Some 50500) (Some 58500)
  = Ok [[127]] /\
  lin_normalize_image (cast_undefined demo) u16 [[54500]] false (Some 50500) (Some 58500)
  = Ok [[32767]].
Proof. repeat split; reflexivity. Qed.

(** Scenario: five matching files, one unreadable: five found, four
    converted, and [main] ends normally. *)
Example scenario_batch :
  fst (demo_main true 4) = Ok tt /\
  console (snd (demo_main true 4))
  = ["Input directory: in"; "Output directory: out"; "bit_8: True";
     "Found 5 files for processing"; "0 of 5";
     "Unknown camera size for file in/a_P_16BIT.PNG";
     "cannot identify image file"; "Unable to load in/d_P_16BIT.PNG";
     "Unknown camera size for file in/e_P_16BIT.PNG";
     "Done!"; "Completed converting 4 files"].
Proof. split; vm_compute; reflexivity. Qed.

(** A file name without camera token: the worker fails although the image
    loads. *)
Example scenario_no_token :
  get_scaling_values "in/foo_16BIT.PNG" 2 []
  = (Raise (UnboundLocalError "camera_pos"),
     ["Warning: Bad filename format in/foo_16BIT.PNG"]) /\
  process_file demo 1 true "in/foo_16BIT.PNG" "out/foo_8BIT-N.PNG" 7 demo_state
  = (false,
     mkState (E := demo)
             ["Warning: Bad filename format in/foo_16BIT.PNG";
              "cannot access local variable 'camera_pos' where it is not associated with a value";
              "Unable to load in/foo_16BIT.PNG"] tt tt).
Proof. split; reflexivity. Qed.

(** A sample below [bottom]: the image of two rows with the default
    bounds in 8 bits and with the bounds of camera C in 16 bits.  The
    sample 50000 comes out white from a [uint16] array and black from an
    [int32] array. *)
Example scenario_below_bottom :
  lin_normalize_image (cast_undefined demo) u16 demo_grid true (Some 51000) (Some 57500)
  = Ok [[98; 215]; [156; 255]] /\
  lin_normalize_image (cast_undefined demo) u16 demo_grid false (Some 50500) (Some 58500)
  = Ok [[24575; 49151]; [36863; 65535]] /\
  lin_normalize_image (cast_undefined demo) i32 demo_grid true (Some 51000) (Some 57500)
  = Ok [[98; 215]; [156; 0]] /\
  lin_normalize_image (cast_undefined demo) u16 [[50000; 51000; 57500]] true
                      (Some 51000) (Some 57500)
  = Ok [[255; 0; 255]].
Proof. repeat split; reflexivity. Qed.

(** A bound that is no value of the element type of the array. *)
Example scenario_bound_out_of_range :
  lin_normalize_image (cast_undefined demo) i32 [[0; 5]] true (Some (-2147483649)) (Some 5)
  = Raise (OverflowError "Python integer -2147483649 out of bounds for int32") /\
  lin_normalize_image (cast_undefined demo) u16 [[0; 5]] true (Some (-1)) (Some 5)
  = Raise (OverflowError "Python integer -1 out of bounds for uint16").
Proof. split; reflexivity. Qed.

(** With equal bounds a grid comes back, no exception. *)
Lemma equal_bounds_not_raised :
  lin_normalize_image (cast_undefined demo) u16 [[5; 3; 4]] true (Some 3) (Some 3)
  = Ok [[255; 0; 255]] /\
  lin_normalize_image (cast_undefined demo) i32 [[5; 3; 4]] true (Some 3) (Some 3)
  = Ok [[255; 0; 255]].
Proof. split; reflexivity. Qed.

(** ** The theorems at concrete inputs *)

Lemma demo_grid16 : grid16 demo_grid.
Proof. repeat constructor; unfold sample16; lia. Defined.

Lemma small_grid16 : grid16 [[5; 3; 4]].
Proof. repeat constructor; unfold sample16; lia. Defined.

Lemma lin_normalize_image_linear_witness :
  grid16 demo_grid /\ 0 <= 51000 /\ 51000 < 57500 /\ 57500 < 2 ^ 16 /\
  lin_normalize_image (cast_undefined demo) u16 demo_grid true (Some 51000) (Some 57500)
  = Ok (amap (rescale (cast_undefined demo) u16 true 51000 57500) demo_grid) /\
  rescale (cast_undefined demo) u16 true 51000 57500 50000 = 2 ^ bit_depth true - 1.
Proof.
  split; [exact demo_grid16|]. split; [lia|]. split; [lia|]. split; [lia|].
  destruct (lin_normalize_image_linear (cast_undefined demo) u16 demo_grid true
              51000 57500 demo_grid16 ltac:(lia) ltac:(lia) ltac:(lia))
    as [Heq Hall].
  split; [exact Heq|].
  destruct (Hall [55000; 50000] 50000 (or_intror (or_introl eq_refl))
                 (or_intror (or_introl eq_refl)))
    as [_ [_ [_ [_ [_ [_ Hwrap]]]]]].
  apply Hwrap; [lia | reflexivity].
Defined.

Lemma lin_normalize_image_monotone_witness :
  grid16 demo_grid /\ 0 <= 51000 /\ 51000 < 57500 /\ 57500 < 2 ^ 16 /\
  rescale (cast_undefined demo) u16 false 51000 57500 51000
  < rescale (cast_undefined demo) u16 false 51000 57500 50000.
Proof.
  split; [exact demo_grid16|]. split; [lia|]. split; [lia|]. split; [lia|].
  destruct (lin_normalize_image_monotone (cast_undefined demo) u16 demo_grid false
              51000 57500 demo_grid16 ltac:(lia) ltac:(lia) ltac:(lia))
    as [_ [_ Hbreak]].
  apply (Hbreak eq_refl [55000; 50000] 50000 (or_intror (or_introl eq_refl))
                (or_intror (or_introl eq_refl))).
  lia.
Defined.

Lemma lin_normalize_image_equal_bounds_witness :
  grid16 [[5; 3; 4]] /\ 0 <= 3 < 2 ^ 16 /\
  lin_normalize_image (cast_undefined demo) u16 [[5; 3; 4]] true (Some 3) (Some 3)
  = Ok (amap (rescale (cast_undefined demo) u16 true 3 3) [[5; 3; 4]]).
Proof.
  split; [exact small_grid16|]. split; [lia|].
  apply (lin_normalize_image_equal_bounds (cast_undefined demo) u16 [[5; 3; 4]] true 3
                                          small_grid16).
  lia.
Defined.

Lemma lin_normalize_image_shape_witness :
  fits u16 53500 = true /\ fits u16 56500 = true /\ 53500 <> 56500 /\
  exists normalized,
    lin_normalize_image (cast_undefined demo) u16 demo_grid true (Some 53500) (Some 56500)
    = Ok normalized /\
    List.length normalized = List.length demo_grid /\
    shape normalized = shape demo_grid /\
    normalized = amap (rescale (cast_undefined demo) u16 true 53500 56500) demo_grid.
Proof.
  split; [reflexivity|]. split; [reflexivity|]. split; [lia|].
  apply (lin_normalize_image_shape (cast_undefined demo) u16 demo_grid true 53500 56500);
    [reflexivity | reflexivity | lia].
Defined.

Lemma get_scaling_values_table_witness :
  (exists t, In t (str_split "_"%char (basename "in/X_P_Y_16BIT.PNG"))
             /\ is_camera_token t = true) /\
  exists c, camera_of "in/X_P_Y_16BIT.PNG" = Some c.
Proof.
  assert (H : exists t, In t (str_split "_"%char (basename "in/X_P_Y_16BIT.PNG"))
                        /\ is_camera_token t = true).
  { exists "P". split; [simpl; tauto | reflexivity]. }
  split; [exact H|].
  destruct (get_scaling_values_table "in/X_P_Y_16BIT.PNG" 512 [] H) as [c [Hc _]].
  exists c. exact Hc.
Defined.

Lemma num_workers_max_witness :
  1 <= 4 /\ num_workers 4 = Z.max 1 (4 - 1) /\
  Pool (num_workers 4) = Ok (Z.max 1 (4 - 1)) /\ Pool (num_workers 1) = Ok 1.
Proof. split; [lia | apply (num_workers_max 4); lia]. Defined.

Lemma curate_files_pairs_witness :
  listdir demo "in" tt = Ok demo_listing /\
  exists input_files output_files,
    curate_files demo "in" "out" true tt = Ok (input_files, output_files).
Proof.
  split; [reflexivity|].
  destruct (curate_files_pairs demo demo_listing "in" "out" true tt eq_refl)
    as [input_files [output_files [H _]]].
  exists input_files, output_files. exact H.
Defined.

(** In the small world every selected entry but [d_P_16BIT.PNG] can be
    converted. *)
Lemma demo_readable :
  forall x, In x (selected demo_listing) ->
    if negb (String.eqb x "d_P_16BIT.PNG")
    then convertible demo "in" "out" true x
    else unreadable demo "in" x.
Proof.
  assert (Hs : selected demo_listing
               = ["a_P_16BIT.PNG"; "b_C_16BIT.PNG"; "c_S_16BIT.PNG";
                  "d_P_16BIT.PNG"; "e_P_16BIT.PNG"]) by reflexivity.
  intros x Hx. rewrite Hs in Hx.
  destruct Hx as [<-|[<-|[<-|[<-|[<-|[]]]]]];
    match goal with
    | |- if ?b then _ else _ =>
        let v := eval vm_compute in b in change b with v; cbv iota
    end;
    try (intros w; split; [eexists _, _; reflexivity|];
         split; [eexists; reflexivity | intros normalized; reflexivity]).
  intros w. eexists. reflexivity.
Defined.

Lemma batch_contains_failures_witness :
  listdir demo "in" (fs demo_state) = Ok demo_listing /\ 1 <= 4 /\
  exists (results : list bool) (st_end : state demo),
    main demo "in" "out" true 4 demo_state
    = (Ok tt,
       echo ("Completed converting " ++ str_of_Z (succeeded results) ++ " files")%string
            (echo "Done!" st_end)) /\
    results = [true; true; true; false; true] /\
    succeeded results = 4.
Proof.
  split; [reflexivity|]. split; [lia|].
  destruct (batch_contains_failures demo "in" "out" true 4 demo_listing demo_state
              eq_refl ltac:(lia))
    as [_ [_ H]].
  cbv zeta in H.
  destruct H as [results [st_end [_ [_ [_ [Hmain Hscen]]]]]].
  destruct (Hscen (fun x => negb (String.eqb x "d_P_16BIT.PNG")) demo_readable)
    as [Hres Hcount].
  exists results, st_end.
  split; [exact Hmain|]. split; [exact Hres | exact Hcount].
Defined.

Lemma unparseable_filename_fails_witness :
  (forall t, In t (str_split "_"%char (basename "in/foo_16BIT.PNG")) ->
             t <> "P" /\ t <> "C" /\ t <> "S") /\
  get_scaling_values "in/foo_16BIT.PNG" 2 []
  = (Raise (UnboundLocalError "camera_pos"),
     [] ++ ["Warning: Bad filename format in/foo_16BIT.PNG"]).
Proof.
  assert (H : forall t, In t (str_split "_"%char (basename "in/foo_16BIT.PNG")) ->
                        t <> "P" /\ t <> "C" /\ t <> "S").
  { intros t [<-|[<-|[]]]; repeat split; discriminate. }
  split; [exact H|].
  apply (unparseable_filename_fails demo "in/foo_16BIT.PNG" H).
Defined.

(** ** Further scenarios and instances *)

(** The names the writers are called with, in task order, when every
    image of the listing decodes. *)
Example scenario_recorded_names :
  fs (snd (main (recorder demo_listing) "in" "out" true 4
                (@mkState (recorder demo_listing) [] tt [])))
  = ["out/a_P_8BIT-N.PNG"; "out/b_C_8BIT-N.PNG"; "out/c_S_8BIT-N.PNG";
     "out/d_P_8BIT-N.PNG"; "out/e_P_8BIT-N.PNG"] /\
  fs (snd (main (recorder demo_listing) "in" "in" false 4
                (@mkState (recorder demo_listing) [] tt [])))
  = ["in/a_P_16BIT-N.PNG"; "in/b_C_16BIT-N.PNG"; "in/c_S_16BIT-N.PNG";
     "in/d_P_16BIT-N.PNG"; "in/e_P_16BIT-N.PNG"].
Proof. split; vm_compute; reflexivity. Qed.

(** Bounds the wrong way round, and bounds taken from the image. *)
Example scenario_inverted_and_auto :
  lin_normalize_image (cast_undefined demo) i32 [[50000; 53500; 55000; 56500; 60000]] true
                      (Some 56500) (Some 53500)
  = Ok [[255; 255; 127; 0; 0]] /\
  lin_normalize_image (cast_undefined demo) u16 [[50000; 53500; 55000; 56500; 60000]] true
                      (Some 56500) (Some 53500)
  = Ok [[0; 0; 0; 0; 0]] /\
  lin_normalize_image (cast_undefined demo) u16 demo_grid true None None
  = Ok [[137; 255]; [196; 0]] /\
  lin_normalize_image (cast_undefined demo) i32 demo_grid true None None
  = Ok [[137; 255]; [196; 0]] /\
  lin_normalize_image (fun bits x => 7) u16 [[5; 5]; [5; 5]] true None None
  = Ok [[7; 7]; [7; 7]].
Proof. repeat split; vm_compute; reflexivity. Qed.

(** Raising the bounds around the sample 52000. *)
Example scenario_raised_bounds :
  lin_normalize_image (cast_undefined demo) u16 [[52000]] true (Some 50500) (Some 56500)
  = Ok [[63]] /\
  lin_normalize_image (cast_undefined demo) u16 [[52000]] true (Some 53500) (Some 58500)
  = Ok [[255]] /\
  lin_normalize_image (cast_undefined demo) i32 [[52000]] true (Some 53500) (Some 58500)
  = Ok [[0]].
Proof. repeat split; vm_compute; reflexivity. Qed.

Lemma free_of_slash_demo : free_of "/" "a_P_16BIT.PNG".
Proof.
  intros d Hd. cbn in Hd.
  repeat (destruct Hd as [<-|Hd]; [discriminate|]). destruct Hd.
Defined.

Lemma directory_is_ignored_witness :
  free_of "/" "a_P_16BIT.PNG" /\
  basename (path_join "in" "a_P_16BIT.PNG") = "a_P_16BIT.PNG" /\
  camera_of (path_join "in" "a_P_16BIT.PNG") = camera_of "a_P_16BIT.PNG" /\
  fst (get_scaling_values (path_join "in" "a_P_16BIT.PNG") 512 [])
  = fst (get_scaling_values "a_P_16BIT.PNG" 512 []).
Proof.
  split; [exact free_of_slash_demo|].
  exact (directory_is_ignored "in" "a_P_16BIT.PNG" 512 [] free_of_slash_demo).
Defined.

Lemma first_camera_token_decides_witness :
  ["a"; "P"; "16BIT.PNG"] <> [] /\
  (forall t, In t ["a"; "P"; "16BIT.PNG"] -> free_of "_" t /\ free_of "/" t) /\
  camera_of (path_join "in" (str_join "_" ["a"; "P"; "16BIT.PNG"]))
  = List.find is_camera_token ["a"; "P"; "16BIT.PNG"].
Proof.
  assert (H0 : ["a"; "P"; "16BIT.PNG"] <> []) by discriminate.
  assert (H1 : forall t, In t ["a"; "P"; "16BIT.PNG"] ->
                         free_of "_" t /\ free_of "/" t).
  { intros t [<-|[<-|[<-|[]]]]; split; intros d Hd; cbn in Hd;
      repeat (destruct Hd as [<-|Hd]; [discriminate|]); destruct Hd. }
  split; [exact H0|]. split; [exact H1|].
  exact (proj1 (first_camera_token_decides "in" ["a"; "P"; "16BIT.PNG"] 512 [] H0 H1)).
Defined.

Lemma process_file_reaches_writer_witness :
  image_open demo "in/a_P_16BIT.PNG" (fs demo_state) = Ok (u16, demo_grid) /\
  grid16 demo_grid /\
  camera_of "in/a_P_16BIT.PNG" = Some "P" /\
  exists bottom top out,
    get_scaling_values "in/a_P_16BIT.PNG" (Z.of_nat (List.length demo_grid))
                       (console demo_state)
    = (Ok (bottom, top), out) /\
    50500 <= bottom /\ bottom + 3000 <= top /\ top <= 58500.
Proof.
  split; [reflexivity|]. split; [exact demo_grid16|]. split; [reflexivity|].
  destruct (process_file_reaches_writer demo true "in/a_P_16BIT.PNG"
              "out/a_P_8BIT-N.PNG" "P" u16 demo_grid demo_state
              eq_refl demo_grid16 eq_refl)
    as [bottom [top [out [Hg [Hb [Hw [Ht _]]]]]]].
  exists bottom, top, out. repeat split; assumption.
Defined.

Lemma lin_normalize_image_auto_bounds_witness :
  grid16 demo_grid /\ List.concat demo_grid <> [] /\
  exists lo hi, np_min demo_grid = Ok lo /\ np_max demo_grid = Ok hi.
Proof.
  assert (Hne : List.concat demo_grid <> []) by discriminate.
  split; [exact demo_grid16|]. split; [exact Hne|].
  destruct (lin_normalize_image_auto_bounds (cast_undefined demo) u16 demo_grid true
              demo_grid16 Hne)
    as [lo [hi [Hmin [Hmax _]]]].
  exists lo, hi. split; assumption.
Defined.

Lemma lin_normalize_image_empty_witness :
  List.concat [[]; []] = ([] : list Z) /\
  lin_normalize_image (cast_undefined demo) u16 [[]; []] true None None
  = Raise (ValueError
             "zero-size array to reduction operation minimum which has no identity").
Proof.
  split; [reflexivity|].
  exact (lin_normalize_image_empty (cast_undefined demo) u16 [[]; []] true None None
                                   eq_refl).
Defined.

Lemma lin_normalize_image_inverted_witness :
  grid16 demo_grid /\ 0 <= 53500 /\ 53500 < 56500 /\ 56500 < 2 ^ 16 /\
  lin_normalize_image (cast_undefined demo) u16 demo_grid true (Some 56500) (Some 53500)
  = Ok (amap (rescale (cast_undefined demo) u16 true 56500 53500) demo_grid) /\
  rescale (cast_undefined demo) u16 true 56500 53500 50000 = 0.
Proof.
  split; [exact demo_grid16|]. split; [lia|]. split; [lia|]. split; [lia|].
  destruct (lin_normalize_image_inverted (cast_undefined demo) u16 demo_grid true
              56500 53500 demo_grid16 ltac:(lia) ltac:(lia) ltac:(lia))
    as [Heq [_ Hblack]].
  split; [exact Heq|].
  exact (Hblack eq_refl [55000; 50000] 50000 (or_intror (or_introl eq_refl))
                (or_intror (or_introl eq_refl))).
Defined.

Lemma lin_normalize_image_portable_witness :
  grid16 demo_grid /\ 0 <= 53500 < 2 ^ 16 /\ 0 <= 56500 < 2 ^ 16 /\ 53500 <> 56500 /\
  lin_normalize_image (fun bits x => 0) u16 demo_grid true (Some 53500) (Some 56500)
  = lin_normalize_image (fun bits x => 2 ^ bits - 1) u16 demo_grid true
                        (Some 53500) (Some 56500).
Proof.
  split; [exact demo_grid16|]. split; [lia|]. split; [lia|]. split; [lia|].
  apply lin_normalize_image_portable; [exact demo_grid16 | lia | lia | lia].
Defined.

Lemma raising_bounds_darkens_witness :
  grid16 demo_grid /\ 0 <= 50500 /\ 50500 <= 53500 /\ 56500 <= 58500 /\
  50500 < 56500 /\ 53500 < 58500 /\ 58500 < 2 ^ 16 /\
  forall row v, In row demo_grid -> In v row -> 53500 <= v \/ u16 = i32 ->
    rescale (cast_undefined demo) u16 true 53500 58500 v
    <= rescale (cast_undefined demo) u16 true 50500 56500 v.
Proof.
  split; [exact demo_grid16|].
  split; [lia|]. split; [lia|]. split; [lia|]. split; [lia|]. split; [lia|].
  split; [lia|].
  apply (raising_bounds_darkens (cast_undefined demo) u16 demo_grid true
                                50500 56500 53500 58500);
    [exact demo_grid16 | lia | lia | lia | lia | lia | lia].
Defined.

Lemma lin_normalize_image_affine_witness :
  grid16 demo_grid /\ 0 <= 53500 /\ 53500 < 56500 /\ 56500 < 2 ^ 16 /\
  0 < 2 <= 2 ^ 15 /\ - 2 ^ 31 <= -100 /\ 2 * 2 ^ 16 + -100 <= 2 ^ 31 /\
  lin_normalize_image (cast_undefined demo) i32
                      (amap (fun v => 2 * v + -100) demo_grid) true
                      (Some (2 * 53500 + -100)) (Some (2 * 56500 + -100))
  = lin_normalize_image (cast_undefined demo) i32 demo_grid true
                        (Some 53500) (Some 56500).
Proof.
  split; [exact demo_grid16|].
  split; [lia|]. split; [lia|]. split; [lia|]. split; [lia|]. split; [lia|].
  split; [lia|].
  apply lin_normalize_image_affine; [exact demo_grid16 | lia | lia | lia | lia | lia | lia].
Defined.

Lemma main_writes_only_outputs_witness :
  listdir (recorder demo_listing) "in" [] = Ok demo_listing /\
  written (recorder demo_listing) true
          (List.map (fun x => path_join "out" (output_name true x))
                    (selected demo_listing))
          []
          (fs (snd (main (recorder demo_listing) "in" "out" true 4
                         (@mkState (recorder demo_listing) [] tt [])))).
Proof.
  split; [reflexivity|].
  exact (proj1 (main_writes_only_outputs (recorder demo_listing) "in" "out" true 4
                  demo_listing (@mkState (recorder demo_listing) [] tt []) eq_refl)).
Defined.

Lemma main_listing_fails_witness :
  listdir missing_directory "in" tt = Raise (External "No such file or directory") /\
  main missing_directory "in" "out" true 4 (@mkState missing_directory [] tt tt)
  = (Raise (External "No such file or directory"),
     @mkState missing_directory
              ([] ++ ["Input directory: in"] ++ ["Output directory: out"]
                  ++ ["bit_8: True"]) tt tt).
Proof.
  split; [reflexivity|].
  exact (main_listing_fails missing_directory "in" "out" true 4
                            (@mkState missing_directory [] tt tt)
                            (External "No such file or directory") eq_refl).
Defined.

Lemma main_nothing_to_do_witness :
  listdir (recorder ["notes.txt"; "a_P_8BIT-N.PNG"]) "in" [] = Ok ["notes.txt"; "a_P_8BIT-N.PNG"] /\
  (forall x, In x ["notes.txt"; "a_P_8BIT-N.PNG"] -> ~ contains "16BIT.PNG" x) /\
  1 <= 4 /\
  fst (main (recorder ["notes.txt"; "a_P_8BIT-N.PNG"]) "in" "out" true 4
            (@mkState (recorder ["notes.txt"; "a_P_8BIT-N.PNG"]) [] tt []))
  = Ok tt.
Proof.
  assert (Hn : forall x, In x ["notes.txt"; "a_P_8BIT-N.PNG"] ->
                         ~ contains "16BIT.PNG" x).
  { intros x [<-|[<-|[]]] Hc; apply str_find_contains in Hc; discriminate. }
  assert (H : 1 <= 4) by lia.
  split; [reflexivity|]. split; [exact Hn|]. split; [exact H|].
  rewrite (main_nothing_to_do (recorder ["notes.txt"; "a_P_8BIT-N.PNG"]) "in" "out"
             true 4 ["notes.txt"; "a_P_8BIT-N.PNG"]
             (@mkState (recorder ["notes.txt"; "a_P_8BIT-N.PNG"]) [] tt [])
             eq_refl Hn H).
  reflexivity.
Defined.
